(** * FinanceTracker: the data-access layer and the text report, embedded in Rocq

    The embedding follows [finance_control/database.py] (class [Database]) and
    [finance_control/reports.py] (class [ReportGenerator]).  Around them it
    covers the store of [simple_cli.py], what [finance_control/views.py]
    computes for the dashboard and the transaction filters, the entity models
    of [finance_control/models.py] and [finance_control/settings.py].

    Conventions of the embedding:
    - a table is the list of its rows in rowid order (the order in which SQLite
      scans a rowid table); an INSERT appends a row whose id is the next rowid;
    - TEXT values are byte strings, compared bytewise as SQLite's BINARY
      collation does;
    - REAL amounts are exact rationals ([Q]); equalities between computed
      amounts are stated with [==].  The code adds floating-point numbers,
      whose sums depend on the order of the additions: a sum is modelled in
      the order the code adds, and what the operations and the reports do to
      a total is stated with plain equality between sums taken in that
      order, never by regrouping a sum;
    - a store failure ([sqlite3.Error]) is outside the model: every statement
      executes.  The [None]/[False] results that remain are those the Python
      code produces itself (validation errors, no row matched). *)

From Stdlib Require Import List String Ascii Bool ZArith QArith Lia Lqa.
From Stdlib Require Import DecimalString.
From Stdlib Require Import Permutation Sorted OrderedTypeEx.
Import ListNotations.

Local Open Scope string_scope.
Local Open Scope list_scope.

(** ** Rows of the two tables created by [init_db] *)

Record category := mkCategory {
  c_id : Z;
  c_name : string;
  c_color : string;
  c_type : string
}.

Record transaction := mkTransaction {
  t_id : Z;
  t_amount : Q;
  t_category_id : option Z;
  t_date : string;
  t_description : string;
  t_type : string
}.

Record database := mkDatabase {
  categories : list category;
  transactions : list transaction
}.

(** [cursor.lastrowid] after an INSERT into a table with an INTEGER PRIMARY
    KEY and no explicit id: one more than the largest rowid in use, 1 for an
    empty table. *)
Definition new_rowid (ids : list Z) : Z :=
  match ids with
  | [] => 1%Z
  | i :: rest => (fold_left Z.max rest i + 1)%Z
  end.

(** ** Category repository *)

(** [WHERE name = ? AND type = ?] *)
Definition same_name_type (name category_type : string) (c : category) : bool :=
  String.eqb (c_name c) name && String.eqb (c_type c) category_type.

Definition insert_category (db : database) (name color category_type : string)
  : Z * database :=
  let id := new_rowid (map c_id (categories db)) in
  (id, {| categories := categories db ++ [mkCategory id name color category_type];
          transactions := transactions db |}).

(** [Database.add_category]: look the pair up first ([fetchone] is the first
    matching row); insert only when nothing matched. *)
Definition add_category (db : database) (name color category_type : string)
  : option Z * database :=
  match find (same_name_type name category_type) (categories db) with
  | Some existing => (Some (c_id existing), db)
  | None =>
      let (id, db') := insert_category db name color category_type in
      (Some id, db')
  end.

(** [Database.update_category]: name and color of the row with this id;
    [True] when a row was matched. *)
Definition update_category (db : database) (category_id : Z) (name color : string)
  : bool * database :=
  let hit := fun c => Z.eqb (c_id c) category_id in
  (existsb hit (categories db),
   {| categories :=
        map (fun c => if hit c
                      then mkCategory (c_id c) name color (c_type c)
                      else c) (categories db);
      transactions := transactions db |}).

(** [executemany] of an INSERT over a list of (name, color, type) triples. *)
Definition insert_categories (db : database) (rows : list (string * string * string))
  : database :=
  fold_left (fun d '(n, c, t) => snd (insert_category d n c t)) rows db.

Definition count_type (category_type : string) (cats : list category) : nat :=
  List.length (filter (fun c => String.eqb (c_type c) category_type) cats).

(** A run of [add_category] calls, each on the state the previous one left. *)
Fixpoint add_categories (db : database) (calls : list (string * string * string))
  : list (option Z) * database :=
  match calls with
  | [] => ([], db)
  | (name, color, category_type) :: rest =>
      let (r, db1) := add_category db name color category_type in
      let (rs, db2) := add_categories db1 rest in
      (r :: rs, db2)
  end.

(** Number of category rows holding a given (name, type) pair. *)
Definition count_name_type (name category_type : string) (cats : list category) : nat :=
  List.length (filter (same_name_type name category_type) cats).

Definition unique_name_type (cats : list category) : Prop :=
  forall name category_type, (count_name_type name category_type cats <= 1)%nat.

(** [Database._create_default_categories]: each type is seeded only when the
    table holds no category of that type. *)
Definition expense_categories : list (string * string * string) :=
  [ ("Продукты", "#4CAF50", "expense");
    ("Транспорт", "#2196F3", "expense");
    ("Жилье", "#FFC107", "expense");
    ("Развлечения", "#9C27B0", "expense");
    ("Здоровье", "#F44336", "expense");
    ("Одежда", "#FF9800", "expense");
    ("Образование", "#795548", "expense");
    ("Прочее", "#607D8B", "expense") ].

Definition income_categories : list (string * string * string) :=
  [ ("Зарплата", "#4CAF50", "income");
    ("Фриланс", "#2196F3", "income");
    ("Инвестиции", "#FFC107", "income");
    ("Подарки", "#9C27B0", "income");
    ("Прочее", "#607D8B", "income") ].

Definition create_default_categories (db : database) : database :=
  let db1 := if Nat.eqb (count_type "expense" (categories db)) 0
             then insert_categories db expense_categories else db in
  if Nat.eqb (count_type "income" (categories db1)) 0
  then insert_categories db1 income_categories else db1.

(** [Database.init_db] on a file that already holds [db] (CREATE TABLE IF
    NOT EXISTS changes nothing), and on a new file. *)
Definition init_db (db : database) : database := create_default_categories db.

Definition empty_database : database := {| categories := []; transactions := [] |}.

Definition fresh_database : database := init_db empty_database.

(** [Database.delete_category]: detach the transactions that reference the
    category, then delete the category row; the result is [rowcount > 0] of
    the DELETE. *)
Definition references (category_id : Z) (t : transaction) : bool :=
  match t_category_id t with
  | Some c => Z.eqb c category_id
  | None => false
  end.

Definition detach (t : transaction) : transaction :=
  mkTransaction (t_id t) (t_amount t) None (t_date t) (t_description t) (t_type t).

Definition delete_category (db : database) (category_id : Z) : bool * database :=
  let hit := fun c => Z.eqb (c_id c) category_id in
  let txs := map (fun t => if references category_id t then detach t else t)
                 (transactions db) in
  let rowcount := List.length (filter hit (categories db)) in
  (Nat.ltb 0 rowcount,
   {| categories := filter (fun c => negb (hit c)) (categories db);
      transactions := txs |}).

(** [Database.get_category_by_id] *)
Definition get_category_by_id (db : database) (category_id : Z) : option category :=
  find (fun c => Z.eqb (c_id c) category_id) (categories db).

(** ** Dates

    A [datetime] keeps the calendar date only: the time of day never reaches
    the store.  What the Python and SQLite libraries do with a date is taken
    from the environment: the clock, [datetime.strptime(s, "%Y-%m-%d")]
    ([None] for [ValueError]), [d.strftime("%Y-%m-%d")], and SQLite's
    [strftime('%Y-%m', text)] ([None] for NULL, its result on text that is
    not a date). *)

Record datetime := mkDatetime { dt_year : Z; dt_month : Z; dt_day : Z }.

Record environment := mkEnvironment {
  now : datetime;
  strptime : string -> option datetime;
  strftime : datetime -> string;
  sqlite_strftime_ym : string -> option string
}.

(** A date argument is a string or a [datetime]; an optional one may also be
    [None], modelled by [option]. *)
Inductive date_value :=
  | DateStr (s : string)
  | DateObj (d : datetime).

(** ** Transaction repository *)

(** [transaction_type not in ['income', 'expense']], negated *)
Definition valid_type (transaction_type : string) : bool :=
  String.eqb transaction_type "income" || String.eqb transaction_type "expense".

(** The date preparation of [add_transaction]: [None] becomes now; a string
    is parsed, and becomes now when it does not parse. *)
Definition prepare_date (env : environment) (date : option date_value) : datetime :=
  match date with
  | None => now env
  | Some (DateStr s) =>
      match strptime env s with
      | Some d => d
      | None => now env
      end
  | Some (DateObj d) => d
  end.

(** [Database.add_transaction]; [None] is the result after a [ValueError]. *)
Definition add_transaction (env : environment) (db : database)
    (amount : Q) (category_id : option Z) (description transaction_type : string)
    (date : option date_value) : option Z * database :=
  if negb (valid_type transaction_type) then (None, db)
  else if Qle_bool amount 0 then (None, db)
  else
    let date_str := strftime env (prepare_date env date) in
    let id := new_rowid (map t_id (transactions db)) in
    (Some id,
     {| categories := categories db;
        transactions := transactions db ++
          [mkTransaction id amount category_id date_str description transaction_type] |}).

(** [Database.update_transaction]: the same two checks; a string date that
    does not parse raises [ValueError] here, so nothing is written. *)
Definition update_transaction (env : environment) (db : database)
    (transaction_id : Z) (amount : Q) (category_id : option Z) (description : string)
    (date : date_value) (transaction_type : string) : bool * database :=
  if negb (valid_type transaction_type) then (false, db)
  else if Qle_bool amount 0 then (false, db)
  else
    let parsed := match date with
                  | DateStr s => strptime env s
                  | DateObj d => Some d
                  end in
    match parsed with
    | None => (false, db)
    | Some d =>
        let date_str := strftime env d in
        let hit := fun t => Z.eqb (t_id t) transaction_id in
        (Nat.ltb 0 (List.length (filter hit (transactions db))),
         {| categories := categories db;
            transactions :=
              map (fun t => if hit t
                            then mkTransaction (t_id t) amount category_id date_str
                                               description transaction_type
                            else t) (transactions db) |})
    end.

(** [Database.delete_transaction] *)
Definition delete_transaction (db : database) (transaction_id : Z) : bool * database :=
  let hit := fun t => Z.eqb (t_id t) transaction_id in
  (Nat.ltb 0 (List.length (filter hit (transactions db))),
   {| categories := categories db;
      transactions := filter (fun t => negb (hit t)) (transactions db) |}).

(** ** Ordering of result rows

    [ORDER BY] and [list.sort] are modelled by a stable insertion sort over a
    boolean order; the properties proved of a sorted result (it is ordered,
    it holds the same rows) do not depend on how ties are broken. *)

Section Sorting.
Context {A : Type} (le : A -> A -> bool).

Fixpoint insert_by (x : A) (l : list A) : list A :=
  match l with
  | [] => [x]
  | y :: rest => if le x y then x :: l else y :: insert_by x rest
  end.

Definition sort_by (l : list A) : list A := fold_right insert_by [] l.
End Sorting.

(** ** Listing queries: transactions LEFT JOIN categories *)

Record transaction_record := mkRecord {
  r_id : Z;
  r_amount : Q;
  r_category_id : option Z;
  r_category_name : option string;
  r_category_color : option string;
  r_date : string;
  r_description : string;
  r_type : string
}.

(** [LEFT JOIN categories c ON t.category_id = c.id]: [c.id] is the primary
    key, so at most one category row joins; a NULL or unmatched
    [category_id] joins nothing. *)
Definition joined_category (db : database) (t : transaction) : option category :=
  match t_category_id t with
  | Some cid => find (fun c => Z.eqb (c_id c) cid) (categories db)
  | None => None
  end.

Definition uncategorized_name : string := "Без категории".
Definition default_color : string := "#607D8B".

(** [x if x else default]: [None] and the empty string are both false. *)
Definition if_else (x : option string) (default : string) : string :=
  match x with
  | Some s => if String.eqb s "" then default else s
  | None => default
  end.

(** The dictionary built from a joined row, as [get_all_transactions],
    [get_transactions_by_type] and [get_transactions_by_date_range] build it. *)
Definition row_with_defaults (db : database) (t : transaction) : transaction_record :=
  let c := joined_category db t in
  mkRecord (t_id t) (t_amount t) (t_category_id t)
           (Some (if_else (option_map c_name c) uncategorized_name))
           (Some (if_else (option_map c_color c) default_color))
           (t_date t) (t_description t) (t_type t).

(** The dictionary built from a joined row, as [get_transaction_by_id] and
    [get_transactions_by_category] build it: the joined columns as they are. *)
Definition row_as_joined (db : database) (t : transaction) : transaction_record :=
  let c := joined_category db t in
  mkRecord (t_id t) (t_amount t) (t_category_id t)
           (option_map c_name c) (option_map c_color c)
           (t_date t) (t_description t) (t_type t).

(** [ORDER BY t.date DESC] *)
Definition date_desc (a b : transaction) : bool := String.leb (t_date b) (t_date a).

Definition select_newest_first (db : database) (where_ : transaction -> bool)
  : list transaction :=
  sort_by date_desc (filter where_ (transactions db)).

Definition get_transaction_by_id (db : database) (transaction_id : Z)
  : option transaction_record :=
  option_map (row_as_joined db)
             (find (fun t => Z.eqb (t_id t) transaction_id) (transactions db)).

Definition get_all_transactions (db : database) : list transaction_record :=
  map (row_with_defaults db) (select_newest_first db (fun _ => true)).

Definition get_transactions_by_type (db : database) (transaction_type : string)
  : list transaction_record :=
  map (row_with_defaults db)
      (select_newest_first db (fun t => String.eqb (t_type t) transaction_type)).

(** A date parameter as it is bound to the statement: a [datetime] is
    formatted, a string is passed as it is. *)
Definition bound_text (env : environment) (d : date_value) : string :=
  match d with
  | DateStr s => s
  | DateObj d => strftime env d
  end.

(** [t.date BETWEEN ? AND ?] *)
Definition between (lo hi : string) (t : transaction) : bool :=
  String.leb lo (t_date t) && String.leb (t_date t) hi.

Definition get_transactions_by_date_range (env : environment) (db : database)
    (start_date : date_value) (end_date : option date_value)
  : list transaction_record :=
  let lo := bound_text env start_date in
  let hi := match end_date with
            | None => strftime env (now env)
            | Some e => bound_text env e
            end in
  map (row_with_defaults db) (select_newest_first db (between lo hi)).

Definition get_transactions_by_category (db : database) (category_id : Z)
  : list transaction_record :=
  map (row_as_joined db) (select_newest_first db (references category_id)).

(** ** Aggregate queries *)

(** [SUM(amount)] over the selected rows: NULL over no rows. *)
Definition sql_sum (amounts : list Q) : option Q :=
  match amounts with
  | [] => None
  | a :: rest => Some (fold_left Qplus rest a)
  end.

(** [row['total'] if row and row['total'] is not None else 0] *)
Definition total_or_zero (total : option Q) : Q :=
  match total with
  | Some s => s
  | None => 0%Q
  end.

Definition has_type (transaction_type : string) (t : transaction) : bool :=
  String.eqb (t_type t) transaction_type.

(** [Database.get_balance] *)
Definition get_balance (db : database) : Q :=
  let total_income :=
    total_or_zero (sql_sum (map t_amount (filter (has_type "income") (transactions db)))) in
  let total_expense :=
    total_or_zero (sql_sum (map t_amount (filter (has_type "expense") (transactions db)))) in
  (total_income - total_expense)%Q.

(** Truth value of an optional date argument in [if start_date or end_date]:
    [None] and the empty string are false. *)
Definition truthy (d : option date_value) : bool :=
  match d with
  | None => false
  | Some (DateStr s) => negb (String.eqb s "")
  | Some (DateObj _) => true
  end.

Definition bound_of (env : environment) (d : option date_value) : string :=
  match d with
  | Some v => bound_text env v
  | None => ""
  end.

(** The date condition the three aggregate queries append to their WHERE
    clause: BETWEEN with both bounds, [>=] with a start only, [<=] with an
    end only, nothing without bounds. *)
Definition date_condition (env : environment) (start_date end_date : option date_value)
    (t : transaction) : bool :=
  if truthy start_date || truthy end_date then
    if truthy start_date && truthy end_date then
      between (bound_of env start_date) (bound_of env end_date) t
    else if truthy start_date then
      String.leb (bound_of env start_date) (t_date t)
    else
      String.leb (t_date t) (bound_of env end_date)
  else true.

(** *** Totals by category *)

Definition category_key : Type := (Z * string * string)%type.

Definition category_key_dec (a b : category_key) : {a = b} + {a <> b}.
Proof.
  decide equality; [apply string_dec | decide equality; [apply string_dec | apply Z.eq_dec]].
Defined.

(** [COALESCE(c.id, 0), COALESCE(c.name, 'Без категории'),
    COALESCE(c.color, '#607D8B')] of a joined row *)
Definition key_of (db : database) (t : transaction) : category_key :=
  match joined_category db t with
  | Some c => (c_id c, c_name c, c_color c)
  | None => (0%Z, uncategorized_name, default_color)
  end.

Record category_total := mkCategoryTotal {
  category_id : Z;
  category_name : string;
  category_color : string;
  total : Q
}.

Definition in_group (db : database) (k : category_key) (t : transaction) : bool :=
  if category_key_dec (key_of db t) k then true else false.

(** [ORDER BY total DESC] *)
Definition total_desc (a b : category_total) : bool := Qle_bool (total b) (total a).

(** The query shared by [get_expenses_by_category] and
    [get_income_by_category], which differ in the type literal only. *)
Definition sum_by_category (env : environment) (db : database) (transaction_type : string)
    (start_date end_date : option date_value) : list category_total :=
  let rows := filter (fun t => has_type transaction_type t
                               && date_condition env start_date end_date t)
                     (transactions db) in
  let groups := nodup category_key_dec (map (key_of db) rows) in
  sort_by total_desc
    (map (fun k : category_key =>
            let '(id, name, color) := k in
            mkCategoryTotal id name color
              (total_or_zero (sql_sum (map t_amount (filter (in_group db k) rows)))))
         groups).

Definition get_expenses_by_category (env : environment) (db : database)
    (start_date end_date : option date_value) : list category_total :=
  sum_by_category env db "expense" start_date end_date.


(** *** Totals by month *)

(** One row of [SELECT strftime('%Y-%m', t.date) as month, t.type,
    SUM(t.amount) as total ... GROUP BY strftime('%Y-%m', t.date), t.type]. *)
Record month_row := mkMonthRow {
  mr_month : option string;
  mr_type : string;
  mr_total : Q
}.

Definition month_key : Type := (option string * string)%type.

Definition month_key_dec (a b : month_key) : {a = b} + {a <> b}.
Proof.
  decide equality; [apply string_dec | decide equality; apply string_dec].
Defined.

Definition month_key_of (env : environment) (t : transaction) : month_key :=
  (sqlite_strftime_ym env (t_date t), t_type t).

Definition in_month_group (env : environment) (k : month_key) (t : transaction) : bool :=
  if month_key_dec (month_key_of env t) k then true else false.

(** [ORDER BY month ASC]; SQLite puts NULL before every text. *)
Definition month_asc (a b : month_row) : bool :=
  match mr_month a, mr_month b with
  | None, _ => true
  | Some _, None => false
  | Some x, Some y => String.leb x y
  end.

Definition month_rows (env : environment) (db : database)
    (start_date end_date : option date_value) : list month_row :=
  let rows := filter (date_condition env start_date end_date) (transactions db) in
  let groups := nodup month_key_dec (map (month_key_of env) rows) in
  sort_by month_asc
    (map (fun k : month_key =>
            mkMonthRow (fst k) (snd k)
              (total_or_zero
                 (sql_sum (map t_amount (filter (in_month_group env k) rows)))))
         groups).

(** A value held under the ['month'] key of a month dictionary. *)
Inductive pyvalue :=
  | PyNone
  | PyStr (s : string)
  | PyNum (q : Q).

(** The dictionary of one month: its four keys, and whatever other key a
    row's type has added. *)
Record month_record := mkMonthRecord {
  month : pyvalue;
  income : Q;
  expense : Q;
  balance : Q;
  other : list (string * Q)
}.

Definition month_value (m : option string) : pyvalue :=
  match m with
  | Some s => PyStr s
  | None => PyNone
  end.

(** [{'month': month, 'income': 0, 'expense': 0, 'balance': 0}] *)
Definition new_month_record (m : option string) : month_record :=
  mkMonthRecord (month_value m) 0 0 0 [].

Fixpoint set_other (key : string) (v : Q) (l : list (string * Q)) : list (string * Q) :=
  match l with
  | [] => [(key, v)]
  | (k, w) :: rest =>
      if String.eqb k key then (k, v) :: rest else (k, w) :: set_other key v rest
  end.

(** [record[transaction_type] = total] *)
Definition set_item (r : month_record) (key : string) (v : Q) : month_record :=
  if String.eqb key "month" then
    mkMonthRecord (PyNum v) (income r) (expense r) (balance r) (other r)
  else if String.eqb key "income" then
    mkMonthRecord (month r) v (expense r) (balance r) (other r)
  else if String.eqb key "expense" then
    mkMonthRecord (month r) (income r) v (balance r) (other r)
  else if String.eqb key "balance" then
    mkMonthRecord (month r) (income r) (expense r) v (other r)
  else
    mkMonthRecord (month r) (income r) (expense r) (balance r) (set_other key v (other r)).

(** [record['balance'] = record['income'] - record['expense']] *)
Definition update_balance (r : month_record) : month_record :=
  mkMonthRecord (month r) (income r) (expense r) (income r - expense r)%Q (other r).

(** [monthly_data]: a Python dict keyed by the row's month, in insertion
    order. *)
Definition month_dict : Type := list (option string * month_record).

Definition same_month (a b : option string) : bool :=
  match a, b with
  | None, None => true
  | Some x, Some y => String.eqb x y
  | _, _ => false
  end.

Definition dict_mem (m : option string) (d : month_dict) : bool :=
  existsb (fun e => same_month (fst e) m) d.

Definition dict_update (m : option string) (f : month_record -> month_record)
    (d : month_dict) : month_dict :=
  map (fun e => if same_month (fst e) m then (fst e, f (snd e)) else e) d.

(** The body of the loop over the fetched rows. *)
Definition fold_month_row (monthly_data : month_dict) (row : month_row) : month_dict :=
  let d := if dict_mem (mr_month row) monthly_data
           then monthly_data
           else monthly_data ++ [(mr_month row, new_month_record (mr_month row))] in
  dict_update (mr_month row)
    (fun r => update_balance (set_item r (mr_type row) (mr_total row))) d.

Definition is_str (v : pyvalue) : bool :=
  match v with PyStr _ => true | _ => false end.

Definition is_num (v : pyvalue) : bool :=
  match v with PyNum _ => true | _ => false end.

Definition month_le (a b : month_record) : bool :=
  match month a, month b with
  | PyStr x, PyStr y => String.leb x y
  | PyNum x, PyNum y => Qle_bool x y
  | _, _ => true
  end.

(** [result.sort(key=lambda x: x['month'])]: keys that are all strings or
    all numbers are ordered; [None] is the [TypeError] Python raises when it
    compares keys of two kinds, or [None] keys.  A list of fewer than two
    records is compared with nothing. *)
Definition sort_by_month (result : list month_record) : option (list month_record) :=
  if Nat.ltb (List.length result) 2 then Some result
  else if forallb (fun r => is_str (month r)) result then Some (sort_by month_le result)
  else if forallb (fun r => is_num (month r)) result then Some (sort_by month_le result)
  else None.

(** [Database.get_transactions_by_month]; [None] when the final sort raises. *)
Definition get_transactions_by_month (env : environment) (db : database)
    (start_date end_date : option date_value) : option (list month_record) :=
  let monthly_data := fold_left fold_month_row (month_rows env db start_date end_date) [] in
  sort_by_month (map snd monthly_data).

(** ** Reports ([ReportGenerator])

    A report is the dictionary the three report builders return.  Number
    formatting ([:.2f], [:.1f], [:02d], integers), month names
    ([datetime(year, month, 1).strftime('%B')], [None] for the [ValueError]
    of a date that does not exist), [len] of the title and the clock are
    taken from the environment of the rendering; a Python exception is a
    result of its own. *)

Inductive pyerror :=
  | ZeroDivisionError
  | KeyError
  | ValueError.

Inductive outcome (A : Type) :=
  | Ok (a : A)
  | Raised (e : pyerror).
Arguments Ok {A} a.
Arguments Raised {A} e.

Definition bind {A B : Type} (x : outcome A) (f : A -> outcome B) : outcome B :=
  match x with
  | Ok a => f a
  | Raised e => Raised e
  end.

Notation "x <- c ;; k" := (bind c (fun x => k))
  (at level 61, c at next level, right associativity).

Record text_format := mkTextFormat {
  fmt_2f : Q -> string;
  fmt_1f : Q -> string;
  fmt_int : Z -> string;
  fmt_02d : Z -> string;
  month_name_of : Z -> Z -> option string;
  rule_of : string -> string;
  generated_at : string
}.

Record month_data := mkMonthData {
  md_month_name : string;
  md_income : Q;
  md_expense : Q;
  md_balance : Q;
  md_transactions_count : Z
}.

(** Which title keys the dictionary holds: ['month'] (monthly report),
    ['start_date'] (period report), or neither (annual report). *)
Inductive report_period :=
  | Monthly (year month : Z) (month_name : string)
  | Period (start_date end_date : string)
  | Annual (year : Z).

Record report := mkReport {
  period : report_period;
  transactions_count : Z;
  total_income : Q;
  total_expense : Q;
  report_balance : Q;
  income_by_category : list (option string * Q);
  expenses_by_category : list (option string * Q);
  monthly_data : option (list (Z * month_data))
}.

(** *** The report builders

    They share their aggregation: totals by type, and one dictionary per
    type from category name to amount, ordered by amount, largest first.
    They differ in how they select the transactions. *)

(** [sum(t['amount'] for t in selected if t['type'] == ty)] *)
Definition py_sum (amounts : list Q) : Q := fold_left Qplus amounts 0%Q.

Definition record_has_type (ty : string) (r : transaction_record) : bool :=
  String.eqb (r_type r) ty.

Definition same_name (a b : option string) : bool :=
  match a, b with
  | None, None => true
  | Some x, Some y => String.eqb x y
  | _, _ => false
  end.

(** [if category not in d: d[category] = 0] then [d[category] += amount] *)
Fixpoint add_amount (name : option string) (amount : Q) (d : list (option string * Q))
  : list (option string * Q) :=
  match d with
  | [] => [(name, (0 + amount)%Q)]
  | (k, v) :: rest =>
      if same_name k name then (k, (v + amount)%Q) :: rest
      else (k, v) :: add_amount name amount rest
  end.

Definition amount_desc (a b : option string * Q) : bool := Qle_bool (snd b) (snd a).

(** The by-category dictionary of one type, after
    [sorted(..., key=lambda item: item[1], reverse=True)]. *)
Definition by_category (ty : string) (selected : list transaction_record)
  : list (option string * Q) :=
  sort_by amount_desc
    (fold_left (fun d r => if record_has_type ty r
                           then add_amount (r_category_name r) (r_amount r) d
                           else d)
               selected []).

Definition total_of_type (ty : string) (selected : list transaction_record) : Q :=
  py_sum (map r_amount (filter (record_has_type ty) selected)).

(** The fields the three reports have in common. *)
Definition summarize (p : report_period) (selected : list transaction_record)
    (months : option (list (Z * month_data))) : report :=
  let total_income := total_of_type "income" selected in
  let total_expense := total_of_type "expense" selected in
  {| period := p;
     transactions_count := Z.of_nat (List.length selected);
     total_income := total_income;
     total_expense := total_expense;
     report_balance := (total_income - total_expense)%Q;
     income_by_category := by_category "income" selected;
     expenses_by_category := by_category "expense" selected;
     monthly_data := months |}.

(** [t['date'].startswith(prefix)] *)
Definition starts_with (prefix : string) (r : transaction_record) : bool :=
  String.prefix prefix (r_date r).

(** [f"{year}-{month:02d}"] *)
Definition year_month (f : text_format) (year month : Z) : string :=
  (fmt_int f year ++ "-" ++ fmt_02d f month)%string.

(** [ReportGenerator.generate_monthly_report] *)
Definition generate_monthly_report (f : text_format)
    (transactions : list transaction_record) (year month : Z) : outcome report :=
  let monthly_transactions := filter (starts_with (year_month f year month)) transactions in
  match month_name_of f year month with
  | None => Raised ValueError
  | Some name => Ok (summarize (Monthly year month name) monthly_transactions None)
  end.

(** The loop of [generate_annual_report] over [range(1, 13)]. *)
Fixpoint annual_months (f : text_format) (annual_transactions : list transaction_record)
    (year : Z) (months : list Z) : outcome (list (Z * month_data)) :=
  match months with
  | [] => Ok []
  | month :: rest =>
      let monthly_transactions :=
        filter (starts_with (year_month f year month)) annual_transactions in
      let month_income := total_of_type "income" monthly_transactions in
      let month_expense := total_of_type "expense" monthly_transactions in
      match month_name_of f year month with
      | None => Raised ValueError
      | Some name =>
          tail <- annual_months f annual_transactions year rest ;;
          Ok ((month,
               mkMonthData name month_income month_expense
                           (month_income - month_expense)%Q
                           (Z.of_nat (List.length monthly_transactions))) :: tail)
      end
  end.

Definition months_1_12 : list Z := [1; 2; 3; 4; 5; 6; 7; 8; 9; 10; 11; 12]%Z.

(** [ReportGenerator.generate_annual_report] *)
Definition generate_annual_report (f : text_format)
    (transactions : list transaction_record) (year : Z) : outcome report :=
  let annual_transactions := filter (starts_with (fmt_int f year)) transactions in
  months <- annual_months f annual_transactions year months_1_12 ;;
  Ok (summarize (Annual year) annual_transactions (Some months)).

(** [start_date <= t['date'] <= end_date] *)
Definition in_period (start_date end_date : string) (r : transaction_record) : bool :=
  String.leb start_date (r_date r) && String.leb (r_date r) end_date.

(** [ReportGenerator.generate_period_report] *)
Definition generate_period_report (env : environment)
    (transactions : list transaction_record) (start_date end_date : date_value)
  : report :=
  let start_date := bound_text env start_date in
  let end_date := bound_text env end_date in
  summarize (Period start_date end_date)
            (filter (in_period start_date end_date) transactions) None.

(** *** The text of a report ([generate_text_report]) *)

(** Python's [a / b] *)
Definition py_div (a b : Q) : outcome Q :=
  if Qeq_bool b 0 then Raised ZeroDivisionError else Ok (a / b)%Q.

(** [amount / total * 100 if total > 0 else 0] *)
Definition percentage (amount grand_total : Q) : outcome Q :=
  if negb (Qle_bool grand_total 0) then
    q <- py_div amount grand_total ;; Ok (q * 100)%Q
  else Ok 0%Q.

Local Open Scope string_scope.

(** A dictionary key in an f-string: a category name, or [None]. *)
Definition py_str (name : option string) : string :=
  match name with
  | Some s => s
  | None => "None"
  end.

Definition category_line (f : text_format) (name : option string) (amount p : Q)
  : string :=
  py_str name ++ ": " ++ fmt_2f f amount ++ " руб. (" ++ fmt_1f f p ++ "%)" ++ "
".

(** The loop over [report['income_by_category'].items()] (or the expense
    dictionary), appending one line per category. *)
Fixpoint category_lines (f : text_format) (grand_total : Q)
    (items : list (option string * Q))
  : outcome string :=
  match items with
  | [] => Ok ""
  | (name, amount) :: rest =>
      p <- percentage amount grand_total ;;
      tail <- category_lines f grand_total rest ;;
      Ok (category_line f name amount p ++ tail)
  end.

Definition category_section (f : text_format) (no_data : string) (grand_total : Q)
    (items : list (option string * Q)) : outcome string :=
  match items with
  | [] => Ok no_data
  | _ => category_lines f grand_total items
  end.

Definition no_income_data : string := "Нет данных о доходах за указанный период.
".

Definition no_expense_data : string := "Нет данных о расходах за указанный период.
".

Definition dashes : string := "--------------------
".

Definition title_of (f : text_format) (r : report) : string :=
  match period r with
  | Monthly y _ name => "Финансовый отчет за " ++ name ++ " " ++ fmt_int f y ++ " года"
  | Period s e => "Финансовый отчет за период с " ++ s ++ " по " ++ e
  | Annual y => "Финансовый отчет за " ++ fmt_int f y ++ " год"
  end.

Definition month_block (f : text_format) (m : month_data) : string :=
  md_month_name m ++ ":
" ++ "  Доход: " ++ fmt_2f f (md_income m) ++ " руб.
" ++ "  Расход: " ++ fmt_2f f (md_expense m) ++ " руб.
" ++ "  Баланс: " ++ fmt_2f f (md_balance m) ++ " руб.
" ++ "  Количество транзакций: " ++ fmt_int f (md_transactions_count m) ++ "

".

(** [report['monthly_data'][month]] for the months of [range(1, 13)] *)
Fixpoint month_blocks (f : text_format) (data : list (Z * month_data)) (months : list Z)
  : outcome string :=
  match months with
  | [] => Ok ""
  | m :: rest =>
      match find (fun e => Z.eqb (fst e) m) data with
      | None => Raised KeyError
      | Some e =>
          tail <- month_blocks f data rest ;;
          Ok (month_block f (snd e) ++ tail)
      end
  end.

Definition generate_text_report (f : text_format) (r : report) : outcome string :=
  let title := title_of f r in
  let head := title ++ "
" ++ rule_of f title ++ "

" ++ "ОБЩАЯ СТАТИСТИКА
" ++ dashes
      ++ "Количество транзакций: " ++ fmt_int f (transactions_count r) ++ "
"     ++ "Общий доход: " ++ fmt_2f f (total_income r) ++ " руб.
"     ++ "Общий расход: " ++ fmt_2f f (total_expense r) ++ " руб.
"     ++ "Баланс: " ++ fmt_2f f (report_balance r) ++ " руб.

" in
  incomes <- category_section f no_income_data
               (total_income r) (income_by_category r) ;;
  expenses <- category_section f no_expense_data
               (total_expense r) (expenses_by_category r) ;;
  months <- match monthly_data r with
            | None => Ok ""
            | Some data =>
                blocks <- month_blocks f data months_1_12 ;;
                Ok ("СТАТИСТИКА ПО МЕСЯЦАМ
" ++ dashes ++ blocks)
            end ;;
  Ok (head ++ "ДОХОДЫ ПО КАТЕГОРИЯМ
" ++ dashes ++ incomes ++ "
"       ++ "РАСХОДЫ ПО КАТЕГОРИЯМ
" ++ dashes ++ expenses ++ "
"       ++ months ++ "
Отчет сформирован: " ++ generated_at f).

Local Open Scope list_scope.

(** ** An environment to run the operations in

    ISO dates with a four-digit year and two-digit month and day, on
    2024-03-15.  The properties below hold in every environment; this one
    evaluates them on examples. *)

Definition digit_of (c : ascii) : option Z :=
  let n := nat_of_ascii c in
  if andb (Nat.leb 48 n) (Nat.leb n 57) then Some (Z.of_nat (n - 48)) else None.

Definition number_of (cs : list ascii) : option Z :=
  fold_left (fun acc c =>
               match acc, digit_of c with
               | Some a, Some d => Some (10 * a + d)%Z
               | _, _ => None
               end) cs (Some 0%Z).

Definition days_in_month (y m : Z) : Z :=
  if Z.eqb m 2 then
    if andb (Z.eqb (y mod 4) 0) (orb (negb (Z.eqb (y mod 100) 0)) (Z.eqb (y mod 400) 0))
    then 29%Z else 28%Z
  else if orb (orb (Z.eqb m 4) (Z.eqb m 6)) (orb (Z.eqb m 9) (Z.eqb m 11)) then 30%Z
  else 31%Z.

Definition iso_strptime (s : string) : option datetime :=
  match list_ascii_of_string s with
  | [y1; y2; y3; y4; d1; m1; m2; d2; a1; a2] =>
      if andb (Ascii.eqb d1 "-") (Ascii.eqb d2 "-") then
        match number_of [y1; y2; y3; y4], number_of [m1; m2], number_of [a1; a2] with
        | Some y, Some m, Some d =>
            if andb (andb (Z.leb 1 y) (andb (Z.leb 1 m) (Z.leb m 12)))
                    (andb (Z.leb 1 d) (Z.leb d (days_in_month y m)))
            then Some (mkDatetime y m d) else None
        | _, _, _ => None
        end
      else None
  | _ => None
  end.

Definition digit_char (n : Z) : ascii := ascii_of_nat (48 + Z.to_nat (n mod 10)).

Definition iso_strftime (d : datetime) : string :=
  string_of_list_ascii
    [ digit_char (dt_year d / 1000); digit_char (dt_year d / 100);
      digit_char (dt_year d / 10); digit_char (dt_year d); "-"%char;
      digit_char (dt_month d / 10); digit_char (dt_month d); "-"%char;
      digit_char (dt_day d / 10); digit_char (dt_day d) ].

Definition iso_month (s : string) : option string :=
  match iso_strptime s with
  | Some _ => Some (substring 0 7 s)
  | None => None
  end.

Definition example_env : environment :=
  mkEnvironment (mkDatetime 2024 3 15) iso_strptime iso_strftime iso_month.

(** The scenario of the specification: categories Salary and Food, then
    three transactions. *)
Definition scenario : database :=
  let db0 := empty_database in
  let db1 := snd (add_category db0 "Salary" "#4CAF50" "income") in
  let db2 := snd (add_category db1 "Food" "#F44336" "expense") in
  let db3 := snd (add_transaction example_env db2 1000 (Some 1%Z) "" "income"
                                  (Some (DateStr "2024-01-05"))) in
  let db4 := snd (add_transaction example_env db3 300 (Some 2%Z) "" "expense"
                                  (Some (DateStr "2024-01-10"))) in
  snd (add_transaction example_env db4 200 (Some 2%Z) "" "expense"
                       (Some (DateStr "2024-02-01"))).

(** A rendering to run [generate_text_report] with: decimals rounded half
    up, the rule as long as the title has characters, a fixed time stamp. *)

Definition show_Z (z : Z) : string := NilZero.string_of_int (Z.to_int z).

Fixpoint pad_left (width : nat) (s : string) : string :=
  match width with
  | O => s
  | S w => if Nat.ltb (String.length s) width then pad_left w ("0" ++ s)%string else s
  end.

Definition fixed (digits : nat) (q : Q) : string :=
  let scale := (10 ^ Z.of_nat digits)%Z in
  let den := Zpos (Qden q) in
  let n := ((2 * Z.abs (Qnum q) * scale + den) / (2 * den))%Z in
  ((if andb (Z.ltb (Qnum q) 0) (negb (Z.eqb n 0)) then "-" else "")
   ++ show_Z (n / scale) ++ "." ++ pad_left digits (show_Z (n mod scale)))%string.

(** Characters of a UTF-8 text: the bytes that do not continue a character. *)
Fixpoint characters (s : string) : nat :=
  match s with
  | EmptyString => O
  | String c rest =>
      let n := nat_of_ascii c in
      if andb (Nat.leb 128 n) (Nat.ltb n 192) then characters rest
      else S (characters rest)
  end.

Fixpoint repeat_string (s : string) (n : nat) : string :=
  match n with
  | O => ""%string
  | S k => (s ++ repeat_string s k)%string
  end.

Definition english_month (year month : Z) : option string :=
  if andb (andb (Z.leb 1 year) (Z.leb year 9999)) (andb (Z.leb 1 month) (Z.leb month 12))
  then nth_error ["January"; "February"; "March"; "April"; "May"; "June"; "July";
                  "August"; "September"; "October"; "November"; "December"]%string
                 (Z.to_nat (month - 1))
  else None.

Definition example_format : text_format :=
  mkTextFormat (fixed 2) (fixed 1) show_Z
               (fun n => pad_left 2 (show_Z n))
               english_month
               (fun title => repeat_string "=" (characters title))
               "2024-03-15 12:00:00".

(** The period report of January over the scenario. *)
Definition january : report :=
  generate_period_report example_env (get_all_transactions scenario)
                         (DateStr "2024-01-01") (DateStr "2024-01-31").

(** The C library behind Python's [strftime] on Linux writes a year below
    1000 without leading zeros, where [strptime] and SQLite want four
    digits.  This environment differs from the one above in that only. *)
Definition unpadded_strftime (d : datetime) : string :=
  (show_Z (dt_year d) ++ "-" ++ pad_left 2 (show_Z (dt_month d)) ++ "-"
   ++ pad_left 2 (show_Z (dt_day d)))%string.

Definition linux_env : environment :=
  mkEnvironment (mkDatetime 2024 3 15) iso_strptime unpadded_strftime iso_month.

(** The scenario after one more expense, dated 5 January of the year 999. *)
Definition scenario_short_year : database :=
  snd (add_transaction linux_env scenario 5 (Some 2%Z) "" "expense"
                       (Some (DateObj (mkDatetime 999 1 5)))).

(** A new database with that expense alone. *)
Definition short_year_alone : database :=
  snd (add_transaction linux_env empty_database 5 None "" "expense"
                       (Some (DateObj (mkDatetime 999 1 5)))).

(** ** Category listing ([Database.get_categories]) *)

(** [ORDER BY name] *)
Definition name_asc (a b : category) : bool := String.leb (c_name a) (c_name b).

(** [ORDER BY type, name] *)
Definition type_name_asc (a b : category) : bool :=
  if String.eqb (c_type a) (c_type b)
  then String.leb (c_name a) (c_name b)
  else String.leb (c_type a) (c_type b).

(** [if category_type:] takes [None] and the empty string as no filter. *)
Definition get_categories (db : database) (category_type : option string)
  : list category :=
  match category_type with
  | Some ty =>
      if String.eqb ty ""
      then sort_by type_name_asc (categories db)
      else sort_by name_asc (filter (fun c => String.eqb (c_type c) ty) (categories db))
  | None => sort_by type_name_asc (categories db)
  end.

(** ** The store of the command-line front end ([simple_cli.SimpleDatabase])

    Its [add_transaction], [get_categories] and [get_balance] are those of
    [Database], line for line; its seeding and its one listing differ. *)

(** [SimpleDatabase._create_default_categories]: both lists are inserted,
    and only into a table without any category. *)
Definition simple_create_default_categories (db : database) : database :=
  if Nat.eqb (List.length (categories db)) 0
  then insert_categories (insert_categories db expense_categories) income_categories
  else db.

Definition simple_init_db (db : database) : database :=
  simple_create_default_categories db.

(** Truth value of an optional string argument. *)
Definition given (s : option string) : bool :=
  match s with
  | Some x => negb (String.eqb x "")
  | None => false
  end.

Definition text_of (s : option string) : string :=
  match s with
  | Some x => x
  | None => ""
  end.

(** The WHERE clause [SimpleDatabase.get_transactions] assembles: one
    condition per argument that is given, joined by AND. *)
Definition simple_conditions (transaction_type start_date end_date : option string)
    (t : transaction) : bool :=
  (if given transaction_type then String.eqb (t_type t) (text_of transaction_type)
   else true)
  && (if given start_date then String.leb (text_of start_date) (t_date t) else true)
  && (if given end_date then String.leb (t_date t) (text_of end_date) else true).

Definition simple_get_transactions (db : database)
    (transaction_type start_date end_date : option string) : list transaction_record :=
  map (row_with_defaults db)
      (select_newest_first db (simple_conditions transaction_type start_date end_date)).

(** ** What the main window computes from the store ([views.MainWindow]) *)

Inductive color :=
  | Red
  | Green.







(** ** Histories

    The operations that write to the store, and the state a history of
    them leaves.  The clock is an argument of the one operation that reads
    it. *)

Inductive operation :=
  | InitDb
  | AddCategory (name color category_type : string)
  | UpdateCategory (category_id : Z) (name color : string)
  | DeleteCategory (category_id : Z)
  | AddTransaction (clock : datetime) (amount : Q) (category_id : option Z)
                   (description transaction_type : string) (date : option date_value)
  | UpdateTransaction (transaction_id : Z) (amount : Q) (category_id : option Z)
                      (description : string) (date : date_value)
                      (transaction_type : string)
  | DeleteTransaction (transaction_id : Z).

Definition at_time (env : environment) (clock : datetime) : environment :=
  mkEnvironment clock (strptime env) (strftime env) (sqlite_strftime_ym env).

Definition run_operation (env : environment) (db : database) (op : operation)
  : database :=
  match op with
  | InitDb => init_db db
  | AddCategory name color ty => snd (add_category db name color ty)
  | UpdateCategory id name color => snd (update_category db id name color)
  | DeleteCategory id => snd (delete_category db id)
  | AddTransaction clock amount cid description ty date =>
      snd (add_transaction (at_time env clock) db amount cid description ty date)
  | UpdateTransaction id amount cid description date ty =>
      snd (update_transaction env db id amount cid description date ty)
  | DeleteTransaction id => snd (delete_transaction db id)
  end.

Definition run (env : environment) (db : database) (history : list operation)
  : database :=
  fold_left (run_operation env) history db.

(** What [add_transaction] and [update_transaction] let into the store: a
    positive amount, one of the two types, a formatted date. *)
Definition stored_well (env : environment) (t : transaction) : Prop :=
  (0 < t_amount t)%Q
  /\ valid_type (t_type t) = true
  /\ exists d, t_date t = strftime env d.

Definition well_stored (env : environment) (db : database) : Prop :=
  Forall (stored_well env) (transactions db).

(** ** Notions the properties are stated with *)

(** The date [update_transaction] stores, when it accepts the argument. *)
Definition update_date (env : environment) (date : date_value) : option datetime :=
  match date with
  | DateStr s => strptime env s
  | DateObj d => Some d
  end.

Definition pyvalue_dec (a b : pyvalue) : {a = b} + {a <> b}.
Proof.
  decide equality; [apply string_dec|].
  decide equality; [apply Pos.eq_dec | apply Z.eq_dec].
Defined.

(** The ['month'] value of the record a transaction is counted in. *)
Definition month_of (env : environment) (t : transaction) : pyvalue :=
  month_value (sqlite_strftime_ym env (t_date t)).

(** The (name, color, type) of a category row. *)
Definition triple_of (c : category) : string * string * string :=
  (c_name c, c_color c, c_type c).

(** The ids of both tables increase along the rows: the primary keys are
    distinct and the rows are in rowid order. *)
Definition ids_increasing (db : database) : Prop :=
  StronglySorted Z.lt (map c_id (categories db))
  /\ StronglySorted Z.lt (map t_id (transactions db)).


(** A transaction row with a NULL [category_id]. *)
Definition has_no_category (t : transaction) : bool :=
  match t_category_id t with
  | None => true
  | Some _ => false
  end.

(** The sum of a list of amounts, 0 for the empty list. *)
Fixpoint Qsum (l : list Q) : Q :=
  match l with
  | [] => 0%Q
  | a :: rest => (a + Qsum rest)%Q
  end.




(** The percentage in the words of the specification: the category total
    divided by the grand total, times 100, or 0 if the grand total is 0. *)
Definition spec_percentage (amount grand_total : Q) : Q :=
  if Qeq_bool grand_total 0 then 0%Q else (amount / grand_total * 100)%Q.

(** The category lines printed with that percentage. *)
Definition spec_lines (f : text_format) (grand_total : Q)
    (items : list (option string * Q)) : string :=
  fold_right (fun item tail =>
                (category_line f (fst item) (snd item)
                               (spec_percentage (snd item) grand_total) ++ tail)%string)
             ""%string items.

(** The percentage the rendering does print: [amount / total * 100] for a
    grand total above 0, and 0 for every other grand total. *)
Definition printed_percentage (amount grand_total : Q) : Q :=
  if Qle_bool grand_total 0 then 0%Q else (amount / grand_total * 100)%Q.

(** The category lines, each with the percentage [pct] gives its amount. *)
Definition lines_with (pct : Q -> Q -> Q) (f : text_format) (grand_total : Q)
    (items : list (option string * Q)) : string :=
  fold_right (fun item tail =>
                (category_line f (fst item) (snd item) (pct (snd item) grand_total)
                 ++ tail)%string)
             ""%string items.

Definition section_with (pct : Q -> Q -> Q) (f : text_format) (no_data : string)
    (grand_total : Q) (items : list (option string * Q)) : string :=
  match items with
  | [] => no_data
  | _ => lines_with pct f grand_total items
  end.

(** The part of the text about the months: empty without monthly data. *)
Definition months_section (f : text_format) (r : report) : outcome string :=
  match monthly_data r with
  | None => Ok ""%string
  | Some data =>
      blocks <- month_blocks f data months_1_12 ;;
      Ok ("СТАТИСТИКА ПО МЕСЯЦАМ
" ++ dashes ++ blocks)%string
  end.

(** The whole text of a report, around the text of its months, when each
    category line carries the percentage [pct] gives. *)
Definition text_with (pct : Q -> Q -> Q) (f : text_format) (r : report)
    (months : string) : string :=
  ((title_of f r ++ "
" ++ rule_of f (title_of f r) ++ "

" ++ "ОБЩАЯ СТАТИСТИКА
" ++ dashes
   ++ "Количество транзакций: " ++ fmt_int f (transactions_count r) ++ "
"  ++ "Общий доход: " ++ fmt_2f f (total_income r) ++ " руб.
"  ++ "Общий расход: " ++ fmt_2f f (total_expense r) ++ " руб.
"  ++ "Баланс: " ++ fmt_2f f (report_balance r) ++ " руб.

") ++ "ДОХОДЫ ПО КАТЕГОРИЯМ
" ++ dashes
   ++ section_with pct f no_income_data (total_income r) (income_by_category r) ++ "
"  ++ "РАСХОДЫ ПО КАТЕГОРИЯМ
" ++ dashes
   ++ section_with pct f no_expense_data (total_expense r) (expenses_by_category r) ++ "
"  ++ months ++ "
Отчет сформирован: " ++ generated_at f)%string.

(** A period report over an income of 5 and an income of -15: its total
    income is -10. *)
Definition overdrawn : report :=
  generate_period_report example_env
    [mkRecord 1 5 None (Some "Salary") None "2024-01-05" "" "income";
     mkRecord 2 (-15) None (Some "Refund") None "2024-01-10" "" "income"]%string
    (DateStr "2024-01-01") (DateStr "2024-01-31").

(** The dictionary [monthly_data] holds for a month, if any. *)
Definition dict_get (m : option string) (d : month_dict) : option month_record :=
  option_map snd (find (fun e => same_month (fst e) m) d).

(** What the loop does to the dictionary of one month. *)
Definition apply_row (row : month_row) (r : month_record) : month_record :=
  update_balance (set_item r (mr_type row) (mr_total row)).

(** One row of the loop, seen from the dictionary of month [m]. *)
Definition month_step (m : option string) (acc : option month_record) (row : month_row)
  : option month_record :=
  if same_month (mr_month row) m then
    Some (apply_row row match acc with
                        | Some r => r
                        | None => new_month_record (mr_month row)
                        end)
  else acc.

(** The total of the last row of a (month, type) pair, 0 without one. *)
Definition last_total (rows : list month_row) (m : option string) (ty : string) : Q :=
  fold_left (fun acc row =>
               if same_month (mr_month row) m && String.eqb (mr_type row) ty
               then mr_total row else acc)
            rows 0%Q.

(** The month of a record whose ['month'] is a string. *)
Definition month_text (r : month_record) : string :=
  match month r with
  | PyStr s => s
  | _ => ""
  end.

(** The (month, type) group a fetched row stands for. *)
Definition row_key (row : month_row) : month_key := (mr_month row, mr_type row).

(** Months do not decrease along the list. *)
Definition ascending_months (l : list month_record) : Prop :=
  StronglySorted (fun a b => String.leb (month_text a) (month_text b) = true) l.

(** Neither grand total of a report is negative. *)
Definition totals_nonneg (r : report) : Prop :=
  (0 <= total_income r)%Q /\ (0 <= total_expense r)%Q.

(** The database of the scenario after one more expense, recorded under
    category 99, which does not exist. *)
Definition scenario_dangling : database :=
  snd (add_transaction example_env scenario 10 (Some 99%Z) "gift" "expense"
                       (Some (DateStr "2024-02-20"))).

(** The amounts [get_balance] adds for a type, in the order of the rows. *)
Definition amounts_of (ty : string) (db : database) : list Q :=
  map t_amount (filter (has_type ty) (transactions db)).

(** The transactions a key of a by-category dictionary of a report stands
    for: those of the type whose category name is the key. *)
Definition named (ty : string) (name : option string) (r : transaction_record) : bool :=
  record_has_type ty r && same_name (r_category_name r) name.

(** The by-category dictionary of a report before it is sorted. *)
Definition grouped (ty : string) (selected : list transaction_record)
  : list (option string * Q) :=
  fold_left (fun d r => if record_has_type ty r
                        then add_amount (r_category_name r) (r_amount r) d
                        else d)
            selected [].

(** [d.get(name)] on a by-category dictionary. *)
Definition amount_under (name : option string) (d : list (option string * Q))
  : option Q :=
  option_map snd (find (fun e => same_name (fst e) name) d).

(** A by-category dictionary accounts for the selected transactions of a
    type: one key per category name that occurs, each with the amounts
    under that name added in the order of the list, starting from 0, and the
    largest amount first. *)
Definition breakdown_of (ty : string) (selected : list transaction_record)
    (items : list (option string * Q)) : Prop :=
  NoDup (map fst items)
  /\ StronglySorted (fun a b => (snd b <= snd a)%Q) items
  /\ (forall name, In name (map fst items) <->
        exists r, In r selected /\ r_type r = ty /\ r_category_name r = name)
  /\ (forall name amount, In (name, amount) items ->
        amount = py_sum (map r_amount (filter (named ty name) selected))).

(** A report accounts for the transactions it selected. *)
Definition accounts_for (selected : list transaction_record) (r : report) : Prop :=
  transactions_count r = Z.of_nat (List.length selected)
  /\ total_income r = py_sum (map r_amount (filter (record_has_type "income") selected))
  /\ total_expense r = py_sum (map r_amount (filter (record_has_type "expense") selected))
  /\ report_balance r = (total_income r - total_expense r)%Q
  /\ breakdown_of "income" selected (income_by_category r)
  /\ breakdown_of "expense" selected (expenses_by_category r).

(** ** Entity models ([models.Transaction], [models.Category])

    The two classes are built from, and turned back into, the dictionaries
    the store returns: a [transaction_record] or a [category].  A
    [Transaction] that was not read from the store has no id, so the id of
    the object and of the dictionary [to_dict] returns is optional. *)

Record Transaction := mkTransactionObject {
  tr_id : option Z;
  tr_amount : Q;
  tr_category_id : option Z;
  tr_description : string;
  tr_type : string;
  tr_date : datetime;
  tr_category_name : option string;
  tr_category_color : option string
}.

(** [Transaction.__init__]: without a date the object is dated now; a
    string is parsed, and dated now when it does not parse. *)
Definition Transaction_init (env : environment) (amount : Q) (category_id : option Z)
    (description transaction_type : string) (date : option date_value)
    (transaction_id : option Z) : Transaction :=
  {| tr_id := transaction_id;
     tr_amount := amount;
     tr_category_id := category_id;
     tr_description := description;
     tr_type := transaction_type;
     tr_date := match date with
                | None => now env
                | Some (DateStr s) =>
                    match strptime env s with
                    | Some d => d
                    | None => now env
                    end
                | Some (DateObj d) => d
                end;
     tr_category_name := None;
     tr_category_color := None |}.

(** [Transaction.from_dict] on a dictionary of the store. *)
Definition Transaction_from_dict (env : environment) (data : transaction_record)
  : Transaction :=
  let transaction :=
    Transaction_init env (r_amount data) (r_category_id data) (r_description data)
                     (r_type data) (Some (DateStr (r_date data))) (Some (r_id data)) in
  {| tr_id := tr_id transaction;
     tr_amount := tr_amount transaction;
     tr_category_id := tr_category_id transaction;
     tr_description := tr_description transaction;
     tr_type := tr_type transaction;
     tr_date := tr_date transaction;
     tr_category_name := r_category_name data;
     tr_category_color := r_category_color data |}.

(** The dictionary [Transaction.to_dict] returns. *)
Record transaction_dict := mkTransactionDict {
  td_id : option Z;
  td_amount : Q;
  td_category_id : option Z;
  td_category_name : option string;
  td_category_color : option string;
  td_description : string;
  td_type : string;
  td_date : string
}.

Definition Transaction_to_dict (env : environment) (self : Transaction)
  : transaction_dict :=
  {| td_id := tr_id self;
     td_amount := tr_amount self;
     td_category_id := tr_category_id self;
     td_category_name := tr_category_name self;
     td_category_color := tr_category_color self;
     td_description := tr_description self;
     td_type := tr_type self;
     td_date := strftime env (tr_date self) |}.

Record Category := mkCategoryObject {
  cat_id : option Z;
  cat_name : string;
  cat_color : string;
  cat_type : string
}.

(** [Category.from_dict] on a dictionary of the store. *)
Definition Category_from_dict (data : category) : Category :=
  {| cat_id := Some (c_id data);
     cat_name := c_name data;
     cat_color := c_color data;
     cat_type := c_type data |}.

(** The dictionary [Category.to_dict] returns: id, name, color, type. *)
Definition Category_to_dict (self : Category) : option Z * string * string * string :=
  (cat_id self, cat_name self, cat_color self, cat_type self).

(** A dictionary of the store as a dictionary [to_dict] returns. *)
Definition as_dict (r : transaction_record) : transaction_dict :=
  {| td_id := Some (r_id r);
     td_amount := r_amount r;
     td_category_id := r_category_id r;
     td_category_name := r_category_name r;
     td_category_color := r_category_color r;
     td_description := r_description r;
     td_type := r_type r;
     td_date := r_date r |}.

Definition with_date (date : string) (d : transaction_dict) : transaction_dict :=
  {| td_id := td_id d;
     td_amount := td_amount d;
     td_category_id := td_category_id d;
     td_category_name := td_category_name d;
     td_category_color := td_category_color d;
     td_description := td_description d;
     td_type := td_type d;
     td_date := date |}.

(** ** Settings ([settings.Settings])

    A dictionary is an object: [DEFAULT_SETTINGS.copy()] makes a new outer
    dictionary that holds the same section dictionaries as the class
    attribute.  So dictionaries live on a heap and a value refers to one by
    its address.  A list is never looked into by this class and is kept as
    the document it was read from.  Writing the settings file, and the
    result of [save_settings], are outside the model; what a file holds when
    it is read is an argument. *)

Module Settings.

Inductive scalar :=
  | SNull
  | SBool (b : bool)
  | SNumber (q : Q)
  | SString (s : string).

#[local] Set Warnings "-register-all".

(** A JSON document. *)
Inductive json :=
  | JScalar (v : scalar)
  | JArray (items : list json)
  | JObject (members : list (string * json)).

Inductive value :=
  | Scalar (v : scalar)
  | Array (items : list json)
  | DictRef (address : nat).

(** A dictionary, in insertion order. *)
Definition pydict := list (string * value).

Definition heap := list pydict.

(** [d.get(key)], and [key in d] *)
Fixpoint getitem (key : string) (d : pydict) : option value :=
  match d with
  | [] => None
  | (k, v) :: rest => if String.eqb k key then Some v else getitem key rest
  end.

(** [d[key] = v] *)
Fixpoint setitem (key : string) (v : value) (d : pydict) : pydict :=
  match d with
  | [] => [(key, v)]
  | (k, w) :: rest =>
      if String.eqb k key then (k, v) :: rest else (k, w) :: setitem key v rest
  end.

(** The dictionary at an address. *)
Definition deref (h : heap) (a : nat) : pydict := nth a h [].

(** The heap after the dictionary at an address was mutated. *)
Fixpoint store (a : nat) (d : pydict) (h : heap) : heap :=
  match h, a with
  | [], _ => []
  | _ :: rest, O => d :: rest
  | x :: rest, S n => x :: store n d rest
  end.

(** A new dictionary object. *)
Definition allocate (d : pydict) (h : heap) : nat * heap :=
  (List.length h, h ++ [d]).

(** [d.copy()]: a new dictionary with the same values. *)
Definition copy (h : heap) (a : nat) : nat * heap := allocate (deref h a) h.

(** The heap once the class is defined: the three section dictionaries and
    the dictionary [DEFAULT_SETTINGS] that holds them. *)
Definition module_heap : heap :=
  [ [("path", Scalar (SString "finance.db"))];
    [("theme", Scalar (SString "Fusion")); ("language", Scalar (SString "ru_RU"))];
    [("default_period", Scalar (SString "month"))];
    [("database", DictRef 0); ("interface", DictRef 1); ("analytics", DictRef 2)] ]%string.

Definition DEFAULT_SETTINGS : nat := 3.

(** The members of a JSON object, loaded in order into one dictionary; a
    repeated name keeps its last value. *)
Fixpoint load_members (load : json -> heap -> value * heap)
    (members : list (string * json)) (d : pydict) (h : heap) : pydict * heap :=
  match members with
  | [] => (d, h)
  | (k, j) :: rest =>
      let (v, h1) := load j h in
      load_members load rest (setitem k v d) h1
  end.

(** [json.load]: every object of the document is a new dictionary. *)
Fixpoint json_load (j : json) (h : heap) {struct j} : value * heap :=
  match j with
  | JScalar v => (Scalar v, h)
  | JArray items => (Array items, h)
  | JObject members =>
      let (d, h1) := load_members json_load members [] h in
      let (a, h2) := allocate d h1 in
      (DictRef a, h2)
  end.

Inductive file_state :=
  | Missing
  | Unreadable
  | Holds (document : json).

(** [Settings.load_settings]: the value of [self.settings]. *)
Definition load_settings (file : file_state) (h : heap) : value * heap :=
  match file with
  | Holds document => json_load document h
  | Unreadable | Missing =>
      let (a, h1) := copy h DEFAULT_SETTINGS in (DictRef a, h1)
  end.

Inductive exn :=
  | AttributeError
  | TypeError.

Inductive attempt (A : Type) :=
  | Returns (a : A)
  | Throws (e : exn).
Arguments Returns {A} a.
Arguments Throws {A} e.

(** [Settings.get]: [self.settings.get(section, {}).get(key, default)] *)
Definition get (h : heap) (settings : value) (section key : string) (default : value)
  : attempt value :=
  match settings with
  | DictRef a =>
      match getitem section (deref h a) with
      | None => Returns default
      | Some (DictRef b) =>
          match getitem key (deref h b) with
          | Some v => Returns v
          | None => Returns default
          end
      | Some _ => Throws AttributeError
      end
  | _ => Throws AttributeError
  end.

(** [Settings.set]; it returns [True], so the result is the heap. *)
Definition set (h : heap) (settings : value) (section key : string) (v : value)
  : attempt heap :=
  match settings with
  | DictRef a =>
      let h1 :=
        match getitem section (deref h a) with
        | None =>
            let (b, h') := allocate [] h in
            store a (setitem section (DictRef b) (deref h' a)) h'
        | Some _ => h
        end in
      match getitem section (deref h1 a) with
      | Some (DictRef b) => Returns (store b (setitem key v (deref h1 b)) h1)
      | _ => Throws TypeError
      end
  | _ => Throws TypeError
  end.

(** [Settings.reset_to_defaults]: the new value of [self.settings]. *)
Definition reset_to_defaults (h : heap) : value * heap :=
  let (a, h1) := copy h DEFAULT_SETTINGS in (DictRef a, h1).

(** Calls of [set], one after the other. *)
Fixpoint set_each (h : heap) (settings : value)
    (updates : list (string * string * value)) : attempt heap :=
  match updates with
  | [] => Returns h
  | (section, key, v) :: rest =>
      match set h settings section key v with
      | Returns h1 => set_each h1 settings rest
      | Throws e => Throws e
      end
  end.

(** The dictionaries a dictionary holds are on the heap. *)
Definition within (h : heap) (d : pydict) : bool :=
  forallb (fun e => match snd e with
                    | DictRef b => Nat.ltb b (List.length h)
                    | _ => true
                    end) d.

End Settings.

(** * Properties *)

Example scenario_balance : get_balance scenario = 500%Q.
Proof. reflexivity. Qed.

(** ** Categories: one row per (name, type) *)

Lemma find_app_l {A : Type} (f : A -> bool) (l l' : list A) (x : A) :
  find f l = Some x -> find f (l ++ l') = Some x.
Proof.
  induction l as [|a l IH]; simpl; [discriminate|].
  destruct (f a); auto.
Qed.

Lemma find_app_r {A : Type} (f : A -> bool) (l l' : list A) :
  find f l = None -> find f (l ++ l') = find f l'.
Proof.
  induction l as [|a l IH]; simpl; [reflexivity|].
  destruct (f a); [discriminate | auto].
Qed.

Lemma find_none_count (name ty : string) (cats : list category) :
  find (same_name_type name ty) cats = None -> count_name_type name ty cats = 0%nat.
Proof.
  unfold count_name_type.
  induction cats as [|c cats IH]; simpl; [reflexivity|].
  destruct (same_name_type name ty c); [discriminate | auto].
Qed.

Lemma same_name_type_iff (name ty : string) (c : category) :
  same_name_type name ty c = true <-> c_name c = name /\ c_type c = ty.
Proof.
  unfold same_name_type.
  rewrite andb_true_iff, !String.eqb_eq. reflexivity.
Qed.

(** The row [add_category] answers with is, afterwards, the first row of
    its pair. *)
Lemma add_category_first (db : database) (name color ty : string) :
  exists e,
    find (same_name_type name ty) (categories (snd (add_category db name color ty))) = Some e
    /\ fst (add_category db name color ty) = Some (c_id e).
Proof.
  unfold add_category.
  destruct (find (same_name_type name ty) (categories db)) as [e|] eqn:F.
  - exists e. simpl. auto.
  - simpl. exists (mkCategory (new_rowid (map c_id (categories db))) name color ty).
    split; [|reflexivity].
    rewrite (find_app_r _ _ _ F). simpl.
    unfold same_name_type. simpl. rewrite !String.eqb_refl. reflexivity.
Qed.

(** A later [add_category], of any pair, leaves the first row of a pair in
    place. *)
Lemma add_category_keeps_first (db : database) (name ty n c t : string) (e : category) :
  find (same_name_type name ty) (categories db) = Some e ->
  find (same_name_type name ty) (categories (snd (add_category db n c t))) = Some e.
Proof.
  intros F. unfold add_category.
  destruct (find (same_name_type n t) (categories db)); simpl; auto.
  now apply find_app_l.
Qed.

Lemma add_category_count (db : database) (n c t name ty : string) :
  (count_name_type name ty (categories (snd (add_category db n c t)))
   <= Nat.max 1 (count_name_type name ty (categories db)))%nat.
Proof.
  unfold add_category.
  destruct (find (same_name_type n t) (categories db)) as [e|] eqn:F; cbn [snd].
  { apply Nat.le_max_r. }
  cbn [insert_category snd categories].
  unfold count_name_type. rewrite filter_app, length_app. cbn [filter].
  destruct (same_name_type name ty (mkCategory _ n c t)) eqn:S; cbn [List.length]; [|lia].
  apply same_name_type_iff in S. cbn [c_name c_type] in S. destruct S as [-> ->].
  apply find_none_count in F. unfold count_name_type in F. rewrite F. lia.
Qed.

Lemma add_categories_count (calls : list (string * string * string)) :
  forall (db : database) (name ty : string),
    (count_name_type name ty (categories (snd (add_categories db calls)))
     <= Nat.max 1 (count_name_type name ty (categories db)))%nat.
Proof.
  induction calls as [|[[n c] t] calls IH]; intros db name ty; cbn [add_categories].
  { apply Nat.le_max_r. }
  pose proof (add_category_count db n c t name ty) as H1.
  destruct (add_category db n c t) as [r db1]. cbn [snd] in H1.
  specialize (IH db1 name ty).
  destruct (add_categories db1 calls) as [rs db2]. cbn [snd] in *. lia.
Qed.

Lemma add_categories_length (calls : list (string * string * string)) :
  forall db, List.length (fst (add_categories db calls)) = List.length calls.
Proof.
  induction calls as [|[[n c] t] calls IH]; intros db; simpl; [reflexivity|].
  destruct (add_category db n c t) as [r db1].
  specialize (IH db1). destruct (add_categories db1 calls). simpl in *. lia.
Qed.

(** Once a pair has a first row, every call for that pair in a run answers
    with that row's id. *)
Lemma add_categories_answer (calls : list (string * string * string)) :
  forall (db : database) (name ty : string) (e : category) (j : nat) (color : string),
    find (same_name_type name ty) (categories db) = Some e ->
    nth_error calls j = Some (name, color, ty) ->
    nth_error (fst (add_categories db calls)) j = Some (Some (c_id e)).
Proof.
  induction calls as [|[[n c] t] calls IH]; intros db name ty e j color F Hj.
  - destruct j; discriminate.
  - simpl.
    pose proof (add_category_keeps_first db name ty n c t e F) as K.
    destruct j as [|j]; simpl in Hj.
    + injection Hj as -> -> ->.
      unfold add_category in *. rewrite F in *.
      destruct (add_categories db calls). reflexivity.
    + destruct (add_category db n c t) as [r db1]. simpl in K.
      specialize (IH db1 name ty e j color K Hj).
      destruct (add_categories db1 calls). simpl in *. exact IH.
Qed.

Lemma add_categories_same_answer (calls : list (string * string * string)) :
  forall (db : database) (i j : nat) (name ci cj ty : string),
    (i <= j)%nat ->
    nth_error calls i = Some (name, ci, ty) ->
    nth_error calls j = Some (name, cj, ty) ->
    exists id,
      nth_error (fst (add_categories db calls)) i = Some (Some id)
      /\ nth_error (fst (add_categories db calls)) j = Some (Some id).
Proof.
  induction calls as [|[[n c] t] calls IH]; intros db i j name ci cj ty Hij Hi Hj.
  - destruct i; discriminate.
  - destruct i as [|i].
    + simpl in Hi. injection Hi as -> -> ->.
      destruct (add_category_first db name ci ty) as [e [F R]].
      exists (c_id e). simpl.
      destruct j as [|j].
      * destruct (add_category db name ci ty) as [r db1]. simpl in *.
        destruct (add_categories db1 calls). simpl. now rewrite R.
      * simpl in Hj.
        pose proof (add_categories_answer calls _ name ty e j cj F Hj) as A.
        destruct (add_category db name ci ty) as [r db1]. simpl in *.
        destruct (add_categories db1 calls). simpl in *. now rewrite R.
    + destruct j as [|j]; [lia|]. simpl in Hi, Hj. simpl.
      destruct (add_category db n c t) as [r db1].
      destruct (IH db1 i j name ci cj ty ltac:(lia) Hi Hj) as [id [A B]].
      exists id. destruct (add_categories db1 calls). simpl in *. auto.
Qed.

Lemma count_le_1_of_NoDup (cats : list category) :
  NoDup (map (fun c => (c_name c, c_type c)) cats) -> unique_name_type cats.
Proof.
  intros N name ty. unfold count_name_type.
  induction cats as [|c cats IH]; simpl; [lia|].
  inversion N as [|x l Hx N' E]; subst.
  specialize (IH N').
  destruct (same_name_type name ty c) eqn:S; [|exact IH].
  apply same_name_type_iff in S. destruct S as [Sn St].
  assert (Z0 : filter (same_name_type name ty) cats = []).
  { destruct (filter (same_name_type name ty) cats) as [|d ds] eqn:Fd; [reflexivity|].
    exfalso. apply Hx.
    assert (Hd : In d (filter (same_name_type name ty) cats)) by (rewrite Fd; now left).
    apply filter_In in Hd. destruct Hd as [Hin Hs].
    apply same_name_type_iff in Hs. destruct Hs as [Dn Dt].
    apply in_map_iff. exists d. split; [|exact Hin].
    congruence. }
  rewrite Z0. simpl. lia.
Qed.

Lemma fresh_database_unique : unique_name_type (categories fresh_database).
Proof.
  apply count_le_1_of_NoDup. vm_compute.
  repeat (constructor; [simpl; intuition congruence|]). constructor.
Qed.

(** X3.  [update_category] does not look at the other rows: renaming a
    category to the name of another one of its type succeeds and leaves two
    rows with one (name, type) pair, in a table that had one row per pair. *)
Theorem update_category_duplicates :
  let db := snd (add_category (snd (add_category empty_database "A" "#111111" "expense"))
                              "B" "#222222" "expense") in
  unique_name_type (categories db)
  /\ fst (update_category db 2 "A" "#222222") = true
  /\ count_name_type "A" "expense" (categories (snd (update_category db 2 "A" "#222222")))
     = 2%nat.
Proof.
  cbv zeta. split; [|split; reflexivity].
  apply count_le_1_of_NoDup. vm_compute.
  repeat (constructor; [simpl; intuition congruence|]). constructor.
Qed.

(** C1.  [add_category] answers a pair that already has a row with the id
    of an existing row of that pair and leaves the database as it is.  Over
    any run of [add_category] calls, from any state: no pair gains a second
    row (a pair has at most one row afterwards unless it had more before, so
    at most one from a state with one row per pair, such as a new
    database), and two calls for the same pair get the same id. *)
Theorem add_category_one_row_per_name_type :
  forall (db : database) (calls : list (string * string * string)),
    (forall (name color ty : string) (c : category),
        In c (categories db) -> c_name c = name -> c_type c = ty ->
        exists e, In e (categories db) /\ c_name e = name /\ c_type e = ty
                  /\ add_category db name color ty = (Some (c_id e), db))
    /\ (forall name ty,
          (count_name_type name ty (categories (snd (add_categories db calls)))
           <= Nat.max 1 (count_name_type name ty (categories db)))%nat)
    /\ (unique_name_type (categories db) ->
        unique_name_type (categories (snd (add_categories db calls))))
    /\ unique_name_type (categories (snd (add_categories fresh_database calls)))
    /\ (forall (i j : nat) (name ci cj ty : string),
          nth_error calls i = Some (name, ci, ty) ->
          nth_error calls j = Some (name, cj, ty) ->
          exists id,
            nth_error (fst (add_categories db calls)) i = Some (Some id)
            /\ nth_error (fst (add_categories db calls)) j = Some (Some id)).
Proof.
  intros db calls.
  assert (U : forall d, unique_name_type (categories d) ->
                        unique_name_type (categories (snd (add_categories d calls)))).
  { intros d Hu name ty.
    pose proof (add_categories_count calls d name ty) as H.
    specialize (Hu name ty). lia. }
  repeat split.
  - intros name color ty c Hin Hn Ht.
    destruct (find (same_name_type name ty) (categories db)) as [e|] eqn:F.
    + exists e. apply find_some in F as F'. destruct F' as [He Hs].
      apply same_name_type_iff in Hs. destruct Hs as [En Et].
      repeat split; auto.
      unfold add_category. rewrite F. reflexivity.
    + exfalso. apply (find_none _ _ F) in Hin.
      assert (same_name_type name ty c = true)
        by (apply same_name_type_iff; split; assumption).
      congruence.
  - apply add_categories_count.
  - apply U.
  - apply U, fresh_database_unique.
  - intros i j name ci cj ty Hi Hj.
    destruct (Nat.le_ge_cases i j) as [L|L].
    + eapply add_categories_same_answer; eauto.
    + destruct (add_categories_same_answer calls db j i name cj ci ty L Hj Hi)
        as [id [A B]].
      exists id. split; assumption.
Qed.

Example add_category_twice :
  fst (add_categories fresh_database
         [("Food", "#F44336", "expense"); ("Salary", "#4CAF50", "income");
          ("Food", "#000000", "expense"); ("Food", "#FFFFFF", "income")])
  = [Some 14%Z; Some 15%Z; Some 14%Z; Some 16%Z].
Proof. reflexivity. Qed.

(** ** Sorting *)

Section SortingFacts.
Context {A : Type} (le : A -> A -> bool).

Lemma insert_by_perm (x : A) (l : list A) : Permutation (x :: l) (insert_by le x l).
Proof.
  induction l as [|y l IH]; simpl; [reflexivity|].
  destruct (le x y); [reflexivity|].
  rewrite perm_swap. now constructor.
Qed.

Lemma sort_by_perm (l : list A) : Permutation l (sort_by le l).
Proof.
  induction l as [|x l IH]; simpl; [reflexivity|].
  rewrite <- insert_by_perm. now constructor.
Qed.

Lemma sort_by_In (l : list A) (x : A) : In x (sort_by le l) <-> In x l.
Proof.
  split; apply Permutation_in; [symmetry|]; apply sort_by_perm.
Qed.

Lemma sort_by_length (l : list A) : List.length (sort_by le l) = List.length l.
Proof. symmetry. apply Permutation_length, sort_by_perm. Qed.

Hypothesis le_total : forall a b, le a b = true \/ le b a = true.
Hypothesis le_trans : forall a b c, le a b = true -> le b c = true -> le a c = true.

Lemma insert_by_sorted (x : A) (l : list A) :
  StronglySorted (fun a b => le a b = true) l ->
  StronglySorted (fun a b => le a b = true) (insert_by le x l).
Proof.
  induction l as [|y l IH]; intros S; simpl.
  - constructor; constructor.
  - inversion S as [|y' l' S' F E]; subst.
    destruct (le x y) eqn:L.
    + constructor; [exact S|].
      constructor; [exact L|].
      eapply Forall_impl; [|exact F]. intros z. now apply le_trans.
    + constructor; [now apply IH|].
      apply (Permutation_Forall (insert_by_perm x l)).
      constructor; [|exact F].
      destruct (le_total x y); congruence.
Qed.

Lemma sort_by_sorted (l : list A) :
  StronglySorted (fun a b => le a b = true) (sort_by le l).
Proof.
  induction l as [|x l IH]; simpl; [constructor|].
  now apply insert_by_sorted.
Qed.
End SortingFacts.

(** ** Transactions: validation on add and update *)

Lemma valid_type_iff (ty : string) :
  valid_type ty = true <-> ty = "income" \/ ty = "expense".
Proof.
  unfold valid_type. rewrite orb_true_iff, !String.eqb_eq. reflexivity.
Qed.

Lemma Qle_bool_false_iff (a b : Q) : Qle_bool a b = false <-> (b < a)%Q.
Proof.
  split; intros H.
  - apply Qnot_le_lt. intros L. apply Qle_bool_iff in L. congruence.
  - destruct (Qle_bool a b) eqn:E; [|reflexivity].
    apply Qle_bool_iff in E. exfalso. now apply (Qlt_not_le b a).
Qed.

(** C2.  [add_transaction] with an amount that is not positive, or a type
    other than ['income'] and ['expense'], returns [None] and leaves the
    database, so the transactions table, as it was. *)
Theorem add_transaction_rejects_invalid :
  forall (env : environment) (db : database) (amount : Q) (category_id : option Z)
         (description transaction_type : string) (date : option date_value),
    (amount <= 0)%Q \/ (transaction_type <> "income" /\ transaction_type <> "expense") ->
    add_transaction env db amount category_id description transaction_type date = (None, db)
    /\ transactions (snd (add_transaction env db amount category_id description
                                          transaction_type date)) = transactions db.
Proof.
  intros env db amount cid descr ty date H.
  assert (E : add_transaction env db amount cid descr ty date = (None, db)).
  { unfold add_transaction.
    destruct (valid_type ty) eqn:V; simpl; [|reflexivity].
    destruct H as [H|[H1 H2]].
    - apply Qle_bool_iff in H. now rewrite H.
    - apply valid_type_iff in V. tauto. }
  rewrite E. split; reflexivity.
Qed.

Lemma add_transaction_rejects_invalid_witness :
  add_transaction example_env scenario (-5) (Some 2%Z) "" "expense" None = (None, scenario)
  /\ transactions (snd (add_transaction example_env scenario (-5) (Some 2%Z) ""
                                        "expense" None)) = transactions scenario.
Proof.
  apply add_transaction_rejects_invalid.
  left. unfold Qle. simpl. lia.
Defined.

(** C3.  A date string that does not parse: [add_transaction] (amount and
    type being valid) inserts the row, dated now; [update_transaction]
    returns [False] and leaves the database as it was, whatever the other
    arguments are. *)
Theorem malformed_date_add_defaults_update_rejects :
  forall (env : environment) (db : database) (s : string) (amount : Q)
         (category_id : option Z) (description transaction_type : string),
    strptime env s = None ->
    (0 < amount)%Q ->
    transaction_type = "income" \/ transaction_type = "expense" ->
    add_transaction env db amount category_id description transaction_type
                    (Some (DateStr s))
    = (Some (new_rowid (map t_id (transactions db))),
       {| categories := categories db;
          transactions := transactions db ++
            [mkTransaction (new_rowid (map t_id (transactions db))) amount category_id
                           (strftime env (now env)) description transaction_type] |})
    /\ (forall (transaction_id : Z) (amount' : Q) (category_id' : option Z)
               (description' transaction_type' : string),
          update_transaction env db transaction_id amount' category_id' description'
                             (DateStr s) transaction_type' = (false, db)).
Proof.
  intros env db s amount cid descr ty P A V. split.
  - unfold add_transaction, prepare_date.
    apply valid_type_iff in V. rewrite V. simpl.
    apply Qle_bool_false_iff in A. rewrite A, P. reflexivity.
  - intros tid a' c' d' ty'. unfold update_transaction.
    destruct (valid_type ty'); simpl; [|reflexivity].
    destruct (Qle_bool a' 0); [reflexivity|].
    rewrite P. reflexivity.
Qed.

Lemma malformed_date_witness :
  add_transaction example_env scenario 50 (Some 2%Z) "tea" "expense"
                  (Some (DateStr "2024-13-45"))
  = (Some 4%Z,
     {| categories := categories scenario;
        transactions := transactions scenario ++
          [mkTransaction 4 50 (Some 2%Z) "2024-03-15" "tea" "expense"] |})
  /\ (forall (transaction_id : Z) (amount' : Q) (category_id' : option Z)
             (description' transaction_type' : string),
        update_transaction example_env scenario transaction_id amount' category_id'
                           description' (DateStr "2024-13-45") transaction_type'
        = (false, scenario)).
Proof.
  apply (malformed_date_add_defaults_update_rejects example_env scenario "2024-13-45"
           50 (Some 2%Z) "tea" "expense").
  - reflexivity.
  - reflexivity.
  - right. reflexivity.
Defined.

(** ** Deleting a category *)

Lemma map_id_when_false {A : Type} (p : A -> bool) (g : A -> A) (l : list A) :
  filter p l = [] -> map (fun x => if p x then g x else x) l = l.
Proof.
  induction l as [|x l IH]; simpl; [reflexivity|].
  destruct (p x); [discriminate|]. intros H. now rewrite IH.
Qed.

Lemma ltb_0_length_filter {A : Type} (p : A -> bool) (l : list A) :
  Nat.ltb 0 (List.length (filter p l)) = true <-> exists x, In x l /\ p x = true.
Proof.
  rewrite Nat.ltb_lt. split.
  - destruct (filter p l) as [|x r] eqn:F; simpl; [lia|]. intros _.
    exists x. apply filter_In. rewrite F. now left.
  - intros [x Hx]. apply filter_In in Hx.
    destruct (filter p l); [destruct Hx | simpl; lia].
Qed.

Lemma filter_negb_length {A : Type} (p : A -> bool) (l : list A) :
  (List.length (filter (fun x => negb (p x)) l) + List.length (filter p l)
   = List.length l)%nat.
Proof.
  induction l as [|x l IH]; simpl; [reflexivity|].
  destruct (p x); simpl; lia.
Qed.

Lemma detached_count (category_id : Z) (l : list transaction) :
  List.length (filter has_no_category
                 (map (fun t => if references category_id t then detach t else t) l))
  = (List.length (filter has_no_category l)
     + List.length (filter (references category_id) l))%nat.
Proof.
  induction l as [|t l IH]; [reflexivity|].
  cbn [map filter].
  destruct (references category_id t) eqn:R.
  - assert (N : has_no_category t = false).
    { unfold references in R. unfold has_no_category.
      destruct (t_category_id t); [reflexivity | discriminate]. }
    rewrite N. cbn [has_no_category detach t_category_id List.length]. lia.
  - destruct (has_no_category t); cbn [List.length]; lia.
Qed.

(** C4.  [delete_category] keeps every transaction row, in place: a row
    that referenced the category is the same row with a NULL [category_id],
    any other row is untouched (so the whole table is, when no row
    referenced the category).  No category row with this id is left, the
    other category rows stay, and the result is [True] exactly when a
    category row was removed. *)
Theorem delete_category_detaches :
  forall (db : database) (category_id : Z),
    let n := List.length (filter (references category_id) (transactions db)) in
    let ok := fst (delete_category db category_id) in
    let db' := snd (delete_category db category_id) in
    Forall2 (fun t t' => t' = if references category_id t then detach t else t)
            (transactions db) (transactions db')
    /\ List.length (transactions db') = List.length (transactions db)
    /\ (forall t, In t (transactions db) -> references category_id t = true ->
                  In (detach t) (transactions db'))
    /\ List.length (filter has_no_category (transactions db'))
       = (List.length (filter has_no_category (transactions db)) + n)%nat
    /\ List.length (filter (references category_id) (transactions db')) = 0%nat
    /\ (n = 0%nat -> transactions db' = transactions db)
    /\ categories db' = filter (fun c => negb (Z.eqb (c_id c) category_id)) (categories db)
    /\ (forall c, In c (categories db') -> c_id c <> category_id)
    /\ (ok = true <-> exists c, In c (categories db) /\ c_id c = category_id)
    /\ (ok = true <-> (List.length (categories db') < List.length (categories db))%nat).
Proof.
  intros db cid n ok db'. subst n ok db'. unfold delete_category. cbn [fst snd transactions categories].
  repeat split.
  - induction (transactions db) as [|t l IH]; simpl; constructor; auto.
  - apply length_map.
  - intros t Hin R. apply in_map_iff. exists t. rewrite R. auto.
  - apply detached_count.
  - induction (transactions db) as [|t l IH]; simpl; [reflexivity|].
    destruct (references cid t) eqn:R; simpl; [exact IH|].
    rewrite R. exact IH.
  - intros H. apply map_id_when_false. now apply length_zero_iff_nil.
  - intros c Hc. apply filter_In in Hc. destruct Hc as [_ Hc].
    apply negb_true_iff, Z.eqb_neq in Hc. exact Hc.
  - intros H. apply ltb_0_length_filter in H. destruct H as [c [Hin Hc]].
    exists c. split; [exact Hin | now apply Z.eqb_eq].
  - intros [c [Hin Hc]]. apply ltb_0_length_filter. exists c.
    split; [exact Hin | now apply Z.eqb_eq].
  - intros H. apply Nat.ltb_lt in H.
    pose proof (filter_negb_length (fun c => Z.eqb (c_id c) cid) (categories db)). lia.
  - intros H. apply Nat.ltb_lt.
    pose proof (filter_negb_length (fun c => Z.eqb (c_id c) cid) (categories db)). lia.
Qed.

Example delete_category_scenario :
  delete_category scenario 2
  = (true,
     {| categories := [mkCategory 1 "Salary" "#4CAF50" "income"];
        transactions :=
          [mkTransaction 1 1000 (Some 1%Z) "2024-01-05" "" "income";
           mkTransaction 2 300 None "2024-01-10" "" "expense";
           mkTransaction 3 200 None "2024-02-01" "" "expense"] |}).
Proof. reflexivity. Qed.

(** ** Balance *)

Lemma fold_left_Qplus (l : list Q) (a : Q) : (fold_left Qplus l a == a + Qsum l)%Q.
Proof.
  revert a. induction l as [|b l IH]; intros a; simpl.
  - ring.
  - rewrite IH. ring.
Qed.

Lemma total_or_zero_sum (l : list Q) : (total_or_zero (sql_sum l) == Qsum l)%Q.
Proof.
  destruct l as [|a l]; simpl; [reflexivity|]. apply fold_left_Qplus.
Qed.

(** C5.  The balance is the sum of the income amounts minus the sum of the
    expense amounts, a sum over no rows being 0; it is 0 on an empty
    table. *)
Theorem get_balance_is_income_minus_expense :
  forall (db : database),
    (get_balance db
     == Qsum (map t_amount (filter (has_type "income") (transactions db)))
        - Qsum (map t_amount (filter (has_type "expense") (transactions db))))%Q
    /\ (transactions db = [] -> get_balance db = 0%Q).
Proof.
  intros db. split.
  - unfold get_balance. rewrite !total_or_zero_sum. reflexivity.
  - intros E. unfold get_balance. rewrite E. reflexivity.
Qed.

(** ** Adding a transaction under a category that does not exist *)

Lemma fold_left_max_ge (l : list Z) (a : Z) :
  (a <= fold_left Z.max l a)%Z /\ (forall i, In i l -> (i <= fold_left Z.max l a)%Z).
Proof.
  revert a. induction l as [|b l IH]; intros a; simpl.
  - split; [lia | tauto].
  - destruct (IH (Z.max a b)) as [H1 H2]. split; [lia|].
    intros i [->|Hi]; [lia | auto].
Qed.

Lemma new_rowid_fresh (ids : list Z) (i : Z) : In i ids -> (i < new_rowid ids)%Z.
Proof.
  destruct ids as [|a l]; simpl; [tauto|].
  destruct (fold_left_max_ge l a) as [H1 H2].
  intros [<-|Hi]; [lia | specialize (H2 i Hi); lia].
Qed.

Lemma find_id_none (l : list transaction) (id : Z) :
  (forall t, In t l -> t_id t <> id) -> find (fun t => Z.eqb (t_id t) id) l = None.
Proof.
  intros H. destruct (find _ l) as [t|] eqn:F; [|reflexivity].
  apply find_some in F. destruct F as [Hin E].
  apply Z.eqb_eq in E. now apply H in Hin.
Qed.

Lemma joined_category_none (db : database) (t : transaction) (c : Z) :
  t_category_id t = Some c ->
  (forall cat, In cat (categories db) -> c_id cat <> c) ->
  joined_category db t = None.
Proof.
  intros E H. unfold joined_category. rewrite E.
  destruct (find _ (categories db)) as [cat|] eqn:F; [|reflexivity].
  apply find_some in F. destruct F as [Hin Hc].
  apply Z.eqb_eq in Hc. now apply H in Hin.
Qed.

(** C10.  With a positive amount and a valid type, [add_transaction]
    succeeds whatever [category_id] is: it returns an id no stored row has
    and appends the row with the [category_id] it was given.  When no
    category row has that id, the row joins no category: its name and color
    are NULL in [get_transaction_by_id], and the defaults in
    [get_all_transactions]. *)
Theorem add_transaction_accepts_any_category :
  forall (env : environment) (db : database) (amount : Q) (category_id : option Z)
         (description transaction_type : string) (date : option date_value),
    (0 < amount)%Q ->
    transaction_type = "income" \/ transaction_type = "expense" ->
    let id := new_rowid (map t_id (transactions db)) in
    let date_str := strftime env (prepare_date env date) in
    let row := mkTransaction id amount category_id date_str description transaction_type in
    let db' := {| categories := categories db;
                  transactions := transactions db ++ [row] |} in
    add_transaction env db amount category_id description transaction_type date
    = (Some id, db')
    /\ (forall t, In t (transactions db) -> t_id t <> id)
    /\ (forall c : Z,
          category_id = Some c ->
          (forall cat, In cat (categories db) -> c_id cat <> c) ->
          get_transaction_by_id db' id
          = Some (mkRecord id amount (Some c) None None date_str description
                           transaction_type)
          /\ In (mkRecord id amount (Some c) (Some uncategorized_name)
                          (Some default_color) date_str description transaction_type)
                (get_all_transactions db')).
Proof.
  intros env db amount cid descr ty date A V id date_str row db'.
  assert (Fresh : forall t, In t (transactions db) -> t_id t <> id).
  { intros t Hin E.
    pose proof (new_rowid_fresh (map t_id (transactions db)) (t_id t)
                  (in_map t_id _ _ Hin)) as L.
    subst id. lia. }
  repeat split.
  - unfold add_transaction.
    apply valid_type_iff in V. rewrite V. simpl.
    apply Qle_bool_false_iff in A. rewrite A. reflexivity.
  - exact Fresh.
  - unfold get_transaction_by_id. subst db'. cbn [transactions].
    rewrite find_app_r by (now apply find_id_none).
    cbn [find t_id row]. subst row. cbn [t_id]. rewrite Z.eqb_refl.
    cbn [option_map]. unfold row_as_joined.
    rewrite (joined_category_none _ _ c) by (cbn; auto). subst. reflexivity.
  - unfold get_all_transactions.
    apply in_map_iff. exists row. split.
    + unfold row_with_defaults.
      rewrite (joined_category_none _ _ c) by (subst row db'; cbn; auto).
      subst. reflexivity.
    + unfold select_newest_first. apply sort_by_In.
      apply filter_In. split; [|reflexivity].
      subst db'. cbn [transactions]. apply in_or_app. right. now left.
Qed.

Lemma add_transaction_dangling_witness :
  add_transaction example_env scenario 10 (Some 99%Z) "gift" "expense"
                  (Some (DateStr "2024-02-20"))
  = (Some 4%Z,
     {| categories := categories scenario;
        transactions := transactions scenario ++
          [mkTransaction 4 10 (Some 99%Z) "2024-02-20" "gift" "expense"] |})
  /\ (forall t, In t (transactions scenario) -> t_id t <> 4%Z)
  /\ (forall c : Z,
        Some 99%Z = Some c ->
        (forall cat, In cat (categories scenario) -> c_id cat <> c) ->
        get_transaction_by_id
          {| categories := categories scenario;
             transactions := transactions scenario ++
               [mkTransaction 4 10 (Some 99%Z) "2024-02-20" "gift" "expense"] |} 4
        = Some (mkRecord 4 10 (Some c) None None "2024-02-20" "gift" "expense")
        /\ In (mkRecord 4 10 (Some c) (Some uncategorized_name) (Some default_color)
                        "2024-02-20" "gift" "expense")
              (get_all_transactions
                 {| categories := categories scenario;
                    transactions := transactions scenario ++
                      [mkTransaction 4 10 (Some 99%Z) "2024-02-20" "gift" "expense"] |})).
Proof.
  apply (add_transaction_accepts_any_category example_env scenario 10 (Some 99%Z)
           "gift" "expense" (Some (DateStr "2024-02-20"))).
  - reflexivity.
  - right. reflexivity.
Defined.

(** ** Listing queries *)

Lemma string_leb_iff (a b : string) :
  String.leb a b = true <-> a = b \/ String_as_OT.lt a b.
Proof.
  unfold String.leb.
  destruct (String.compare a b) eqn:C.
  - apply String_as_OT.cmp_eq in C. tauto.
  - apply String_as_OT.cmp_lt in C. tauto.
  - split; [discriminate|]. intros [E|L].
    + apply String_as_OT.cmp_eq in E. unfold String_as_OT.cmp in E. congruence.
    + apply String_as_OT.cmp_lt in L. unfold String_as_OT.cmp in L. congruence.
Qed.

Lemma string_leb_trans (a b c : string) :
  String.leb a b = true -> String.leb b c = true -> String.leb a c = true.
Proof.
  rewrite !string_leb_iff. intros [->|L1] [->|L2]; auto.
  right. eapply String_as_OT.lt_trans; eauto.
Qed.

Lemma string_leb_refl (a : string) : String.leb a a = true.
Proof. apply string_leb_iff. now left. Qed.


Lemma StronglySorted_impl {A : Type} (R R' : A -> A -> Prop) (l : list A) :
  (forall a b, R a b -> R' a b) -> StronglySorted R l -> StronglySorted R' l.
Proof.
  intros H. induction 1 as [|x l S IH F]; constructor; auto.
  eapply Forall_impl; [|exact F]. intros b. apply H.
Qed.





(** X2.  [get_transactions_by_category] returns the joined columns as they
    are: when no category row has the id, every row it returns has a NULL
    name and color. *)
Theorem get_transactions_by_category_null :
  forall (db : database) (category_id : Z),
    (forall c, In c (categories db) -> c_id c <> category_id) ->
    Forall (fun r => r_category_name r = None /\ r_category_color r = None)
           (get_transactions_by_category db category_id).
Proof.
  intros db category_id H. apply Forall_forall. intros r Hr.
  unfold get_transactions_by_category in Hr.
  apply in_map_iff in Hr. destruct Hr as [t [<- Ht]].
  apply sort_by_In, filter_In in Ht. destruct Ht as [_ R].
  unfold references in R. destruct (t_category_id t) as [c|] eqn:E; [|discriminate].
  apply Z.eqb_eq in R. subst c.
  unfold row_as_joined. rewrite (joined_category_none db t category_id E H).
  split; reflexivity.
Qed.

Lemma get_transactions_by_category_null_witness :
  Forall (fun r => r_category_name r = None /\ r_category_color r = None)
         (get_transactions_by_category scenario_dangling 99).
Proof.
  apply get_transactions_by_category_null.
  intros c [<-|[<-|[]]]; discriminate.
Defined.

(** C8.  On a transaction whose category does not exist,
    [get_transactions_by_category] returns a NULL name and color, where
    [get_transactions_by_type] (as [get_all_transactions] and
    [get_transactions_by_date_range]) returns the defaults. *)
Theorem get_transactions_by_category_no_defaults :
  get_transactions_by_category scenario_dangling 99
  = [mkRecord 4 10 (Some 99%Z) None None "2024-02-20" "gift" "expense"]
  /\ get_transactions_by_type scenario_dangling "expense"
     = [mkRecord 4 10 (Some 99%Z) (Some uncategorized_name) (Some default_color)
                 "2024-02-20" "gift" "expense";
        mkRecord 3 200 (Some 2%Z) (Some "Food") (Some "#F44336") "2024-02-01" ""
                 "expense";
        mkRecord 2 300 (Some 2%Z) (Some "Food") (Some "#F44336") "2024-01-10" ""
                 "expense"].
Proof. split; reflexivity. Qed.

(** ** Totals by category *)

Lemma in_group_iff (db : database) (k : category_key) (t : transaction) :
  in_group db k t = true <-> key_of db t = k.
Proof.
  unfold in_group. destruct (category_key_dec (key_of db t) k); split; congruence.
Qed.







Example expenses_by_category_dangling :
  get_expenses_by_category example_env scenario_dangling None None
  = [mkCategoryTotal 2 "Food" "#F44336" 500;
     mkCategoryTotal 0 uncategorized_name default_color 10].
Proof. reflexivity. Qed.

(** ** Percentages of the text report *)

Lemma positive_not_zero (t : Q) : Qle_bool t 0 = false -> Qeq_bool t 0 = false.
Proof.
  intros H. apply Qle_bool_false_iff in H.
  destruct (Qeq_bool t 0) eqn:E; [|reflexivity].
  apply Qeq_bool_iff in E. rewrite E in H. now apply Qlt_irrefl in H.
Qed.

(** The guard [total > 0] keeps the division away from 0. *)
Lemma percentage_value (amount grand_total : Q) :
  percentage amount grand_total
  = Ok (if Qle_bool grand_total 0 then 0%Q else (amount / grand_total * 100)%Q).
Proof.
  unfold percentage, py_div.
  destruct (Qle_bool grand_total 0) eqn:L; simpl; [reflexivity|].
  now rewrite (positive_not_zero _ L).
Qed.

Lemma percentage_spec (amount grand_total : Q) :
  (0 <= grand_total)%Q ->
  percentage amount grand_total = Ok (spec_percentage amount grand_total).
Proof.
  intros N. rewrite percentage_value. unfold spec_percentage. f_equal.
  destruct (Qle_bool grand_total 0) eqn:L.
  - apply Qle_bool_iff in L.
    assert (E : (grand_total == 0)%Q) by (now apply Qle_antisym).
    apply Qeq_bool_iff in E. now rewrite E.
  - now rewrite (positive_not_zero _ L).
Qed.

Lemma category_lines_ok (f : text_format) (grand_total : Q)
    (items : list (option string * Q)) :
  exists text, category_lines f grand_total items = Ok text.
Proof.
  induction items as [|[name amount] items [tail IH]]; simpl.
  - now exists ""%string.
  - rewrite percentage_value, IH. simpl. eauto.
Qed.

Lemma category_lines_spec (f : text_format) (grand_total : Q)
    (items : list (option string * Q)) :
  (0 <= grand_total)%Q ->
  category_lines f grand_total items = Ok (spec_lines f grand_total items).
Proof.
  intros N. induction items as [|[name amount] items IH]; simpl; [reflexivity|].
  rewrite (percentage_spec _ _ N), IH. reflexivity.
Qed.

Lemma category_section_ok (f : text_format) (no_data : string) (grand_total : Q)
    (items : list (option string * Q)) :
  exists text, category_section f no_data grand_total items = Ok text.
Proof.
  destruct items as [|i items]; [now exists no_data|].
  apply category_lines_ok.
Qed.

Lemma py_sum_Qsum (l : list Q) : (py_sum l == Qsum l)%Q.
Proof. unfold py_sum. rewrite fold_left_Qplus. ring. Qed.

Lemma Qsum_nonneg (l : list Q) : Forall (fun a => (0 < a)%Q) l -> (0 <= Qsum l)%Q.
Proof.
  induction 1 as [|a l H F IH]; simpl; [apply Qle_refl|].
  apply Qlt_le_weak in H.
  replace 0%Q with (0 + 0)%Q by reflexivity. now apply Qplus_le_compat.
Qed.

Lemma total_of_type_nonneg (ty : string) (selected : list transaction_record) :
  Forall (fun r => (0 < r_amount r)%Q) selected -> (0 <= total_of_type ty selected)%Q.
Proof.
  intros H. unfold total_of_type. rewrite py_sum_Qsum.
  apply Qsum_nonneg, Forall_map.
  apply Forall_forall. intros r Hr. apply filter_In in Hr.
  rewrite Forall_forall in H. apply H, Hr.
Qed.

Lemma Forall_filter {A : Type} (P : A -> Prop) (p : A -> bool) (l : list A) :
  Forall P l -> Forall P (filter p l).
Proof.
  rewrite !Forall_forall. intros H x Hx. apply filter_In in Hx. apply H, Hx.
Qed.

(** The grand totals of a report built over transactions with positive
    amounts, the only ones the store admits, are not negative: for each of
    the three builders. *)
Lemma report_totals_nonneg (env : environment) (f : text_format)
    (transactions : list transaction_record) :
  Forall (fun r => (0 < r_amount r)%Q) transactions ->
  (forall start_date end_date,
      totals_nonneg (generate_period_report env transactions start_date end_date))
  /\ (forall year month r,
        generate_monthly_report f transactions year month = Ok r -> totals_nonneg r)
  /\ (forall year r,
        generate_annual_report f transactions year = Ok r -> totals_nonneg r).
Proof.
  intros H.
  assert (S : forall p w months,
             totals_nonneg (summarize p (filter w transactions) months)).
  { intros p w months. split; cbn [summarize total_income total_expense];
      apply total_of_type_nonneg, Forall_filter, H. }
  split; [|split].
  - intros s e. apply S.
  - intros y m r E. unfold generate_monthly_report in E.
    destruct (month_name_of f y m); [|discriminate].
    injection E as <-. apply S.
  - intros y r E. unfold generate_annual_report in E.
    destruct (annual_months f _ y months_1_12); [|discriminate].
    injection E as <-. apply S.
Qed.

Lemma category_lines_printed (f : text_format) (grand_total : Q)
    (items : list (option string * Q)) :
  category_lines f grand_total items
  = Ok (lines_with printed_percentage f grand_total items).
Proof.
  induction items as [|[name amount] items IH]; simpl; [reflexivity|].
  rewrite percentage_value, IH. reflexivity.
Qed.

Lemma category_section_printed (f : text_format) (no_data : string) (grand_total : Q)
    (items : list (option string * Q)) :
  category_section f no_data grand_total items
  = Ok (section_with printed_percentage f no_data grand_total items).
Proof.
  destruct items as [|i items]; [reflexivity|].
  unfold category_section, section_with. apply category_lines_printed.
Qed.

(** C9.  The text [generate_text_report] returns for a report is the text
    in which the line of every category carries its amount divided by the
    grand total of its section times 100 when that grand total is above 0,
    and 0 when the grand total is 0 or below 0.  The rendering never divides
    by zero: it returns that text, or ends in the [KeyError] of a month that
    the monthly data lack, and never in that without monthly data.  For a
    grand total that is 0 or above, the percentage is the one of the
    specification. *)
Theorem text_report_percentages :
  forall (f : text_format) (r : report),
    generate_text_report f r
    = (months <- months_section f r ;; Ok (text_with printed_percentage f r months))
    /\ (generate_text_report f r = Raised KeyError
        \/ exists text, generate_text_report f r = Ok text)
    /\ (monthly_data r = None ->
        generate_text_report f r = Ok (text_with printed_percentage f r ""))
    /\ (forall name amount grand_total items,
          lines_with printed_percentage f grand_total ((name, amount) :: items)
          = (category_line f name amount (printed_percentage amount grand_total)
             ++ lines_with printed_percentage f grand_total items)%string)
    /\ (forall amount grand_total,
          ((0 < grand_total)%Q ->
           printed_percentage amount grand_total = (amount / grand_total * 100)%Q)
          /\ ((grand_total <= 0)%Q -> printed_percentage amount grand_total = 0%Q)
          /\ ((0 <= grand_total)%Q ->
              printed_percentage amount grand_total
              = spec_percentage amount grand_total)).
Proof.
  intros f r.
  assert (E : generate_text_report f r
              = (months <- months_section f r ;;
                 Ok (text_with printed_percentage f r months))).
  { unfold generate_text_report. rewrite !category_section_printed. reflexivity. }
  assert (M : forall data months,
             month_blocks f data months = Raised KeyError
             \/ exists text, month_blocks f data months = Ok text).
  { intros data. induction months as [|m months IH]; simpl; [right; eauto|].
    destruct (find _ data); [|now left].
    destruct IH as [->|[text ->]]; simpl; [now left | right; eauto]. }
  split; [exact E|]. split; [|split; [|split; [reflexivity|]]].
  - rewrite E. unfold months_section.
    destruct (monthly_data r) as [data|]; [|right; cbn [bind]; eauto].
    destruct (M data months_1_12) as [->|[text ->]]; cbn [bind];
      [now left | right; eauto].
  - intros N. rewrite E. unfold months_section. now rewrite N.
  - intros amount t. unfold printed_percentage. split; [|split].
    + intros P. apply Qlt_not_le in P.
      destruct (Qle_bool t 0) eqn:L; [|reflexivity].
      apply Qle_bool_iff in L. contradiction.
    + intros L. apply Qle_bool_iff in L. now rewrite L.
    + intros N. unfold spec_percentage.
      destruct (Qle_bool t 0) eqn:L.
      * apply Qle_bool_iff in L.
        assert (Z : (t == 0)%Q) by (now apply Qle_antisym).
        apply Qeq_bool_iff in Z. now rewrite Z.
      * now rewrite (positive_not_zero _ L).
Qed.

(** On a report whose total income is below 0 the percentages of the
    specification are not the ones printed: for an income of 5 and an
    income of -15 the rendering prints 0.0% twice, where the amounts divided
    by the total of -10 give -50.0% and 150.0%. *)
Lemma text_report_negative_total :
  total_income overdrawn = (-10)%Q
  /\ income_by_category overdrawn = [(Some "Salary", 5%Q); (Some "Refund", (-15)%Q)]
  /\ generate_text_report example_format overdrawn
     = Ok (text_with printed_percentage example_format overdrawn "")
  /\ generate_text_report example_format overdrawn
     = Ok "Финансовый отчет за период с 2024-01-01 по 2024-01-31
=====================================================

ОБЩАЯ СТАТИСТИКА
--------------------
Количество транзакций: 2
Общий доход: -10.00 руб.
Общий расход: 0.00 руб.
Баланс: -10.00 руб.

ДОХОДЫ ПО КАТЕГОРИЯМ
--------------------
Salary: 5.00 руб. (0.0%)
Refund: -15.00 руб. (0.0%)

РАСХОДЫ ПО КАТЕГОРИЯМ
--------------------
Нет данных о расходах за указанный период.


Отчет сформирован: 2024-03-15 12:00:00"
  /\ section_with printed_percentage example_format no_income_data
                  (total_income overdrawn) (income_by_category overdrawn)
     = "Salary: 5.00 руб. (0.0%)
Refund: -15.00 руб. (0.0%)
"
  /\ section_with spec_percentage example_format no_income_data
                  (total_income overdrawn) (income_by_category overdrawn)
     = "Salary: 5.00 руб. (-50.0%)
Refund: -15.00 руб. (150.0%)
"
  /\ String.eqb (text_with printed_percentage example_format overdrawn "")
                (text_with spec_percentage example_format overdrawn "")
     = false.
Proof. repeat split; reflexivity. Qed.

(** The text of the period report over the scenario with its uncategorized
    expense of 10 beside the 500 for food. *)
Example text_report_of_scenario :
  generate_text_report example_format
    (generate_period_report example_env (get_all_transactions scenario_dangling)
                            (DateStr "2024-01-01") (DateStr "2024-02-29"))
  = Ok "Финансовый отчет за период с 2024-01-01 по 2024-02-29
=====================================================

ОБЩАЯ СТАТИСТИКА
--------------------
Количество транзакций: 4
Общий доход: 1000.00 руб.
Общий расход: 510.00 руб.
Баланс: 490.00 руб.

ДОХОДЫ ПО КАТЕГОРИЯМ
--------------------
Salary: 1000.00 руб. (100.0%)

РАСХОДЫ ПО КАТЕГОРИЯМ
--------------------
Food: 500.00 руб. (98.0%)
Без категории: 10.00 руб. (2.0%)


Отчет сформирован: 2024-03-15 12:00:00".
Proof. reflexivity. Qed.

Example monthly_report_of_scenario :
  generate_monthly_report example_format (get_all_transactions scenario) 2024 1
  = Ok {| period := Monthly 2024 1 "January";
          transactions_count := 2;
          total_income := 1000;
          total_expense := 300;
          report_balance := 700;
          income_by_category := [(Some "Salary", 1000%Q)];
          expenses_by_category := [(Some "Food", 300%Q)];
          monthly_data := None |}.
Proof. reflexivity. Qed.

Example january_report :
  total_income january = 1000%Q /\ total_expense january = 300%Q
  /\ expenses_by_category january = [(Some "Food", 300%Q)]
  /\ spec_lines example_format (total_expense january) (expenses_by_category january)
     = "Food: 300.00 руб. (100.0%)
"%string.
Proof. repeat split. Qed.

(** ** Totals by month *)

Lemma same_month_iff (a b : option string) : same_month a b = true <-> a = b.
Proof.
  destruct a as [x|], b as [y|]; simpl; try (split; congruence).
  rewrite String.eqb_eq. split; congruence.
Qed.

Lemma same_month_refl (a : option string) : same_month a a = true.
Proof. now apply same_month_iff. Qed.

Lemma same_month_trans_l (a b c : option string) :
  same_month a b = true -> same_month a c = same_month b c.
Proof. intros H. apply same_month_iff in H. now subst. Qed.

Lemma find_map_update (m k : option string) (f : month_record -> month_record)
    (d : month_dict) :
  find (fun e => same_month (fst e) k) (dict_update m f d)
  = option_map (fun e => if same_month (fst e) m then (fst e, f (snd e)) else e)
               (find (fun e => same_month (fst e) k) d).
Proof.
  unfold dict_update. induction d as [|[k0 r0] d IH]; simpl; [reflexivity|].
  destruct (same_month k0 m) eqn:M; cbn [fst snd];
    destruct (same_month k0 k) eqn:K; cbn [option_map fst snd]; rewrite ?M; auto.
Qed.

(** One step of the loop, seen from one month. *)
Lemma dict_get_fold_month_row (m : option string) (d : month_dict) (row : month_row) :
  dict_get m (fold_month_row d row) = month_step m (dict_get m d) row.
Proof.
  unfold fold_month_row, month_step, dict_get.
  rewrite find_map_update.
  destruct (same_month (mr_month row) m) eqn:M.
  - apply same_month_iff in M. subst m.
    unfold dict_mem.
    destruct (find (fun e => same_month (fst e) (mr_month row)) d) as [[k r]|] eqn:F.
    + assert (X : existsb (fun e => same_month (fst e) (mr_month row)) d = true).
      { apply existsb_exists. apply find_some in F. exists (k, r). exact F. }
      rewrite X, F. cbn [option_map fst snd].
      apply find_some in F. destruct F as [_ F]. cbn [fst] in F. now rewrite F.
    + assert (X : existsb (fun e => same_month (fst e) (mr_month row)) d = false).
      { destruct (existsb _ d) eqn:Ex; [|reflexivity].
        apply existsb_exists in Ex. destruct Ex as [e [Hin He]].
        now rewrite (find_none _ _ F e Hin) in He. }
      rewrite X, (find_app_r _ _ _ F). cbn [find fst].
      rewrite same_month_refl. cbn [option_map fst snd].
      now rewrite same_month_refl.
  - assert (G : forall d', option_map snd
                   (option_map (fun e : option string * month_record =>
                                  if same_month (fst e) (mr_month row)
                                  then (fst e, apply_row row (snd e)) else e)
                               (find (fun e => same_month (fst e) m) d'))
                 = option_map snd (find (fun e => same_month (fst e) m) d')).
    { intros d'. destruct (find _ d') as [[k r]|] eqn:F; [|reflexivity].
      apply find_some in F. destruct F as [_ F]. cbn [fst] in F.
      cbn [option_map fst snd].
      destruct (same_month k (mr_month row)) eqn:K; [|reflexivity].
      apply same_month_iff in K. apply same_month_iff in F. subst.
      now rewrite same_month_refl in M. }
    unfold apply_row in G.
    destruct (dict_mem (mr_month row) d); rewrite G; [reflexivity|].
    destruct (find (fun e => same_month (fst e) m) d) eqn:F.
    + now rewrite (find_app_l _ _ _ _ F).
    + rewrite (find_app_r _ _ _ F). cbn [find fst]. now rewrite M.
Qed.

Lemma dict_get_fold (m : option string) (rows : list month_row) :
  forall d, dict_get m (fold_left fold_month_row rows d)
            = fold_left (month_step m) rows (dict_get m d).
Proof.
  induction rows as [|row rows IH]; intros d; simpl; [reflexivity|].
  now rewrite IH, dict_get_fold_month_row.
Qed.

Lemma dict_update_keys (m : option string) (f : month_record -> month_record)
    (d : month_dict) :
  map fst (dict_update m f d) = map fst d.
Proof.
  unfold dict_update. rewrite map_map. apply map_ext.
  intros [k r]. cbn [fst]. now destruct (same_month k m).
Qed.

Lemma dict_mem_iff (m : option string) (d : month_dict) :
  dict_mem m d = true <-> In m (map fst d).
Proof.
  unfold dict_mem. rewrite existsb_exists, in_map_iff. split.
  - intros [e [Hin He]]. apply same_month_iff in He. eauto.
  - intros [e [He Hin]]. exists e. split; [exact Hin | now apply same_month_iff].
Qed.

Lemma fold_month_row_keys (d : month_dict) (row : month_row) :
  map fst (fold_month_row d row)
  = if dict_mem (mr_month row) d then map fst d else map fst d ++ [mr_month row].
Proof.
  unfold fold_month_row. rewrite dict_update_keys.
  destruct (dict_mem (mr_month row) d); [reflexivity|].
  now rewrite map_app.
Qed.

Lemma fold_keys (rows : list month_row) :
  forall d, NoDup (map fst d) ->
    NoDup (map fst (fold_left fold_month_row rows d))
    /\ (forall m, In m (map fst (fold_left fold_month_row rows d))
                  <-> In m (map fst d) \/ In m (map mr_month rows)).
Proof.
  induction rows as [|row rows IH]; intros d N; simpl.
  - split; [exact N | tauto].
  - assert (N' : NoDup (map fst (fold_month_row d row))).
    { rewrite fold_month_row_keys.
      destruct (dict_mem (mr_month row) d) eqn:M; [exact N|].
      apply NoDup_app; [exact N | repeat constructor; tauto | ].
      intros k Hk [<-|[]].
      apply dict_mem_iff in Hk. congruence. }
    destruct (IH _ N') as [H1 H2]. split; [exact H1|].
    intros m. rewrite H2, fold_month_row_keys.
    destruct (dict_mem (mr_month row) d) eqn:M.
    + apply dict_mem_iff in M. split; [tauto|].
      intros [H|[<-|H]]; tauto.
    + rewrite in_app_iff. simpl. tauto.
Qed.

Lemma dict_get_In (d : month_dict) (m : option string) (r : month_record) :
  NoDup (map fst d) -> (In (m, r) d <-> dict_get m d = Some r).
Proof.
  unfold dict_get. induction d as [|[k r0] d IH]; simpl; intros N.
  - split; [tauto | discriminate].
  - inversion N as [|x l Hk N' E]; subst.
    destruct (same_month k m) eqn:K.
    + apply same_month_iff in K. subst k. simpl. split.
      * intros [E|Hin]; [congruence|].
        exfalso. apply Hk. apply in_map_iff. now exists (m, r).
      * intros E. left. congruence.
    + rewrite <- (IH N'). split; [|tauto].
      intros [E|Hin]; [|exact Hin].
      injection E as -> ->. now rewrite same_month_refl in K.
Qed.

Lemma last_total_absent (rows : list month_row) (m : option string) :
  ~ In m (map mr_month rows) -> forall ty, last_total rows m ty = 0%Q.
Proof.
  intros Hn ty. unfold last_total. generalize 0%Q.
  induction rows as [|x rows IH]; intros q; [reflexivity|].
  cbn [fold_left]. simpl in Hn.
  destruct (same_month (mr_month x) m) eqn:S.
  - apply same_month_iff in S. tauto.
  - cbn [andb]. apply IH. tauto.
Qed.

(** The record of a month after the rows [rows], all of type ['income'] or
    ['expense']: absent when no row has the month; otherwise its income and
    expense are the totals of the last row of each type (0 without one), and
    its balance is their difference. *)
Lemma month_step_fold (m : option string) (rows : list month_row) :
  Forall (fun row => valid_type (mr_type row) = true) rows ->
  match fold_left (month_step m) rows None with
  | None => ~ In m (map mr_month rows)
  | Some r =>
      In m (map mr_month rows)
      /\ month r = month_value m
      /\ income r = last_total rows m "income"
      /\ expense r = last_total rows m "expense"
      /\ balance r = (income r - expense r)%Q
      /\ other r = []
  end.
Proof.
  induction rows as [|row rows IH] using rev_ind; intros V; simpl; [tauto|].
  apply Forall_app in V. destruct V as [V Vrow].
  inversion Vrow as [|x l Vt _ E]; subst. clear Vrow.
  specialize (IH V).
  assert (Hin : In m (map mr_month (rows ++ [row]))
                <-> In m (map mr_month rows) \/ mr_month row = m).
  { rewrite map_app, in_app_iff. simpl. tauto. }
  assert (L : forall ty, last_total (rows ++ [row]) m ty
                         = if same_month (mr_month row) m && String.eqb (mr_type row) ty
                           then mr_total row else last_total rows m ty).
  { intros ty. unfold last_total. now rewrite fold_left_app. }
  pose proof (last_total_absent rows m) as Z.
  rewrite fold_left_app. cbn [fold_left].
  unfold month_step at 1.
  destruct (same_month (mr_month row) m) eqn:M.
  - apply same_month_iff in M.
    apply valid_type_iff in Vt.
    assert (B : forall r0 : month_record,
                  month r0 = month_value m ->
                  income r0 = last_total rows m "income" ->
                  expense r0 = last_total rows m "expense" ->
                  other r0 = [] ->
                  let r := apply_row row r0 in
                  month r = month_value m
                  /\ income r = last_total (rows ++ [row]) m "income"
                  /\ expense r = last_total (rows ++ [row]) m "expense"
                  /\ balance r = (income r - expense r)%Q
                  /\ other r = []).
    { intros r0 H1 H2 H3 H4. rewrite !L. subst m.
      unfold apply_row, set_item.
      destruct Vt as [-> | ->]; cbn; auto. }
    destruct (fold_left (month_step m) rows None) as [r0|].
    + destruct IH as [_ [H1 [H2 [H3 [_ H4]]]]].
      split; [tauto|]. now apply B.
    + split; [tauto|]. 
      apply B; try (rewrite (Z IH)); subst m; reflexivity.
  - assert (M' : mr_month row <> m) by (intros E; apply same_month_iff in E; congruence).
    rewrite !L. cbn [andb].
    destruct (fold_left (month_step m) rows None) as [r0|].
    + destruct IH as [H0 H]. split; [tauto | exact H].
    + tauto.
Qed.

Lemma row_key_test (row : month_row) (m : option string) (ty : string) :
  same_month (mr_month row) m && String.eqb (mr_type row) ty = true
  <-> row_key row = (m, ty).
Proof.
  unfold row_key. rewrite andb_true_iff, same_month_iff, String.eqb_eq.
  split; [intros [-> ->]; reflexivity | intros E; injection E; auto].
Qed.

Lemma last_total_none (rows : list month_row) (m : option string) (ty : string) :
  ~ In (m, ty) (map row_key rows) -> last_total rows m ty = 0%Q.
Proof.
  unfold last_total. generalize 0%Q.
  induction rows as [|x rows IH]; intros q Hn; [reflexivity|].
  cbn [fold_left]. simpl in Hn.
  destruct (same_month (mr_month x) m && String.eqb (mr_type x) ty) eqn:S.
  - apply row_key_test in S. tauto.
  - apply IH. tauto.
Qed.

(** With one row per (month, type) pair, the last row of a pair is its only
    row. *)
Lemma last_total_unique (rows : list month_row) :
  NoDup (map row_key rows) ->
  forall row, In row rows -> last_total rows (mr_month row) (mr_type row) = mr_total row.
Proof.
  induction rows as [|x rows IH] using rev_ind; intros N row Hin; [destruct Hin|].
  rewrite map_app in N. cbn [map] in N.
  apply NoDup_remove in N. rewrite app_nil_r in N. destruct N as [N Hx].
  unfold last_total. rewrite fold_left_app. cbn [fold_left].
  fold (last_total rows (mr_month row) (mr_type row)).
  destruct (same_month (mr_month x) (mr_month row)
            && String.eqb (mr_type x) (mr_type row)) eqn:S.
  - apply row_key_test in S. fold (row_key row) in S.
    apply in_app_or in Hin. destruct Hin as [Hin|[<-|[]]]; [|reflexivity].
    exfalso. apply Hx. rewrite S. now apply in_map.
  - apply in_app_or in Hin. destruct Hin as [Hin|[<-|[]]]; [now apply IH|].
    assert (T : same_month (mr_month x) (mr_month x)
                && String.eqb (mr_type x) (mr_type x) = true)
      by (now apply row_key_test).
    congruence.
Qed.

Section SortingOnAgreeingOrders.
Context {A : Type} (le le' : A -> A -> bool).

Lemma insert_by_ext_in (x : A) (l : list A) :
  (forall y, In y l -> le x y = le' x y) -> insert_by le x l = insert_by le' x l.
Proof.
  induction l as [|y l IH]; intros H; simpl; [reflexivity|].
  rewrite (H y (or_introl eq_refl)).
  destruct (le' x y); [reflexivity|].
  f_equal. apply IH. intros z Hz. apply H. now right.
Qed.

Lemma sort_by_ext_in (l : list A) :
  (forall x y, In x l -> In y l -> le x y = le' x y) -> sort_by le l = sort_by le' l.
Proof.
  induction l as [|x l IH]; intros H; simpl; [reflexivity|].
  rewrite IH by (intros a b Ha Hb; apply H; now right).
  apply insert_by_ext_in. intros y Hy. apply sort_by_In in Hy.
  apply H; [now left | now right].
Qed.
End SortingOnAgreeingOrders.

(** The final sort succeeds on records whose ['month'] is a string, and
    orders them by it. *)
Lemma sort_by_month_strings (l : list month_record) :
  Forall (fun r => is_str (month r) = true) l ->
  exists result,
    sort_by_month l = Some result /\ Permutation l result /\ ascending_months result.
Proof.
  intros H. unfold sort_by_month.
  destruct (Nat.ltb (List.length l) 2) eqn:Len.
  - exists l. repeat split; [reflexivity|].
    apply Nat.ltb_lt in Len.
    destruct l as [|a [|b l]]; simpl in Len; try lia; repeat constructor.
  - assert (F : forallb (fun r => is_str (month r)) l = true)
      by (apply forallb_forall; now apply Forall_forall).
    rewrite F.
    set (le' := fun a b : month_record => String.leb (month_text a) (month_text b)).
    assert (E : sort_by month_le l = sort_by le' l).
    { apply sort_by_ext_in. intros x y Hx Hy.
      rewrite Forall_forall in H.
      pose proof (H x Hx) as Sx. pose proof (H y Hy) as Sy.
      unfold month_le, le', month_text.
      destruct (month x); try discriminate. destruct (month y); try discriminate.
      reflexivity. }
    exists (sort_by month_le l). repeat split.
    + apply sort_by_perm.
    + rewrite E. apply sort_by_sorted.
      * intros a b. apply String.leb_total.
      * intros a b c. apply string_leb_trans.
Qed.

Lemma in_month_group_iff (env : environment) (k : month_key) (t : transaction) :
  in_month_group env k t = true <-> month_key_of env t = k.
Proof.
  unfold in_month_group.
  destruct (month_key_dec (month_key_of env t) k); split; congruence.
Qed.

(** The rows the store returns: one per (month, type) pair among the
    selected transactions, each with the sum of its group. *)
Lemma month_rows_facts (env : environment) (db : database)
    (start_date end_date : option date_value) :
  let txs := filter (date_condition env start_date end_date) (transactions db) in
  let rows := month_rows env db start_date end_date in
  NoDup (map row_key rows)
  /\ (forall k, In k (map row_key rows) <->
                exists t, In t txs /\ month_key_of env t = k)
  /\ (forall row, In row rows ->
        (mr_total row
         == Qsum (map t_amount (filter (in_month_group env (row_key row)) txs)))%Q).
Proof.
  intros txs rows.
  set (keys := nodup month_key_dec (map (month_key_of env) txs)).
  set (mk := fun k : month_key =>
               mkMonthRow (fst k) (snd k)
                 (total_or_zero
                    (sql_sum (map t_amount (filter (in_month_group env k) txs))))).
  assert (R : rows = sort_by month_asc (map mk keys)) by reflexivity.
  assert (P : Permutation (map mk keys) rows) by (rewrite R; apply sort_by_perm).
  assert (MK : map row_key (map mk keys) = keys).
  { rewrite map_map. rewrite <- (map_id keys) at 2.
    apply map_ext. now intros [m ty]. }
  assert (PK : Permutation keys (map row_key rows)).
  { rewrite <- MK. now apply Permutation_map. }
  repeat split.
  - apply (Permutation_NoDup PK), NoDup_nodup.
  - intros H. apply (Permutation_in _ (Permutation_sym PK)) in H.
    apply nodup_In, in_map_iff in H. destruct H as [t [E Hin]]. eauto.
  - intros [t [Hin E]]. apply (Permutation_in _ PK).
    apply nodup_In, in_map_iff. eauto.
  - intros row Hr. apply (Permutation_in _ (Permutation_sym P)) in Hr.
    apply in_map_iff in Hr. destruct Hr as [[m ty] [<- _]].
    cbn [mk mr_total row_key mr_month mr_type fst snd].
    apply total_or_zero_sum.
Qed.

Lemma last_total_group_sum (env : environment) (db : database)
    (start_date end_date : option date_value) (m : option string) (ty : string) :
  let txs := filter (date_condition env start_date end_date) (transactions db) in
  (last_total (month_rows env db start_date end_date) m ty
   == Qsum (map t_amount (filter (in_month_group env (m, ty)) txs)))%Q.
Proof.
  intros txs.
  destruct (month_rows_facts env db start_date end_date) as [N [K T]].
  fold txs in K, T.
  destruct (in_dec month_key_dec (m, ty)
              (map row_key (month_rows env db start_date end_date))) as [Hin|Hn].
  - apply in_map_iff in Hin. destruct Hin as [row [E Hrow]].
    injection E as <- <-.
    rewrite (last_total_unique _ N row Hrow). now apply T.
  - rewrite (last_total_none _ _ _ Hn).
    assert (Z : filter (in_month_group env (m, ty)) txs = []).
    { destruct (filter (in_month_group env (m, ty)) txs) as [|t l] eqn:F; [reflexivity|].
      exfalso. apply Hn. apply K. exists t.
      assert (Ht : In t (filter (in_month_group env (m, ty)) txs))
        by (rewrite F; now left).
      apply filter_In in Ht. destruct Ht as [Ht G].
      apply in_month_group_iff in G. auto. }
    rewrite Z. reflexivity.
Qed.

Lemma fold_month_row_balance (d : month_dict) (row : month_row) :
  (forall e, In e d -> balance (snd e) = (income (snd e) - expense (snd e))%Q) ->
  forall e, In e (fold_month_row d row) ->
            balance (snd e) = (income (snd e) - expense (snd e))%Q.
Proof.
  intros H e He. unfold fold_month_row, dict_update in He.
  apply in_map_iff in He. destruct He as [e0 [<- Hin]].
  destruct (same_month (fst e0) (mr_month row)) eqn:S; [reflexivity|].
  destruct (dict_mem (mr_month row) d); [now apply H|].
  apply in_app_or in Hin. destruct Hin as [Hin|[<-|[]]]; [now apply H|].
  cbn [fst] in S. now rewrite same_month_refl in S.
Qed.

Lemma fold_balance (rows : list month_row) :
  forall d,
    (forall e, In e d -> balance (snd e) = (income (snd e) - expense (snd e))%Q) ->
    forall e, In e (fold_left fold_month_row rows d) ->
              balance (snd e) = (income (snd e) - expense (snd e))%Q.
Proof.
  induction rows as [|row rows IH]; intros d H; simpl; [exact H|].
  apply IH. now apply fold_month_row_balance.
Qed.

Lemma sort_by_month_perm (l result : list month_record) :
  sort_by_month l = Some result -> Permutation l result.
Proof.
  unfold sort_by_month.
  destruct (Nat.ltb (List.length l) 2); [intros E; injection E as <-; reflexivity|].
  destruct (forallb (fun r => is_str (month r)) l);
    [intros E; injection E as <-; apply sort_by_perm|].
  destruct (forallb (fun r => is_num (month r)) l);
    [intros E; injection E as <-; apply sort_by_perm | discriminate].
Qed.

Lemma month_value_inj (a b : option string) : month_value a = month_value b -> a = b.
Proof. destruct a, b; simpl; congruence. Qed.

(** Whenever [get_transactions_by_month] returns, each record has
    [balance = income - expense]. *)
Lemma month_records_balance (env : environment) (db : database)
    (start_date end_date : option date_value) (result : list month_record)
    (r : month_record) :
  get_transactions_by_month env db start_date end_date = Some result ->
  In r result -> balance r = (income r - expense r)%Q.
Proof.
  intros E Hr. unfold get_transactions_by_month in E.
  apply sort_by_month_perm in E.
  apply (Permutation_in _ (Permutation_sym E)) in Hr.
  apply in_map_iff in Hr. destruct Hr as [[m r0] [<- Hin]].
  apply (fold_balance _ [] (fun e0 (H : In e0 []) => match H with end) _ Hin).
Qed.

(** The records of the months, when the selected transactions have a valid
    type and a date SQLite reads a month from. *)
Lemma month_records_of_valid_rows (env : environment) (db : database)
    (start_date end_date : option date_value) :
  let txs := filter (date_condition env start_date end_date) (transactions db) in
  Forall (fun t => valid_type (t_type t) = true
                   /\ sqlite_strftime_ym env (t_date t) <> None) txs ->
  exists result,
    get_transactions_by_month env db start_date end_date = Some result
    /\ ascending_months result
    /\ NoDup (map month result)
    /\ (forall m, In (PyStr m) (map month result) <->
                  exists t, In t txs /\ sqlite_strftime_ym env (t_date t) = Some m)
    /\ (forall r, In r result ->
          exists m,
            month r = PyStr m
            /\ (income r
                == Qsum (map t_amount
                           (filter (in_month_group env (Some m, "income")) txs)))%Q
            /\ (expense r
                == Qsum (map t_amount
                           (filter (in_month_group env (Some m, "expense")) txs)))%Q
            /\ balance r = (income r - expense r)%Q
            /\ other r = []).
Proof.
  intros txs.
  rename start_date into s. rename end_date into e.
  set (rows := month_rows env db s e).
  set (D := fold_left fold_month_row rows []).
  assert (G : get_transactions_by_month env db s e = sort_by_month (map snd D))
    by reflexivity.
  destruct (month_rows_facts env db s e) as [N [K T]].
  fold txs in K, T. fold rows in N, K, T.
  intros W. rewrite Forall_forall in W.
  assert (Vrows : Forall (fun row => valid_type (mr_type row) = true) rows).
  { apply Forall_forall. intros row Hrow.
    assert (Hk : In (row_key row) (map row_key rows)) by (now apply in_map).
    apply K in Hk. destruct Hk as [t [Ht E]].
    unfold month_key_of, row_key in E. injection E as _ <-. now apply W. }
  assert (Mrows : forall m, In m (map mr_month rows) <->
                            exists t, In t txs /\ sqlite_strftime_ym env (t_date t) = m).
  { intros m. split.
    - intros H. apply in_map_iff in H. destruct H as [row [<- Hrow]].
      assert (Hk : In (row_key row) (map row_key rows)) by (now apply in_map).
      apply K in Hk. destruct Hk as [t [Ht E]].
      unfold month_key_of, row_key in E. injection E as E1 _. eauto.
    - intros [t [Ht E]].
      assert (Hk : In (month_key_of env t) (map row_key rows)) by (apply K; eauto).
      apply in_map_iff in Hk. destruct Hk as [row [Er Hrow]].
      apply in_map_iff. exists row. split; [|exact Hrow].
      unfold month_key_of, row_key in Er. injection Er as E1 _. congruence. }
  destruct (fold_keys rows [] (NoDup_nil _)) as [ND KD]. fold D in ND, KD.
  assert (Rec : forall m r, In (m, r) D ->
                  In m (map mr_month rows)
                  /\ month r = month_value m
                  /\ income r = last_total rows m "income"
                  /\ expense r = last_total rows m "expense"
                  /\ balance r = (income r - expense r)%Q
                  /\ other r = []).
  { intros m r Hin. apply (dict_get_In D m r ND) in Hin.
    unfold D in Hin. rewrite dict_get_fold in Hin. cbn [dict_get find option_map] in Hin.
    pose proof (month_step_fold m rows Vrows) as S. rewrite Hin in S. exact S. }
  assert (Str : Forall (fun r => is_str (month r) = true) (map snd D)).
  { apply Forall_forall. intros r Hr.
    apply in_map_iff in Hr. destruct Hr as [[m r0] [<- Hin]].
    destruct (Rec m r0 Hin) as [Hm [Hmon _]]. cbn [snd]. rewrite Hmon.
    apply Mrows in Hm. destruct Hm as [t [Ht E]].
    destruct m as [m|]; [reflexivity|].
    exfalso. now apply (proj2 (W t Ht)). }
  destruct (sort_by_month_strings (map snd D) Str) as [result [E [P A]]].
  assert (Months : map month (map snd D) = map month_value (map fst D)).
  { rewrite !map_map. apply map_ext_in. intros [m r] Hin.
    cbn [fst snd]. now destruct (Rec m r Hin) as [_ [Hmon _]]. }
  exists result. rewrite G. split; [exact E|]. split; [exact A|].
  assert (PM : Permutation (map month_value (map fst D)) (map month result)).
  { rewrite <- Months. now apply Permutation_map. }
  repeat split.
  + apply (Permutation_NoDup PM).
    apply Finite.Injective_map_NoDup; [|exact ND].
    intros a b. apply month_value_inj.
  + intros H. apply (Permutation_in _ (Permutation_sym PM)) in H.
    apply in_map_iff in H. destruct H as [m0 [E0 Hm0]].
    destruct m0 as [m0|]; [|discriminate]. injection E0 as ->.
    apply KD in Hm0. destruct Hm0 as [[]|Hm0]. now apply Mrows.
  + intros H. apply (Permutation_in _ PM).
    apply in_map_iff. exists (Some m). split; [reflexivity|].
    apply KD. right. now apply Mrows.
  + intros r Hr. apply (Permutation_in _ (Permutation_sym P)) in Hr.
    apply in_map_iff in Hr. destruct Hr as [[m0 r0] [<- Hin]]. cbn [snd].
    destruct (Rec m0 r0 Hin) as [Hm [Hmon [Hi [He [Hb Ho]]]]].
    apply Mrows in Hm. destruct Hm as [t [Ht Et]].
    destruct m0 as [m|]; [|exfalso; now apply (proj2 (W t Ht))].
    exists m. split; [exact Hmon|].
    rewrite Hi, He, <- Hi, <- He.
    split; [rewrite Hi; apply last_total_group_sum|].
    split; [rewrite He; apply last_total_group_sum|].
    split; assumption.
Qed.

(** What [get_transactions_by_month] does return.  Whenever it returns,
    every record has [balance = income - expense].  When the selected
    transactions have type ['income'] or ['expense'] and a date SQLite reads
    a month from, it returns: the records are in ascending order of their
    month, there is exactly one per month in which a selected transaction
    falls, and the income and expense of a month are the sums of the amounts
    of its selected transactions of that type, 0 when it has none. *)
Theorem get_transactions_by_month_records :
  forall (env : environment) (db : database) (start_date end_date : option date_value),
    let txs := filter (date_condition env start_date end_date) (transactions db) in
    (forall result r,
        get_transactions_by_month env db start_date end_date = Some result ->
        In r result -> balance r = (income r - expense r)%Q)
    /\ (Forall (fun t => valid_type (t_type t) = true
                         /\ sqlite_strftime_ym env (t_date t) <> None) txs ->
        exists result,
          get_transactions_by_month env db start_date end_date = Some result
          /\ ascending_months result
          /\ NoDup (map month result)
          /\ (forall m, In (PyStr m) (map month result) <->
                        exists t, In t txs /\ sqlite_strftime_ym env (t_date t) = Some m)
          /\ (forall r, In r result ->
                exists m,
                  month r = PyStr m
                  /\ (income r
                      == Qsum (map t_amount
                                 (filter (in_month_group env (Some m, "income")) txs)))%Q
                  /\ (expense r
                      == Qsum (map t_amount
                                 (filter (in_month_group env (Some m, "expense")) txs)))%Q
                  /\ balance r = (income r - expense r)%Q
                  /\ other r = [])).
Proof.
  intros env db s e txs. split.
  - intros result r. apply month_records_balance.
  - apply month_records_of_valid_rows.
Qed.

Lemma get_transactions_by_month_witness :
  exists result,
    get_transactions_by_month example_env scenario None None = Some result
    /\ ascending_months result
    /\ NoDup (map month result)
    /\ (forall r, In r result ->
          exists m,
            month r = PyStr m
            /\ (income r
                == Qsum (map t_amount
                           (filter (in_month_group example_env (Some m, "income"))
                                   (transactions scenario))))%Q
            /\ (expense r
                == Qsum (map t_amount
                           (filter (in_month_group example_env (Some m, "expense"))
                                   (transactions scenario))))%Q
            /\ balance r = (income r - expense r)%Q
            /\ other r = []).
Proof.
  destruct (get_transactions_by_month_records example_env scenario None None)
    as [_ H].
  destruct H as [result [E [A [N [_ R]]]]].
  - repeat constructor; discriminate.
  - exists result. repeat split; assumption.
Defined.

Example months_of_scenario :
  get_transactions_by_month example_env scenario None None
  = Some [mkMonthRecord (PyStr "2024-01") 1000 300 700 [];
          mkMonthRecord (PyStr "2024-02") 0 200 (-200) []].
Proof. reflexivity. Qed.

(** C6.  [get_transactions_by_month] does not return one record per
    calendar month for every transaction set.  [add_transaction] accepts a
    date of the year 999, as a [datetime] or as the string "0999-01-05", and
    stores it as "999-01-05"; SQLite reads no month from that text, so its
    rows are grouped under NULL.  With the transactions of the scenario
    beside it the final sort compares [None] with a string and raises
    [TypeError]; alone it comes back as a record whose month is [None]. *)
Theorem get_transactions_by_month_short_year :
  add_transaction linux_env scenario 5 (Some 2%Z) "" "expense"
                  (Some (DateObj (mkDatetime 999 1 5)))
  = (Some 4%Z, scenario_short_year)
  /\ add_transaction linux_env scenario 5 (Some 2%Z) "" "expense"
                     (Some (DateStr "0999-01-05"))
     = (Some 4%Z, scenario_short_year)
  /\ map t_date (transactions scenario_short_year)
     = ["2024-01-05"; "2024-01-10"; "2024-02-01"; "999-01-05"]
  /\ map mr_month (month_rows linux_env scenario_short_year None None)
     = [None; Some "2024-01"; Some "2024-01"; Some "2024-02"]
  /\ get_transactions_by_month linux_env scenario_short_year None None = None
  /\ get_transactions_by_month linux_env short_year_alone None None
     = Some [mkMonthRecord PyNone 0 5 (-5) []].
Proof. repeat split; reflexivity. Qed.

(** ** What a history of operations leaves in the store *)

Lemma run_operation_well_stored (env : environment) (db : database) (op : operation) :
  well_stored env db -> well_stored env (run_operation env db op).
Proof.
  unfold well_stored. intros W. destruct op; cbn [run_operation].
  - (* init_db writes categories only *)
    unfold init_db, create_default_categories.
    assert (I : forall d rows, transactions (insert_categories d rows) = transactions d).
    { intros d rows. revert d. unfold insert_categories.
      induction rows as [|[[n c] t] rows IH]; intros d; simpl; [reflexivity|].
      now rewrite IH. }
    destruct (Nat.eqb (count_type "expense" (categories db)) 0);
      destruct (Nat.eqb (count_type "income" _) 0); rewrite ?I; exact W.
  - unfold add_category.
    destruct (find _ (categories db)); exact W.
  - exact W.
  - cbn [delete_category snd transactions].
    apply Forall_map. eapply Forall_impl; [|exact W].
    intros t S. destruct (references category_id0 t); exact S.
  - unfold add_transaction.
    destruct (valid_type transaction_type) eqn:V; cbn [negb]; [|exact W].
    destruct (Qle_bool amount 0) eqn:A; [exact W|].
    cbn [snd transactions]. apply Forall_app. split; [exact W|].
    constructor; [|constructor].
    repeat split; cbn [t_amount t_type t_date]; [now apply Qle_bool_false_iff | exact V | eexists; reflexivity].
  - unfold update_transaction.
    destruct (valid_type transaction_type) eqn:V; cbn [negb]; [|exact W].
    destruct (Qle_bool amount 0) eqn:A; [exact W|].
    destruct (match date with DateStr s => strptime env s | DateObj d => Some d end)
      as [d|]; [|exact W].
    cbn [snd transactions]. apply Forall_map. eapply Forall_impl; [|exact W].
    intros t S. destruct (Z.eqb (t_id t) transaction_id); [|exact S].
    repeat split; cbn [t_amount t_type t_date]; [now apply Qle_bool_false_iff | exact V | eexists; reflexivity].
  - cbn [delete_transaction snd transactions]. now apply Forall_filter.
Qed.

(** Every history that starts from a new database leaves transactions with
    positive amounts, valid types and formatted dates. *)
Lemma run_well_stored (env : environment) (history : list operation) :
  forall db, well_stored env db -> well_stored env (run env db history).
Proof.
  unfold run. induction history as [|op history IH]; intros db W; simpl; [exact W|].
  apply IH. now apply run_operation_well_stored.
Qed.

Lemma fresh_database_well_stored (env : environment) : well_stored env fresh_database.
Proof. constructor. Qed.

(** The transactions listed from such a store have positive amounts, so
    every report built over them has grand totals that are not negative. *)
Lemma listed_amounts_positive (env : environment) (db : database) :
  well_stored env db ->
  Forall (fun r => (0 < r_amount r)%Q) (get_all_transactions db).
Proof.
  intros W. unfold get_all_transactions. apply Forall_map.
  apply Forall_forall. intros t Ht.
  apply sort_by_In, filter_In in Ht. destruct Ht as [Ht _].
  unfold well_stored in W. rewrite Forall_forall in W.
  now destruct (W t Ht) as [A _].
Qed.

Lemma reports_of_history_nonneg (env : environment) (f : text_format)
    (history : list operation) :
  let listed := get_all_transactions (run env fresh_database history) in
  (forall start_date end_date,
      totals_nonneg (generate_period_report env listed start_date end_date))
  /\ (forall year month r,
        generate_monthly_report f listed year month = Ok r -> totals_nonneg r)
  /\ (forall year r,
        generate_annual_report f listed year = Ok r -> totals_nonneg r).
Proof.
  apply report_totals_nonneg, (listed_amounts_positive env).
  apply run_well_stored, fresh_database_well_stored.
Qed.

(** * Further properties of the data-access layer *)

(** ** Seeding *)

Lemma insert_categories_spec (rows : list (string * string * string)) :
  forall db,
    transactions (insert_categories db rows) = transactions db
    /\ exists added,
         categories (insert_categories db rows) = categories db ++ added
         /\ map triple_of added = rows.
Proof.
  unfold insert_categories.
  induction rows as [|[[n c] t] rows IH]; intros db.
  - split; [reflexivity|]. exists []. simpl. now rewrite app_nil_r.
  - cbn [fold_left].
    destruct (IH (snd (insert_category db n c t))) as [T [added [C M]]].
    split; [exact T|].
    exists (mkCategory (new_rowid (map c_id (categories db))) n c t :: added).
    split.
    + rewrite C. cbn [insert_category snd categories]. now rewrite <- app_assoc.
    + simpl. unfold triple_of at 1. simpl. now rewrite M.
Qed.

Lemma count_type_app (ty : string) (l l' : list category) :
  count_type ty (l ++ l') = (count_type ty l + count_type ty l')%nat.
Proof. unfold count_type. now rewrite filter_app, length_app. Qed.

Lemma count_type_triples (ty : string) (l : list category) :
  count_type ty l
  = List.length (filter (fun r : string * string * string => String.eqb (snd r) ty)
                        (map triple_of l)).
Proof.
  unfold count_type. induction l as [|c l IH]; simpl; [reflexivity|].
  destruct (String.eqb (c_type c) ty); simpl; now rewrite IH.
Qed.

(** What [init_db] adds. *)
Lemma init_db_adds (db : database) :
  (exists added,
      categories (init_db db) = categories db ++ added
      /\ map triple_of added
         = (if Nat.eqb (count_type "expense" (categories db)) 0
            then expense_categories else [])
           ++ (if Nat.eqb (count_type "income" (categories db)) 0
               then income_categories else []))
  /\ transactions (init_db db) = transactions db.
Proof.
  unfold init_db, create_default_categories.
  destruct (Nat.eqb (count_type "expense" (categories db)) 0) eqn:E.
  - destruct (insert_categories_spec expense_categories db) as [T1 [a1 [C1 M1]]].
    assert (I : count_type "income" (categories (insert_categories db expense_categories))
                = count_type "income" (categories db)).
    { rewrite C1, count_type_app, (count_type_triples "income" a1), M1. simpl. lia. }
    rewrite I.
    destruct (Nat.eqb (count_type "income" (categories db)) 0) eqn:In.
    + destruct (insert_categories_spec income_categories
                  (insert_categories db expense_categories)) as [T2 [a2 [C2 M2]]].
      split; [|congruence].
      exists (a1 ++ a2). split.
      * rewrite C2, C1. now rewrite app_assoc.
      * now rewrite map_app, M1, M2.
    + split; [|exact T1]. exists a1. split; [exact C1|]. now rewrite M1, app_nil_r.
  - destruct (Nat.eqb (count_type "income" (categories db)) 0) eqn:In.
    + destruct (insert_categories_spec income_categories db) as [T2 [a2 [C2 M2]]].
      split; [|exact T2]. exists a2. split; [exact C2|exact M2].
    + split; [|reflexivity]. exists []. split; [now rewrite app_nil_r | reflexivity].
Qed.

(** X4.  [init_db] appends to the categories and writes nothing else: it
    adds the eight default expense categories exactly when the table holds
    no expense category, and the five default income categories exactly
    when it holds no income category, each check apart from the other.
    Afterwards both types are present, and a second [init_db] changes
    nothing. *)
Theorem init_db_seeds_each_type_once :
  forall (db : database),
    (exists added,
        categories (init_db db) = categories db ++ added
        /\ map triple_of added
           = (if Nat.eqb (count_type "expense" (categories db)) 0
              then expense_categories else [])
             ++ (if Nat.eqb (count_type "income" (categories db)) 0
                 then income_categories else []))
    /\ transactions (init_db db) = transactions db
    /\ (0 < count_type "expense" (categories (init_db db)))%nat
    /\ (0 < count_type "income" (categories (init_db db)))%nat
    /\ init_db (init_db db) = init_db db.
Proof.
  intros db.
  destruct (init_db_adds db) as [[added [C M]] T].
  assert (Pe : (0 < count_type "expense" (categories (init_db db)))%nat).
  { rewrite C, count_type_app, (count_type_triples "expense" added), M.
    destruct (Nat.eqb (count_type "expense" (categories db)) 0) eqn:E.
    - rewrite filter_app, length_app. simpl. lia.
    - apply Nat.eqb_neq in E. lia. }
  assert (Pi : (0 < count_type "income" (categories (init_db db)))%nat).
  { rewrite C, count_type_app, (count_type_triples "income" added), M.
    destruct (Nat.eqb (count_type "income" (categories db)) 0) eqn:E.
    - rewrite filter_app, length_app.
      destruct (Nat.eqb (count_type "expense" (categories db)) 0); simpl; lia.
    - apply Nat.eqb_neq in E. lia. }
  split; [exists added; auto|]. split; [exact T|]. split; [exact Pe|]. split; [exact Pi|].
  unfold init_db at 1. unfold create_default_categories.
  destruct (Nat.eqb (count_type "expense" (categories (init_db db))) 0) eqn:E;
    [apply Nat.eqb_eq in E; lia|].
  destruct (Nat.eqb (count_type "income" (categories (init_db db))) 0) eqn:I;
    [apply Nat.eqb_eq in I; lia|].
  reflexivity.
Qed.

(** X5.  The command-line store seeds a table only when it holds no
    category at all, and then as [Database.init_db] does; on any other table
    it adds nothing, also when one of the two types is missing, where
    [Database.init_db] adds that type's defaults. *)
Theorem simple_init_db_seeds_empty_table_only :
  forall (db : database),
    (categories db = [] -> simple_init_db db = init_db db)
    /\ (categories db <> [] -> simple_init_db db = db)
    /\ (categories db <> [] ->
        count_type "expense" (categories db) = 0%nat ->
        count_type "expense" (categories (simple_init_db db)) = 0%nat
        /\ count_type "expense" (categories (init_db db)) = 8%nat).
Proof.
  intros db. split; [|split].
  - intros E. unfold simple_init_db, simple_create_default_categories, init_db,
      create_default_categories. rewrite E.
    change (count_type "expense" []) with 0%nat.
    change (List.length (@nil category)) with 0%nat. cbn [Nat.eqb].
    destruct (insert_categories_spec expense_categories db) as [_ [a1 [C1 M1]]].
    assert (I : count_type "income" (categories (insert_categories db expense_categories))
                = 0%nat).
    { rewrite C1, E, count_type_app, (count_type_triples "income" a1), M1. reflexivity. }
    rewrite I. reflexivity.
  - intros N. unfold simple_init_db, simple_create_default_categories.
    destruct (categories db) eqn:E; [congruence | reflexivity].
  - intros N Z.
    assert (S : simple_init_db db = db).
    { unfold simple_init_db, simple_create_default_categories.
      destruct (categories db) eqn:E; [congruence | reflexivity]. }
    rewrite S. split; [exact Z|].
    destruct (init_db_adds db) as [[added [C M]] _].
    rewrite C, count_type_app, (count_type_triples "expense" added), M, Z. simpl.
    destruct (Nat.eqb (count_type "income" (categories db)) 0); reflexivity.
Qed.

(** ** Primary keys *)

Lemma StronglySorted_snoc {A : Type} (R : A -> A -> Prop) (l : list A) (y : A) :
  StronglySorted R l -> Forall (fun x => R x y) l -> StronglySorted R (l ++ [y]).
Proof.
  induction 1 as [|x l S IH F]; intros H; simpl.
  - repeat constructor.
  - inversion H as [|x' l' Hx Hl E]; subst.
    constructor; [now apply IH|].
    apply Forall_app. split; [exact F | now constructor].
Qed.

Lemma StronglySorted_map_filter {A B : Type} (R : B -> B -> Prop) (f : A -> B)
    (p : A -> bool) (l : list A) :
  StronglySorted R (map f l) -> StronglySorted R (map f (filter p l)).
Proof.
  induction l as [|x l IH]; simpl; intros S; [constructor|].
  inversion S as [|y l' S' F E]; subst.
  destruct (p x); simpl; [|now apply IH].
  constructor; [now apply IH|].
  rewrite Forall_forall in *. intros b Hb. apply F.
  apply in_map_iff in Hb. destruct Hb as [a [<- Ha]].
  apply in_map. apply filter_In in Ha. tauto.
Qed.

Lemma new_rowid_sorted (ids : list Z) :
  StronglySorted Z.lt ids -> StronglySorted Z.lt (ids ++ [new_rowid ids]).
Proof.
  intros S. apply StronglySorted_snoc; [exact S|].
  apply Forall_forall. intros i Hi. now apply new_rowid_fresh.
Qed.

Lemma StronglySorted_lt_NoDup (ids : list Z) : StronglySorted Z.lt ids -> NoDup ids.
Proof.
  induction 1 as [|x l S IH F]; constructor; [|exact IH].
  intros Hin. rewrite Forall_forall in F. specialize (F x Hin). lia.
Qed.

Lemma insert_categories_ids (rows : list (string * string * string)) :
  forall db, ids_increasing db -> ids_increasing (insert_categories db rows).
Proof.
  unfold insert_categories.
  induction rows as [|[[n c] t] rows IH]; intros db H; [exact H|].
  cbn [fold_left]. apply IH. destruct H as [Hc Ht].
  split; cbn [insert_category snd categories transactions]; [|exact Ht].
  rewrite map_app. cbn [map c_id]. now apply new_rowid_sorted.
Qed.

Lemma run_operation_ids (env : environment) (db : database) (op : operation) :
  ids_increasing db -> ids_increasing (run_operation env db op).
Proof.
  intros [Hc Ht]. destruct op; cbn [run_operation].
  - unfold init_db, create_default_categories.
    destruct (Nat.eqb (count_type "expense" (categories db)) 0);
      destruct (Nat.eqb (count_type "income" _) 0);
      repeat apply insert_categories_ids; now split.
  - unfold add_category. destruct (find _ (categories db)); [now split|].
    split; cbn [insert_category snd categories transactions]; [|exact Ht].
    rewrite map_app. cbn [map c_id]. now apply new_rowid_sorted.
  - split; cbn [update_category snd categories transactions]; [|exact Ht].
    rewrite map_map.
    replace (map _ (categories db)) with (map c_id (categories db)); [exact Hc|].
    apply map_ext. intros c. now destruct (Z.eqb (c_id c) category_id0).
  - split; cbn [delete_category snd categories transactions].
    + now apply StronglySorted_map_filter.
    + rewrite map_map.
      replace (map _ (transactions db)) with (map t_id (transactions db)); [exact Ht|].
      apply map_ext. intros t. now destruct (references category_id0 t).
  - unfold add_transaction.
    destruct (valid_type transaction_type); cbn [negb]; [|now split].
    destruct (Qle_bool amount 0); [now split|].
    split; cbn [snd categories transactions]; [exact Hc|].
    rewrite map_app. cbn [map t_id]. now apply new_rowid_sorted.
  - unfold update_transaction.
    destruct (valid_type transaction_type); cbn [negb]; [|now split].
    destruct (Qle_bool amount 0); [now split|].
    destruct (match date with DateStr s => strptime env s | DateObj d => Some d end);
      [|now split].
    split; cbn [snd categories transactions]; [exact Hc|].
    rewrite map_map.
    replace (map _ (transactions db)) with (map t_id (transactions db)); [exact Ht|].
    apply map_ext. intros t. now destruct (Z.eqb (t_id t) transaction_id).
  - split; cbn [delete_transaction snd categories transactions]; [exact Hc|].
    now apply StronglySorted_map_filter.
Qed.

Lemma empty_database_ids : ids_increasing empty_database.
Proof. split; constructor. Qed.

(** X6.  The primary keys stay distinct: when the ids of both tables
    increase along the rows, they still do after any history of
    operations, so no two rows of a table share an id.  A new database is
    such a state. *)
Theorem histories_keep_ids_distinct :
  forall (env : environment) (db : database) (history : list operation),
    ids_increasing db ->
    ids_increasing (run env db history)
    /\ NoDup (map c_id (categories (run env db history)))
    /\ NoDup (map t_id (transactions (run env db history))).
Proof.
  intros env db history H.
  assert (I : ids_increasing (run env db history)).
  { unfold run. revert db H. induction history as [|op history IH]; intros db H;
      simpl; [exact H|].
    apply IH. now apply run_operation_ids. }
  split; [exact I|]. destruct I as [Ic It].
  split; now apply StronglySorted_lt_NoDup.
Qed.

Lemma histories_keep_ids_distinct_witness :
  ids_increasing (run example_env fresh_database
                      [AddCategory "Travel" "#123456" "expense";
                       AddTransaction (mkDatetime 2024 3 15) 40 (Some 14%Z) "bus"
                                      "expense" None;
                       DeleteCategory 2; InitDb])
  /\ NoDup (map c_id (categories (run example_env fresh_database
                      [AddCategory "Travel" "#123456" "expense";
                       AddTransaction (mkDatetime 2024 3 15) 40 (Some 14%Z) "bus"
                                      "expense" None;
                       DeleteCategory 2; InitDb])))
  /\ NoDup (map t_id (transactions (run example_env fresh_database
                      [AddCategory "Travel" "#123456" "expense";
                       AddTransaction (mkDatetime 2024 3 15) 40 (Some 14%Z) "bus"
                                      "expense" None;
                       DeleteCategory 2; InitDb]))).
Proof.
  apply histories_keep_ids_distinct.
  apply (run_operation_ids example_env empty_database InitDb), empty_database_ids.
Defined.

(** ** Categories: insert, update, look up, list *)

Lemma find_category_by_id (cats : list category) (e : category) :
  NoDup (map c_id cats) -> In e cats ->
  find (fun c => Z.eqb (c_id c) (c_id e)) cats = Some e.
Proof.
  induction cats as [|c cats IH]; intros N Hin; [destruct Hin|].
  inversion N as [|x l Hc N' E]; subst. simpl.
  destruct (Z.eqb (c_id c) (c_id e)) eqn:Q.
  - destruct Hin as [->|Hin]; [reflexivity|].
    exfalso. apply Hc. apply Z.eqb_eq in Q. rewrite Q. now apply in_map.
  - destruct Hin as [->|Hin]; [now rewrite Z.eqb_refl in Q | now apply IH].
Qed.

Lemma find_category_fresh (cats : list category) (id : Z) :
  (forall c, In c cats -> c_id c <> id) ->
  find (fun c => Z.eqb (c_id c) id) cats = None.
Proof.
  intros H. destruct (find _ cats) as [c|] eqn:F; [|reflexivity].
  apply find_some in F. destruct F as [Hin E].
  apply Z.eqb_eq in E. now apply H in Hin.
Qed.

(** X7.  A category that [add_category] answers with can be read back
    under the returned id, with the name and type that were passed.  Its
    color is the one passed when the pair was new; when the pair had a row,
    that row comes back as it was and the color passed is dropped. *)
Theorem add_category_then_get_category_by_id :
  forall (db : database) (name color category_type : string),
    NoDup (map c_id (categories db)) ->
    exists id c,
      fst (add_category db name color category_type) = Some id
      /\ get_category_by_id (snd (add_category db name color category_type)) id = Some c
      /\ c_id c = id /\ c_name c = name /\ c_type c = category_type
      /\ (find (same_name_type name category_type) (categories db) = None ->
          c_color c = color /\ forall e, In e (categories db) -> c_id e <> id)
      /\ (forall e, find (same_name_type name category_type) (categories db) = Some e ->
                    c = e
                    /\ snd (add_category db name color category_type) = db).
Proof.
  intros db name color ty N. unfold add_category, get_category_by_id.
  destruct (find (same_name_type name ty) (categories db)) as [e|] eqn:F.
  - exists (c_id e), e. apply find_some in F as F'. destruct F' as [Hin S].
    apply same_name_type_iff in S. destruct S as [Sn St].
    cbn [fst snd].
    split; [reflexivity|]. split; [now apply find_category_by_id|].
    split; [reflexivity|]. split; [exact Sn|]. split; [exact St|].
    split; [discriminate|].
    intros e' E. injection E as <-. split; reflexivity.
  - set (id := new_rowid (map c_id (categories db))).
    assert (Fresh : forall e, In e (categories db) -> c_id e <> id).
    { intros e He E.
      pose proof (new_rowid_fresh (map c_id (categories db)) (c_id e)
                    (in_map c_id _ _ He)) as L.
      subst id. lia. }
    exists id, (mkCategory id name color ty).
    cbn [insert_category fst snd categories c_id c_name c_type c_color].
    split; [reflexivity|]. split.
    { rewrite find_app_r by (now apply find_category_fresh).
      cbn [find c_id]. fold id. now rewrite Z.eqb_refl. }
    split; [reflexivity|]. split; [reflexivity|]. split; [reflexivity|].
    split; [intros _; split; [reflexivity | exact Fresh] | discriminate].
Qed.

Lemma add_category_then_get_witness :
  exists id c,
    fst (add_category fresh_database "Food" "#000000" "expense") = Some id
    /\ get_category_by_id (snd (add_category fresh_database "Food" "#000000" "expense")) id
       = Some c
    /\ c_id c = id /\ c_name c = "Food" /\ c_type c = "expense"
    /\ (find (same_name_type "Food" "expense") (categories fresh_database) = None ->
        c_color c = "#000000"
        /\ forall e, In e (categories fresh_database) -> c_id e <> id)
    /\ (forall e, find (same_name_type "Food" "expense") (categories fresh_database)
                  = Some e ->
                  c = e
                  /\ snd (add_category fresh_database "Food" "#000000" "expense")
                     = fresh_database).
Proof.
  apply add_category_then_get_category_by_id.
  vm_compute. repeat (constructor; [simpl; intuition discriminate|]). constructor.
Defined.

Lemma find_map_update_category (id id' : Z) (f : category -> category)
    (cats : list category) :
  (forall c, c_id (f c) = c_id c) ->
  find (fun c => Z.eqb (c_id c) id')
       (map (fun c => if Z.eqb (c_id c) id then f c else c) cats)
  = option_map (fun c => if Z.eqb (c_id c) id then f c else c)
               (find (fun c => Z.eqb (c_id c) id') cats).
Proof.
  intros Hf. induction cats as [|c cats IH]; simpl; [reflexivity|].
  assert (E : c_id (if Z.eqb (c_id c) id then f c else c) = c_id c)
    by (destruct (Z.eqb (c_id c) id); auto).
  rewrite E. destruct (Z.eqb (c_id c) id'); [reflexivity | exact IH].
Qed.

(** X8.  [update_category] returns [True] exactly when a category has the
    id; otherwise it changes nothing.  It never touches a transaction, an
    id or a type: the category read back under the id has the new name and
    color and its old type, and every other id reads as before. *)
Theorem update_category_changes_name_and_color_only :
  forall (db : database) (category_id : Z) (name color : string),
    (fst (update_category db category_id name color) = true
     <-> exists c, In c (categories db) /\ c_id c = category_id)
    /\ (fst (update_category db category_id name color) = false ->
        snd (update_category db category_id name color) = db)
    /\ transactions (snd (update_category db category_id name color)) = transactions db
    /\ map c_id (categories (snd (update_category db category_id name color)))
       = map c_id (categories db)
    /\ map c_type (categories (snd (update_category db category_id name color)))
       = map c_type (categories db)
    /\ (forall c, get_category_by_id db category_id = Some c ->
          get_category_by_id (snd (update_category db category_id name color)) category_id
          = Some (mkCategory category_id name color (c_type c)))
    /\ (forall id, id <> category_id ->
          get_category_by_id (snd (update_category db category_id name color)) id
          = get_category_by_id db id).
Proof.
  intros db id name color.
  unfold update_category, get_category_by_id. cbn [fst snd categories transactions].
  assert (Ex : existsb (fun c => Z.eqb (c_id c) id) (categories db) = true
               <-> exists c, In c (categories db) /\ c_id c = id).
  { rewrite existsb_exists. split; intros [c [H1 H2]]; exists c;
      (split; [exact H1|]); now apply Z.eqb_eq. }
  split; [exact Ex|]. split; [|split; [reflexivity|split; [|split; [|split]]]].
  - intros Hf. clear Ex. destruct db as [cats txs].
    cbn [categories transactions] in *. f_equal.
    induction cats as [|c cats IH]; simpl in *; [reflexivity|].
    apply orb_false_iff in Hf. destruct Hf as [H1 H2]. rewrite H1. f_equal. now apply IH.
  - rewrite map_map. apply map_ext. intros c. now destruct (Z.eqb (c_id c) id).
  - rewrite map_map. apply map_ext. intros c. now destruct (Z.eqb (c_id c) id).
  - intros c F. rewrite find_map_update_category by reflexivity.
    rewrite F. cbn [option_map]. apply find_some in F. destruct F as [_ E].
    rewrite E. apply Z.eqb_eq in E. now rewrite E.
  - intros id' Hne. rewrite find_map_update_category by reflexivity.
    destruct (find (fun c => Z.eqb (c_id c) id') (categories db)) as [c|] eqn:F;
      [|reflexivity].
    cbn [option_map]. apply find_some in F. destruct F as [_ E].
    apply Z.eqb_eq in E.
    destruct (Z.eqb (c_id c) id) eqn:Q; [|reflexivity].
    apply Z.eqb_eq in Q. congruence.
Qed.

Lemma type_name_asc_total (a b : category) :
  type_name_asc a b = true \/ type_name_asc b a = true.
Proof.
  unfold type_name_asc. rewrite (String.eqb_sym (c_type b)).
  destruct (String.eqb (c_type a) (c_type b)); apply String.leb_total.
Qed.

Lemma type_name_asc_trans (a b c : category) :
  type_name_asc a b = true -> type_name_asc b c = true -> type_name_asc a c = true.
Proof.
  unfold type_name_asc.
  destruct (String.eqb (c_type a) (c_type b)) eqn:Eab;
    destruct (String.eqb (c_type b) (c_type c)) eqn:Ebc;
    intros H1 H2.
  - apply String.eqb_eq in Eab, Ebc.
    replace (String.eqb (c_type a) (c_type c)) with true
      by (symmetry; apply String.eqb_eq; congruence).
    eapply string_leb_trans; eauto.
  - apply String.eqb_eq in Eab. rewrite Eab, Ebc. exact H2.
  - apply String.eqb_eq in Ebc. rewrite <- Ebc, Eab. exact H1.
  - destruct (String.eqb (c_type a) (c_type c)) eqn:Eac.
    + apply String.eqb_eq in Eac. rewrite <- Eac in H2.
      pose proof (String.leb_antisym _ _ H1 H2) as E.
      apply String.eqb_neq in Eab. contradiction.
    + eapply string_leb_trans; eauto.
Qed.

(** X9.  [get_categories] with a type returns the categories of that type,
    each once, in ascending order of name; without a type, or with the empty
    string, it returns all categories, in ascending order of type, those of
    one type in ascending order of name. *)
Theorem get_categories_sorted :
  forall (db : database),
    (forall ty, ty <> "" ->
        Permutation (filter (fun c => String.eqb (c_type c) ty) (categories db))
                    (get_categories db (Some ty))
        /\ StronglySorted (fun a b => String.leb (c_name a) (c_name b) = true)
                          (get_categories db (Some ty)))
    /\ Permutation (categories db) (get_categories db None)
    /\ StronglySorted
         (fun a b => String.leb (c_type a) (c_type b) = true
                     /\ (c_type a = c_type b -> String.leb (c_name a) (c_name b) = true))
         (get_categories db None)
    /\ get_categories db (Some "") = get_categories db None.
Proof.
  intros db. split; [|split; [|split]].
  - intros ty Hty. unfold get_categories.
    apply String.eqb_neq in Hty. rewrite Hty. split.
    + apply sort_by_perm.
    + apply (sort_by_sorted name_asc).
      * intros a b. apply String.leb_total.
      * intros a b c. apply string_leb_trans.
  - apply sort_by_perm.
  - unfold get_categories.
    eapply StronglySorted_impl;
      [|exact (sort_by_sorted type_name_asc type_name_asc_total type_name_asc_trans
                 (categories db))].
    intros a b. unfold type_name_asc.
    destruct (String.eqb (c_type a) (c_type b)) eqn:E; intros H.
    + apply String.eqb_eq in E. rewrite E. split; [apply string_leb_refl | auto].
    + apply String.eqb_neq in E. split; [exact H | contradiction].
  - reflexivity.
Qed.

(** ** Transactions: insert, update, delete, look up *)

(** The category a [category_id] argument joins. *)
Lemma joined_category_of_row (db : database) (t : transaction) :
  joined_category db t
  = match t_category_id t with
    | Some c => get_category_by_id db c
    | None => None
    end.
Proof. reflexivity. Qed.

Lemma find_transaction_other (l : list transaction) (row : transaction) (id : Z) :
  t_id row <> id ->
  find (fun t => Z.eqb (t_id t) id) (l ++ [row]) = find (fun t => Z.eqb (t_id t) id) l.
Proof.
  intros Hne. destruct (find (fun t => Z.eqb (t_id t) id) l) as [t|] eqn:F.
  - now apply find_app_l.
  - rewrite (find_app_r _ _ _ F). simpl.
    destruct (Z.eqb (t_id row) id) eqn:E; [|reflexivity].
    apply Z.eqb_eq in E. contradiction.
Qed.

(** X10.  A transaction that [add_transaction] accepts can be read back
    under the returned id: [get_transaction_by_id] gives the amount,
    category id, description and type that were passed, the formatted date,
    and the name and color of the category the id joins ([None] for none).
    Every other id reads as before. *)
Theorem add_transaction_then_get_transaction_by_id :
  forall (env : environment) (db : database) (amount : Q) (category_id : option Z)
         (description transaction_type : string) (date : option date_value),
    (0 < amount)%Q ->
    transaction_type = "income" \/ transaction_type = "expense" ->
    let result := add_transaction env db amount category_id description
                                  transaction_type date in
    let joined := match category_id with
                  | Some c => get_category_by_id db c
                  | None => None
                  end in
    exists id,
      fst result = Some id
      /\ get_transaction_by_id (snd result) id
         = Some (mkRecord id amount category_id
                          (option_map c_name joined) (option_map c_color joined)
                          (strftime env (prepare_date env date))
                          description transaction_type)
      /\ (forall id', id' <> id ->
            get_transaction_by_id (snd result) id' = get_transaction_by_id db id').
Proof.
  intros env db amount cid descr ty date A V result joined.
  set (id := new_rowid (map t_id (transactions db))).
  assert (R : result
              = (Some id,
                 {| categories := categories db;
                    transactions := transactions db ++
                      [mkTransaction id amount cid (strftime env (prepare_date env date))
                                     descr ty] |})).
  { subst result. unfold add_transaction.
    apply valid_type_iff in V. rewrite V. simpl.
    apply Qle_bool_false_iff in A. now rewrite A. }
  assert (Fresh : forall t, In t (transactions db) -> t_id t <> id).
  { intros t Hin E.
    pose proof (new_rowid_fresh (map t_id (transactions db)) (t_id t)
                  (in_map t_id _ _ Hin)) as L.
    subst id. lia. }
  exists id. rewrite R. cbn [fst snd]. split; [reflexivity|]. split.
  - unfold get_transaction_by_id. cbn [transactions].
    rewrite find_app_r by (now apply find_id_none).
    cbn [find t_id]. rewrite Z.eqb_refl. reflexivity.
  - intros id' Hne. unfold get_transaction_by_id. cbn [transactions].
    rewrite find_transaction_other by (cbn; congruence).
    destruct (find (fun t => Z.eqb (t_id t) id') (transactions db)); reflexivity.
Qed.

Lemma add_transaction_then_get_witness :
  exists id,
    fst (add_transaction example_env scenario 75 (Some 2%Z) "lunch" "expense"
                         (Some (DateStr "2024-02-03"))) = Some id
    /\ get_transaction_by_id
         (snd (add_transaction example_env scenario 75 (Some 2%Z) "lunch" "expense"
                               (Some (DateStr "2024-02-03")))) id
       = Some (mkRecord id 75 (Some 2%Z)
                        (option_map c_name (get_category_by_id scenario 2))
                        (option_map c_color (get_category_by_id scenario 2))
                        "2024-02-03" "lunch" "expense")
    /\ (forall id', id' <> id ->
          get_transaction_by_id
            (snd (add_transaction example_env scenario 75 (Some 2%Z) "lunch" "expense"
                                  (Some (DateStr "2024-02-03")))) id'
          = get_transaction_by_id scenario id').
Proof.
  apply (add_transaction_then_get_transaction_by_id example_env scenario 75 (Some 2%Z)
           "lunch" "expense" (Some (DateStr "2024-02-03"))).
  - reflexivity.
  - right. reflexivity.
Defined.

Lemma find_map_update_transaction (id id' : Z) (f : transaction -> transaction)
    (l : list transaction) :
  (forall t, t_id (f t) = t_id t) ->
  find (fun t => Z.eqb (t_id t) id')
       (map (fun t => if Z.eqb (t_id t) id then f t else t) l)
  = option_map (fun t => if Z.eqb (t_id t) id then f t else t)
               (find (fun t => Z.eqb (t_id t) id') l).
Proof.
  intros Hf. induction l as [|t l IH]; simpl; [reflexivity|].
  assert (E : t_id (if Z.eqb (t_id t) id then f t else t) = t_id t)
    by (destruct (Z.eqb (t_id t) id); auto).
  rewrite E. destruct (Z.eqb (t_id t) id'); [reflexivity | exact IH].
Qed.

(** X11.  [update_transaction] returns [True] exactly when the type is
    valid, the amount positive, the date accepted and a row has the id;
    otherwise the database is unchanged.  On success the row read back
    under the id holds the new amount, category, description, type and
    formatted date; the table keeps its length and every other id reads as
    before. *)
Theorem update_transaction_replaces_one_row :
  forall (env : environment) (db : database) (transaction_id : Z) (amount : Q)
         (category_id : option Z) (description : string) (date : date_value)
         (transaction_type : string),
    let result := update_transaction env db transaction_id amount category_id
                                     description date transaction_type in
    (fst result = true
     <-> (transaction_type = "income" \/ transaction_type = "expense")
         /\ (0 < amount)%Q
         /\ (exists d, update_date env date = Some d)
         /\ exists t, In t (transactions db) /\ t_id t = transaction_id)
    /\ (fst result = false -> snd result = db)
    /\ categories (snd result) = categories db
    /\ List.length (transactions (snd result)) = List.length (transactions db)
    /\ (fst result = true ->
        forall d, update_date env date = Some d ->
          get_transaction_by_id (snd result) transaction_id
          = Some (row_as_joined db
                    (mkTransaction transaction_id amount category_id (strftime env d)
                                   description transaction_type)))
    /\ (forall id, id <> transaction_id ->
          get_transaction_by_id (snd result) id = get_transaction_by_id db id).
Proof.
  intros env db id amount cid descr date ty result.
  subst result. unfold update_transaction. fold (update_date env date).
  assert (Hit : forall l : list transaction,
             Nat.ltb 0 (List.length (filter (fun t => Z.eqb (t_id t) id) l)) = true
             <-> exists t, In t l /\ t_id t = id).
  { intros l. rewrite ltb_0_length_filter.
    split; intros [t [H1 H2]]; exists t; (split; [exact H1|]); now apply Z.eqb_eq. }
  destruct (valid_type ty) eqn:V; cbn [negb].
  2:{ cbn [fst snd]. repeat split; try reflexivity; try discriminate.
      intros [Hv _]. apply valid_type_iff in Hv. congruence. }
  apply valid_type_iff in V.
  destruct (Qle_bool amount 0) eqn:A.
  { cbn [fst snd]. repeat split; try reflexivity; try discriminate.
    intros [_ [Ha _]]. apply Qle_bool_false_iff in Ha. congruence. }
  apply Qle_bool_false_iff in A.
  destruct (update_date env date) as [d|] eqn:D.
  2:{ cbn [fst snd]. repeat split; try reflexivity; try discriminate.
      intros [_ [_ [[d Hd] _]]]. discriminate. }
  cbn [fst snd categories transactions].
  split; [|split; [|split; [reflexivity|split; [apply length_map|split]]]].
  - rewrite Hit. split; [intros H; repeat split; eauto | tauto].
  - intros Hf. destruct db as [cats txs]. cbn [categories transactions] in *. f_equal.
    apply map_id_when_false.
    destruct (filter (fun t => Z.eqb (t_id t) id) txs); [reflexivity | discriminate].
  - intros Ht d' Hd'. injection Hd' as <-.
    apply Hit in Ht. destruct Ht as [t [Hin Hid]].
    unfold get_transaction_by_id. cbn [transactions].
    rewrite find_map_update_transaction by reflexivity.
    destruct (find (fun t0 => Z.eqb (t_id t0) id) (transactions db)) as [t0|] eqn:F.
    + cbn [option_map]. apply find_some in F. destruct F as [_ E].
      rewrite E. apply Z.eqb_eq in E. rewrite E. reflexivity.
    + exfalso. apply (find_none _ _ F) in Hin. apply Z.eqb_neq in Hin. contradiction.
  - intros id' Hne. unfold get_transaction_by_id. cbn [transactions].
    rewrite find_map_update_transaction by reflexivity.
    destruct (find (fun t0 => Z.eqb (t_id t0) id') (transactions db)) as [t0|] eqn:F;
      [|reflexivity].
    cbn [option_map]. apply find_some in F. destruct F as [_ E]. apply Z.eqb_eq in E.
    destruct (Z.eqb (t_id t0) id) eqn:Q; [|reflexivity].
    apply Z.eqb_eq in Q. congruence.
Qed.

Lemma filter_all {A : Type} (p : A -> bool) (l : list A) :
  (forall x, In x l -> p x = true) -> filter p l = l.
Proof.
  induction l as [|x l IH]; intros H; simpl; [reflexivity|].
  rewrite (H x (or_introl eq_refl)). f_equal. apply IH. intros y Hy. apply H. now right.
Qed.

Lemma find_filter_other (l : list transaction) (id id' : Z) :
  id' <> id ->
  find (fun t => Z.eqb (t_id t) id') (filter (fun t => negb (Z.eqb (t_id t) id)) l)
  = find (fun t => Z.eqb (t_id t) id') l.
Proof.
  intros Hne. induction l as [|t l IH]; simpl; [reflexivity|].
  destruct (Z.eqb (t_id t) id) eqn:E; simpl.
  - apply Z.eqb_eq in E.
    destruct (Z.eqb (t_id t) id') eqn:E'; [apply Z.eqb_eq in E'; congruence | exact IH].
  - destruct (Z.eqb (t_id t) id'); [reflexivity | exact IH].
Qed.

(** X12.  [delete_transaction] returns [True] exactly when a row has the
    id; afterwards the id reads as absent, every other id reads as before,
    the categories are untouched, and a [False] result means nothing
    changed. *)
Theorem delete_transaction_removes_one_id :
  forall (db : database) (transaction_id : Z),
    let result := delete_transaction db transaction_id in
    (fst result = true <-> exists t, In t (transactions db) /\ t_id t = transaction_id)
    /\ (fst result = false -> snd result = db)
    /\ categories (snd result) = categories db
    /\ get_transaction_by_id (snd result) transaction_id = None
    /\ (forall id, id <> transaction_id ->
          get_transaction_by_id (snd result) id = get_transaction_by_id db id).
Proof.
  intros db id result. subst result. unfold delete_transaction.
  cbn [fst snd categories transactions].
  split; [|split; [|split; [reflexivity|split]]].
  - rewrite ltb_0_length_filter.
    split; intros [t [H1 H2]]; exists t; (split; [exact H1|]); now apply Z.eqb_eq.
  - intros Hf. destruct db as [cats txs]. cbn [categories transactions] in *. f_equal.
    apply filter_all. intros t Ht.
    destruct (Z.eqb (t_id t) id) eqn:E; [|reflexivity].
    exfalso.
    assert (X : In t (filter (fun t0 => Z.eqb (t_id t0) id) txs))
      by (apply filter_In; auto).
    destruct (filter (fun t0 => Z.eqb (t_id t0) id) txs); [destruct X | discriminate].
  - unfold get_transaction_by_id. cbn [transactions].
    destruct (find _ (filter _ (transactions db))) as [t|] eqn:F; [|reflexivity].
    apply find_some in F. destruct F as [Hin E].
    apply filter_In in Hin. destruct Hin as [_ Hn]. rewrite E in Hn. discriminate.
  - intros id' Hne. unfold get_transaction_by_id. cbn [transactions].
    now rewrite find_filter_other.
Qed.

(** X13.  Deleting the transaction that [add_transaction] has just returned
    restores the database as it was before the add. *)
Theorem add_then_delete_transaction_restores :
  forall (env : environment) (db : database) (amount : Q) (category_id : option Z)
         (description transaction_type : string) (date : option date_value),
    (0 < amount)%Q ->
    transaction_type = "income" \/ transaction_type = "expense" ->
    exists id,
      fst (add_transaction env db amount category_id description transaction_type date)
      = Some id
      /\ delete_transaction
           (snd (add_transaction env db amount category_id description
                                 transaction_type date)) id
         = (true, db).
Proof.
  intros env db amount cid descr ty date A V.
  set (id := new_rowid (map t_id (transactions db))).
  exists id. unfold add_transaction.
  apply valid_type_iff in V. rewrite V. cbn [negb].
  apply Qle_bool_false_iff in A. rewrite A. cbn [fst snd].
  split; [reflexivity|].
  assert (Fresh : forall t, In t (transactions db) -> Z.eqb (t_id t) id = false).
  { intros t Hin. apply Z.eqb_neq. intros E.
    pose proof (new_rowid_fresh (map t_id (transactions db)) (t_id t)
                  (in_map t_id _ _ Hin)) as L.
    subst id. lia. }
  unfold delete_transaction. cbn [categories transactions]. fold id.
  rewrite !filter_app. cbn [filter t_id]. rewrite Z.eqb_refl. cbn [negb].
  rewrite app_nil_r.
  assert (E1 : filter (fun t => Z.eqb (t_id t) id) (transactions db) = []).
  { destruct (filter (fun t => Z.eqb (t_id t) id) (transactions db)) as [|t l] eqn:F;
      [reflexivity|].
    assert (X : In t (filter (fun t => Z.eqb (t_id t) id) (transactions db)))
      by (rewrite F; now left).
    apply filter_In in X. destruct X as [Hin E]. rewrite (Fresh t Hin) in E. discriminate. }
  rewrite E1.
  rewrite filter_all by (intros t Ht; now rewrite (Fresh t Ht)).
  destruct db. reflexivity.
Qed.

Lemma add_then_delete_transaction_witness :
  exists id,
    fst (add_transaction example_env scenario 75 None "lunch" "expense" None) = Some id
    /\ delete_transaction
         (snd (add_transaction example_env scenario 75 None "lunch" "expense" None)) id
       = (true, scenario).
Proof.
  apply add_then_delete_transaction_restores.
  - reflexivity.
  - right. reflexivity.
Defined.

(** ** Balance and the dashboard *)

(** X14.  [delete_category] and [update_category] leave the balance exactly
    as it was; [delete_category] rewrites the transactions that referenced
    the category, but neither their amounts nor their types nor their order.
    An accepted income is added last to the income amounts that
    [get_balance] sums and leaves the expense amounts as they are, and an
    accepted expense likewise. *)
Theorem balance_after_writes :
  forall (env : environment) (db : database),
    get_balance db
    = (total_or_zero (sql_sum (amounts_of "income" db))
       - total_or_zero (sql_sum (amounts_of "expense" db)))%Q
    /\ (forall id, amounts_of "income" (snd (delete_category db id)) = amounts_of "income" db
                   /\ amounts_of "expense" (snd (delete_category db id))
                      = amounts_of "expense" db
                   /\ get_balance (snd (delete_category db id)) = get_balance db)
    /\ (forall id name color,
          get_balance (snd (update_category db id name color)) = get_balance db)
    /\ (forall amount category_id description date,
          (0 < amount)%Q ->
          amounts_of "income" (snd (add_transaction env db amount category_id description
                                                    "income" date))
          = amounts_of "income" db ++ [amount]
          /\ amounts_of "expense" (snd (add_transaction env db amount category_id
                                                        description "income" date))
             = amounts_of "expense" db)
    /\ (forall amount category_id description date,
          (0 < amount)%Q ->
          amounts_of "expense" (snd (add_transaction env db amount category_id description
                                                     "expense" date))
          = amounts_of "expense" db ++ [amount]
          /\ amounts_of "income" (snd (add_transaction env db amount category_id
                                                       description "expense" date))
             = amounts_of "income" db).
Proof.
  intros env db.
  assert (E : forall id ty,
             amounts_of ty (snd (delete_category db id)) = amounts_of ty db).
  { intros id ty. unfold amounts_of, delete_category. cbn [snd transactions].
    induction (transactions db) as [|t l IH]; simpl; [reflexivity|].
    assert (H : has_type ty (if references id t then detach t else t) = has_type ty t)
      by (now destruct (references id t)).
    rewrite H. destruct (has_type ty t); simpl; [|exact IH].
    rewrite IH. now destruct (references id t). }
  split; [reflexivity|]. split; [|split; [|split]].
  - intros id. split; [apply E|]. split; [apply E|].
    unfold get_balance. fold (amounts_of "income" (snd (delete_category db id))).
    fold (amounts_of "expense" (snd (delete_category db id))).
    now rewrite !E.
  - intros id name color. unfold get_balance, update_category.
    destruct (existsb _ (categories db)); reflexivity.
  - intros amount cid descr date A. apply Qle_bool_false_iff in A.
    unfold amounts_of, add_transaction. cbn [valid_type String.eqb negb orb].
    simpl (negb _). rewrite A. cbn [snd transactions].
    rewrite !filter_app, !map_app. simpl. split; [reflexivity | apply app_nil_r].
  - intros amount cid descr date A. apply Qle_bool_false_iff in A.
    unfold amounts_of, add_transaction.
    simpl (negb _). rewrite A. cbn [snd transactions].
    rewrite !filter_app, !map_app. simpl. split; [reflexivity | apply app_nil_r].
Qed.



(** ** After a category is deleted *)

(** X18.  After [delete_category] the id reads as absent, no transaction
    is listed under it, and every transaction that referenced it is listed
    by [get_all_transactions] with no category id, the name 'Без категории'
    and the color '#607D8B'. *)
Theorem deleted_category_leaves_uncategorized :
  forall (db : database) (category_id : Z),
    let db' := snd (delete_category db category_id) in
    get_category_by_id db' category_id = None
    /\ get_transactions_by_category db' category_id = []
    /\ (forall t, In t (transactions db) -> references category_id t = true ->
          In (mkRecord (t_id t) (t_amount t) None (Some uncategorized_name)
                       (Some default_color) (t_date t) (t_description t) (t_type t))
             (get_all_transactions db')).
Proof.
  intros db id db'. subst db'. unfold delete_category.
  split; [|split].
  - unfold get_category_by_id. cbn [snd categories].
    destruct (find _ (filter _ (categories db))) as [c|] eqn:F; [|reflexivity].
    apply find_some in F. destruct F as [Hin E].
    apply filter_In in Hin. destruct Hin as [_ Hn]. rewrite E in Hn. discriminate.
  - unfold get_transactions_by_category, select_newest_first. cbn [snd transactions].
    assert (E : forall l,
               filter (references id)
                      (map (fun t => if references id t then detach t else t) l) = []).
    { induction l as [|t l IH]; simpl; [reflexivity|].
      destruct (references id t) eqn:R; simpl; [exact IH | now rewrite R]. }
    now rewrite E.
  - intros t Hin R. unfold get_all_transactions.
    apply in_map_iff. exists (detach t). split.
    + reflexivity.
    + unfold select_newest_first. apply sort_by_In, filter_In. split; [|reflexivity].
      cbn [snd transactions]. apply in_map_iff. exists t. now rewrite R.
Qed.

(** ** Date bounds *)

Lemma date_condition_empty_start (env : environment) (end_date : option date_value)
    (t : transaction) :
  date_condition env (Some (DateStr "")) end_date t = date_condition env None end_date t.
Proof. reflexivity. Qed.

Lemma date_condition_empty_end (env : environment) (start_date : option date_value)
    (t : transaction) :
  date_condition env start_date (Some (DateStr "")) t
  = date_condition env start_date None t.
Proof.
  unfold date_condition. cbn [truthy String.eqb negb].
  rewrite !orb_false_r, !andb_false_r. reflexivity.
Qed.

(** X19.  In the three aggregate queries an empty string as a date bound is
    no bound: the result is the one without that bound. *)
Theorem empty_date_bound_is_no_bound :
  forall (env : environment) (db : database) (ty : string)
         (start_date end_date : option date_value),
    sum_by_category env db ty (Some (DateStr "")) end_date
    = sum_by_category env db ty None end_date
    /\ sum_by_category env db ty start_date (Some (DateStr ""))
       = sum_by_category env db ty start_date None
    /\ get_transactions_by_month env db (Some (DateStr "")) end_date
       = get_transactions_by_month env db None end_date
    /\ get_transactions_by_month env db start_date (Some (DateStr ""))
       = get_transactions_by_month env db start_date None.
Proof.
  intros env db ty s e.
  assert (F : filter (date_condition env s (Some (DateStr ""))) (transactions db)
              = filter (date_condition env s None) (transactions db))
    by (apply filter_ext, date_condition_empty_end).
  assert (G : filter (fun t => has_type ty t
                               && date_condition env s (Some (DateStr "")) t)
                     (transactions db)
              = filter (fun t => has_type ty t && date_condition env s None t)
                       (transactions db)).
  { apply filter_ext. intros t. now rewrite date_condition_empty_end. }
  split; [reflexivity|]. split; [|split; [reflexivity|]].
  - unfold sum_by_category. now rewrite G.
  - unfold get_transactions_by_month, month_rows. now rewrite F.
Qed.

Lemma string_leb_false_between (lo hi : string) (t : transaction) :
  String.leb lo hi = false -> between lo hi t = false.
Proof.
  intros H. unfold between.
  destruct (String.leb lo (t_date t)) eqn:A; [|reflexivity].
  destruct (String.leb (t_date t) hi) eqn:B; [|reflexivity].
  rewrite (string_leb_trans _ _ _ A B) in H. discriminate.
Qed.

Lemma filter_none {A : Type} (p : A -> bool) (l : list A) :
  (forall x, p x = false) -> filter p l = [].
Proof.
  intros H. induction l as [|x l IH]; simpl; [reflexivity|]. now rewrite H.
Qed.

(** X20.  Bounds in the wrong order select nothing: when the start text is
    after the end text, the listing by date range and the category totals
    are empty and the monthly totals are the empty list. *)
Theorem inverted_date_bounds_select_nothing :
  forall (env : environment) (db : database) (ty lo hi : string),
    lo <> "" -> hi <> "" -> String.leb lo hi = false ->
    get_transactions_by_date_range env db (DateStr lo) (Some (DateStr hi)) = []
    /\ sum_by_category env db ty (Some (DateStr lo)) (Some (DateStr hi)) = []
    /\ get_transactions_by_month env db (Some (DateStr lo)) (Some (DateStr hi)) = Some [].
Proof.
  intros env db ty lo hi Hlo Hhi H.
  apply String.eqb_neq in Hlo, Hhi.
  assert (C : forall t, date_condition env (Some (DateStr lo)) (Some (DateStr hi)) t
                        = false).
  { intros t. unfold date_condition. cbn [truthy]. rewrite Hlo, Hhi. cbn.
    now apply string_leb_false_between. }
  split; [|split].
  - unfold get_transactions_by_date_range, select_newest_first. cbn [bound_text].
    rewrite filter_none by (intros t; now apply string_leb_false_between).
    reflexivity.
  - unfold sum_by_category.
    rewrite filter_none by (intros t; rewrite C; apply andb_false_r). reflexivity.
  - unfold get_transactions_by_month, month_rows.
    rewrite filter_none by exact C. reflexivity.
Qed.

Lemma inverted_date_bounds_witness :
  get_transactions_by_date_range example_env scenario (DateStr "2024-02-01")
                                 (Some (DateStr "2024-01-01")) = []
  /\ sum_by_category example_env scenario "expense" (Some (DateStr "2024-02-01"))
                     (Some (DateStr "2024-01-01")) = []
  /\ get_transactions_by_month example_env scenario (Some (DateStr "2024-02-01"))
                               (Some (DateStr "2024-01-01")) = Some [].
Proof.
  apply inverted_date_bounds_select_nothing; [discriminate | discriminate | reflexivity].
Defined.

(** ** The listing of the command-line store *)

(** X21.  [SimpleDatabase.get_transactions] returns what the listings of
    [Database] return: all transactions without arguments, those of a type
    with a type only, those of a date range with both dates only.  *)
Theorem simple_get_transactions_agrees :
  forall (env : environment) (db : database),
    simple_get_transactions db None None None = get_all_transactions db
    /\ (forall ty, ty <> "" ->
          simple_get_transactions db (Some ty) None None
          = get_transactions_by_type db ty)
    /\ (forall lo hi, lo <> "" -> hi <> "" ->
          simple_get_transactions db None (Some lo) (Some hi)
          = get_transactions_by_date_range env db (DateStr lo) (Some (DateStr hi))).
Proof.
  intros env db.
  assert (X : forall p q : transaction -> bool,
             (forall t, p t = q t) ->
             map (row_with_defaults db) (select_newest_first db p)
             = map (row_with_defaults db) (select_newest_first db q)).
  { intros p q H. unfold select_newest_first. now rewrite (filter_ext _ _ H). }
  split; [|split].
  - apply X. reflexivity.
  - intros ty Hty. apply X. intros t. unfold simple_conditions. cbn [given text_of].
    apply String.eqb_neq in Hty. rewrite Hty. cbn. now rewrite !andb_true_r.
  - intros lo hi Hlo Hhi. apply X. intros t. unfold simple_conditions, between.
    cbn [given text_of bound_text].
    apply String.eqb_neq in Hlo, Hhi. rewrite Hlo, Hhi. reflexivity.
Qed.

(** ** The filters of the transactions tab *)



(** * Further properties of the reports *)

Lemma same_name_true (a b : option string) : same_name a b = true <-> a = b.
Proof.
  destruct a as [x|], b as [y|]; simpl; try (split; congruence).
  rewrite String.eqb_eq. split; congruence.
Qed.

Lemma same_name_refl (a : option string) : same_name a a = true.
Proof. now apply same_name_true. Qed.

Lemma option_eq_dec_string (a b : option string) : {a = b} + {a <> b}.
Proof. decide equality. apply string_dec. Defined.

Lemma add_amount_keys (n : option string) (a : Q) (d : list (option string * Q)) :
  (In n (map fst d) -> map fst (add_amount n a d) = map fst d)
  /\ (~ In n (map fst d) -> map fst (add_amount n a d) = map fst d ++ [n]).
Proof.
  induction d as [|[k v] d [IH1 IH2]]; simpl.
  - split; [intros []|reflexivity].
  - destruct (same_name k n) eqn:E; simpl.
    + apply same_name_true in E. split; [reflexivity|]. intros H. exfalso. auto.
    + split; intros H.
      * destruct H as [->|H]; [now rewrite same_name_refl in E|]. now rewrite IH1.
      * rewrite IH2; [reflexivity|]. auto.
Qed.

Lemma add_amount_NoDup (n : option string) (a : Q) (d : list (option string * Q)) :
  NoDup (map fst d) -> NoDup (map fst (add_amount n a d)).
Proof.
  intros N. destruct (add_amount_keys n a d) as [K1 K2].
  destruct (in_dec (option_eq_dec_string) n (map fst d)) as [H|H].
  - now rewrite K1.
  - rewrite K2 by assumption. apply NoDup_app; [exact N | repeat constructor; intros [] |].
    intros x Hx [<-|[]]. contradiction.
Qed.

Lemma add_amount_In (n : option string) (a : Q) (d : list (option string * Q))
    (k : option string) :
  In k (map fst (add_amount n a d)) <-> k = n \/ In k (map fst d).
Proof.
  destruct (add_amount_keys n a d) as [K1 K2].
  destruct (in_dec (option_eq_dec_string) n (map fst d)) as [H|H].
  - rewrite K1 by assumption. split; [auto|]. intros [->|H']; assumption.
  - rewrite K2 by assumption. rewrite in_app_iff. simpl. split.
    + intros [H'|[<-|[]]]; auto.
    + intros [->|H']; auto.
Qed.

Lemma add_amount_under (n : option string) (a : Q) (d : list (option string * Q))
    (k : option string) :
  amount_under k (add_amount n a d)
  = if same_name n k
    then Some (match amount_under n d with
               | Some v => (v + a)%Q
               | None => (0 + a)%Q
               end)
    else amount_under k d.
Proof.
  unfold amount_under. induction d as [|[x v] d IH]; simpl.
  - destruct (same_name n k); reflexivity.
  - destruct (same_name x n) eqn:E; simpl.
    + apply same_name_true in E. subst x.
      destruct (same_name n k); reflexivity.
    + destruct (same_name x k) eqn:K; simpl.
      * apply same_name_true in K. subst x.
        destruct (same_name n k) eqn:S; [|reflexivity].
        apply same_name_true in S. subst n. now rewrite same_name_refl in E.
      * exact IH.
Qed.

Lemma grouped_snoc (ty : string) (l : list transaction_record) (r : transaction_record) :
  grouped ty (l ++ [r])
  = if record_has_type ty r
    then add_amount (r_category_name r) (r_amount r) (grouped ty l)
    else grouped ty l.
Proof. unfold grouped. now rewrite fold_left_app. Qed.

Lemma py_sum_snoc (l : list Q) (a : Q) : py_sum (l ++ [a]) = (py_sum l + a)%Q.
Proof. unfold py_sum. now rewrite fold_left_app. Qed.

Lemma grouped_spec (ty : string) (l : list transaction_record) :
  NoDup (map fst (grouped ty l))
  /\ (forall k, In k (map fst (grouped ty l)) <->
        exists r, In r l /\ r_type r = ty /\ r_category_name r = k)
  /\ (forall k, amount_under k (grouped ty l)
                = match filter (named ty k) l with
                  | [] => None
                  | rs => Some (py_sum (map r_amount rs))
                  end).
Proof.
  induction l as [|r l [N [K V]]] using rev_ind.
  - split; [constructor|]. split; [|intros k; reflexivity].
    intros k. split; [intros [] | intros [r [[] _]]].
  - rewrite grouped_snoc.
    assert (T : record_has_type ty r = true <-> r_type r = ty)
      by (unfold record_has_type; apply String.eqb_eq).
    destruct (record_has_type ty r) eqn:E.
    + split; [now apply add_amount_NoDup|]. split.
      * intros k. rewrite add_amount_In, K. split.
        -- intros [->|[x [Hx H]]].
           ++ exists r. rewrite in_app_iff. simpl. intuition.
           ++ exists x. rewrite in_app_iff. tauto.
        -- intros [x [Hx [H1 H2]]]. apply in_app_iff in Hx.
           destruct Hx as [Hx|[<-|[]]]; [right; exists x; tauto | now left].
      * intros k. rewrite add_amount_under, filter_app. cbn [filter].
        unfold named at 2. rewrite E. cbn [andb].
        destruct (same_name (r_category_name r) k) eqn:S.
        -- apply same_name_true in S. rewrite S, (V k).
           destruct (filter (named ty k) l) as [|x rs]; [reflexivity|].
           rewrite <- app_comm_cons.
           change (x :: rs ++ [r]) with ((x :: rs) ++ [r]).
           rewrite map_app. cbn [map]. now rewrite py_sum_snoc.
        -- rewrite app_nil_r. apply V.
    + split; [exact N|]. split.
      * intros k. rewrite K. split.
        -- intros [x [Hx H]]. exists x. rewrite in_app_iff. tauto.
        -- intros [x [Hx [H1 H2]]]. apply in_app_iff in Hx.
           destruct Hx as [Hx|[<-|[]]]; [exists x; tauto|].
           apply T in H1. congruence.
      * intros k. rewrite filter_app. cbn [filter].
        unfold named at 2. rewrite E. cbn [andb]. rewrite app_nil_r. apply V.
Qed.

Lemma amount_under_unique (d : list (option string * Q)) (k : option string) (v : Q) :
  NoDup (map fst d) -> In (k, v) d -> amount_under k d = Some v.
Proof.
  unfold amount_under. induction d as [|[x w] d IH]; intros N Hin; [destruct Hin|].
  simpl in N. inversion N as [|x' l Hx N' E]; subst. simpl.
  destruct Hin as [Hin|Hin].
  - injection Hin as -> ->. now rewrite same_name_refl.
  - destruct (same_name x k) eqn:B.
    + apply same_name_true in B. subst x. exfalso. apply Hx.
      change k with (fst (k, v)). now apply in_map.
    + now apply IH.
Qed.

Lemma by_category_breakdown (ty : string) (selected : list transaction_record) :
  breakdown_of ty selected (by_category ty selected).
Proof.
  destruct (grouped_spec ty selected) as [N [K V]].
  assert (P : Permutation (grouped ty selected) (by_category ty selected))
    by apply sort_by_perm.
  split; [|split; [|split]].
  - eapply Permutation_NoDup; [|exact N]. now apply Permutation_map.
  - assert (R : StronglySorted (fun a b => amount_desc a b = true)
                               (by_category ty selected)).
    { apply sort_by_sorted.
      - intros a b. unfold amount_desc. rewrite !Qle_bool_iff.
        destruct (Qlt_le_dec (snd a) (snd b)) as [H|H]; [right|left]; auto.
        now apply Qlt_le_weak.
      - intros a b c. unfold amount_desc. rewrite !Qle_bool_iff.
        intros H1 H2. eapply Qle_trans; eauto. }
    eapply StronglySorted_impl; [|exact R].
    intros a b. unfold amount_desc. now rewrite Qle_bool_iff.
  - intros k. rewrite <- K. split; apply Permutation_in; apply Permutation_map;
      [symmetry|]; exact P.
  - intros k v Hin. apply (Permutation_in _ (Permutation_sym P)) in Hin.
    pose proof (amount_under_unique _ k v N Hin) as U. rewrite (V k) in U.
    destruct (filter (named ty k) selected); [discriminate|]. now injection U as <-.
Qed.

Lemma summarize_accounts_for (p : report_period) (selected : list transaction_record)
    (months : option (list (Z * month_data))) :
  accounts_for selected (summarize p selected months).
Proof.
  unfold accounts_for, summarize. cbn.
  split; [reflexivity|]. split; [reflexivity|]. split; [reflexivity|].
  split; [reflexivity|]. split; apply by_category_breakdown.
Qed.

(** X23.  Each of the three report builders accounts for the transactions
    it selects (those of the period, of the month, of the year): the count
    is their number, the totals are their amounts of a type added in the
    order of the list, the balance is income minus expense, and each
    by-category dictionary has one key per category name that occurs among
    them, holding the amounts under that name added in the order of the
    list, the largest first. *)
Theorem reports_account_for_selected :
  forall (env : environment) (f : text_format) (transactions : list transaction_record),
    (forall start_date end_date,
        accounts_for
          (filter (in_period (bound_text env start_date) (bound_text env end_date))
                  transactions)
          (generate_period_report env transactions start_date end_date))
    /\ (forall year month r,
          generate_monthly_report f transactions year month = Ok r ->
          accounts_for (filter (starts_with (year_month f year month)) transactions) r)
    /\ (forall year r,
          generate_annual_report f transactions year = Ok r ->
          accounts_for (filter (starts_with (fmt_int f year)) transactions) r).
Proof.
  intros env f txs. split; [|split].
  - intros s e. apply summarize_accounts_for.
  - intros y m r E. unfold generate_monthly_report in E.
    destruct (month_name_of f y m); [|discriminate].
    injection E as <-. apply summarize_accounts_for.
  - intros y r E. unfold generate_annual_report in E.
    destruct (annual_months f _ y months_1_12); [|discriminate].
    injection E as <-. apply summarize_accounts_for.
Qed.

Lemma annual_months_keys (f : text_format) (annual : list transaction_record) (year : Z)
    (months : list Z) (data : list (Z * month_data)) :
  annual_months f annual year months = Ok data -> map fst data = months.
Proof.
  revert data. induction months as [|m months IH]; intros data E; simpl in E.
  - now injection E as <-.
  - destruct (month_name_of f year m); [|discriminate].
    destruct (annual_months f annual year months) as [tail|]; [|discriminate].
    simpl in E. injection E as <-. simpl. now rewrite (IH tail).
Qed.

Lemma month_blocks_ok (f : text_format) (data : list (Z * month_data)) (months : list Z) :
  (forall m, In m months -> In m (map fst data)) ->
  exists text, month_blocks f data months = Ok text.
Proof.
  induction months as [|m months IH]; intros H; simpl; [eauto|].
  destruct (find (fun e => Z.eqb (fst e) m) data) as [e|] eqn:F.
  - destruct IH as [tail ->]; [intros x Hx; apply H; now right|]. simpl. eauto.
  - exfalso. assert (Hm : In m (map fst data)) by (apply H; now left).
    apply in_map_iff in Hm. destruct Hm as [e [E He]].
    apply (find_none _ _ F) in He. rewrite E, Z.eqb_refl in He. discriminate.
Qed.

Lemma text_report_ok (f : text_format) (r : report) :
  (forall data, monthly_data r = Some data ->
                forall m, In m months_1_12 -> In m (map fst data)) ->
  exists text, generate_text_report f r = Ok text.
Proof.
  intros H. unfold generate_text_report.
  destruct (category_section_ok f no_income_data (total_income r)
              (income_by_category r)) as [inc ->].
  destruct (category_section_ok f no_expense_data (total_expense r)
              (expenses_by_category r)) as [exp ->].
  cbn [bind].
  destruct (monthly_data r) as [data|]; [|cbn [bind]; eauto].
  destruct (month_blocks_ok f data months_1_12 (H data eq_refl)) as [text ->].
  cbn [bind]. eauto.
Qed.

(** X24.  Every report a builder returns renders: [generate_text_report]
    raises nothing on it.  A period or monthly report has no monthly data,
    and the monthly data of an annual report has the keys 1 to 12 that the
    rendering looks up. *)
Theorem built_reports_render :
  forall (env : environment) (f : text_format) (transactions : list transaction_record),
    (forall start_date end_date,
        exists text,
          generate_text_report f
            (generate_period_report env transactions start_date end_date) = Ok text)
    /\ (forall year month r,
          generate_monthly_report f transactions year month = Ok r ->
          exists text, generate_text_report f r = Ok text)
    /\ (forall year r,
          generate_annual_report f transactions year = Ok r ->
          option_map (map fst) (monthly_data r) = Some months_1_12
          /\ exists text, generate_text_report f r = Ok text).
Proof.
  intros env f txs. split; [|split].
  - intros s e. apply text_report_ok. intros data E. discriminate.
  - intros y m r E. unfold generate_monthly_report in E.
    destruct (month_name_of f y m); [|discriminate].
    injection E as <-. apply text_report_ok. intros data E. discriminate.
  - intros y r E. unfold generate_annual_report in E.
    destruct (annual_months f _ y months_1_12) as [data|] eqn:A; [|discriminate].
    cbn [bind] in E. injection E as <-. apply annual_months_keys in A.
    split; [cbn; now rewrite A|].
    apply text_report_ok. cbn. intros d D. injection D as <-. now rewrite A.
Qed.

(** * Properties of the entity models *)

(** X25.  A dictionary of the store survives [Transaction.from_dict]
    followed by [to_dict] when its date parses and formats back to itself,
    as the dates the store writes do; when the date does not parse, it comes
    back with today's date and is otherwise unchanged.  So every row listed
    from a store whose dates parse and format back comes back as it was.  A
    category dictionary always comes back as it was. *)
Theorem model_dictionaries_round_trip :
  forall (env : environment),
    (forall r d,
        strptime env (r_date r) = Some d -> strftime env d = r_date r ->
        Transaction_to_dict env (Transaction_from_dict env r) = as_dict r)
    /\ (forall r,
          strptime env (r_date r) = None ->
          Transaction_to_dict env (Transaction_from_dict env r)
          = with_date (strftime env (now env)) (as_dict r))
    /\ (forall db,
          Forall (fun t => exists d, strptime env (t_date t) = Some d
                                     /\ strftime env d = t_date t) (transactions db) ->
          forall r, In r (get_all_transactions db) ->
                    Transaction_to_dict env (Transaction_from_dict env r) = as_dict r)
    /\ (forall c,
          Category_to_dict (Category_from_dict c)
          = (Some (c_id c), c_name c, c_color c, c_type c)).
Proof.
  intros env.
  assert (A : forall r d,
             strptime env (r_date r) = Some d -> strftime env d = r_date r ->
             Transaction_to_dict env (Transaction_from_dict env r) = as_dict r).
  { intros r d P F. unfold Transaction_to_dict, Transaction_from_dict, as_dict.
    cbn. rewrite P, F. reflexivity. }
  split; [exact A|]. split; [|split].
  - intros r P. unfold Transaction_to_dict, Transaction_from_dict, as_dict, with_date.
    cbn. rewrite P. reflexivity.
  - intros db H r Hr. unfold get_all_transactions in Hr.
    apply in_map_iff in Hr. destruct Hr as [t [<- Ht]].
    apply sort_by_In, filter_In in Ht. destruct Ht as [Ht _].
    rewrite Forall_forall in H. destruct (H t Ht) as [d [P F]].
    apply (A _ d); assumption.
  - reflexivity.
Qed.

Lemma model_dictionaries_round_trip_witness :
  Forall (fun r => Transaction_to_dict example_env (Transaction_from_dict example_env r)
                   = as_dict r)
         (get_all_transactions scenario).
Proof.
  apply Forall_forall.
  apply (proj1 (proj2 (proj2 (model_dictionaries_round_trip example_env))) scenario).
  repeat constructor; eexists; split; reflexivity.
Defined.

(** * Properties of the settings *)

Import Settings.

Lemma getitem_setitem_same (k : string) (v : value) (d : pydict) :
  getitem k (setitem k v d) = Some v.
Proof.
  induction d as [|[x w] d IH]; simpl.
  - now rewrite String.eqb_refl.
  - destruct (String.eqb x k) eqn:E; simpl; rewrite E; auto.
Qed.

Lemma getitem_setitem_other (k k' : string) (v : value) (d : pydict) :
  k' <> k -> getitem k' (setitem k v d) = getitem k' d.
Proof.
  intros N. induction d as [|[x w] d IH]; simpl.
  - destruct (String.eqb_spec k k'); [congruence | reflexivity].
  - destruct (String.eqb_spec x k) as [->|E]; simpl.
    + destruct (String.eqb_spec k k'); [congruence | reflexivity].
    + destruct (String.eqb x k'); auto.
Qed.

Lemma store_length (a : nat) (d : pydict) (h : heap) :
  List.length (store a d h) = List.length h.
Proof.
  revert a. induction h as [|x h IH]; intros [|a]; simpl; auto.
Qed.

Lemma deref_store_same (a : nat) (d : pydict) (h : heap) :
  (a < List.length h)%nat -> deref (store a d h) a = d.
Proof.
  unfold deref. revert a. induction h as [|x h IH]; intros [|a] L; simpl in *;
    try lia; [reflexivity|]. apply IH. lia.
Qed.

Lemma deref_store_other (a a' : nat) (d : pydict) (h : heap) :
  a' <> a -> deref (store a d h) a' = deref h a'.
Proof.
  unfold deref. revert a a'. induction h as [|x h IH]; intros [|a] [|a'] N; simpl;
    try reflexivity; try congruence. apply IH. congruence.
Qed.

Lemma deref_app (a : nat) (h ext : heap) :
  (a < List.length h)%nat -> deref (h ++ ext) a = deref h a.
Proof. intros L. unfold deref. now apply app_nth1. Qed.

Lemma deref_new (h : heap) (d : pydict) : deref (h ++ [d]) (List.length h) = d.
Proof. unfold deref. apply nth_middle. Qed.

Lemma length_snoc (h : heap) (d : pydict) :
  List.length (h ++ [d]) = S (List.length h).
Proof. rewrite length_app. simpl. lia. Qed.

(** The heap [set] leaves when the section is a dictionary, and when the
    section is missing. *)
Lemma set_existing (h : heap) (a b : nat) (section key : string) (v : value) :
  getitem section (deref h a) = Some (DictRef b) ->
  set h (DictRef a) section key v = Returns (store b (setitem key v (deref h b)) h).
Proof. intros G. unfold set. now rewrite G, G. Qed.

Definition with_new_section (h : heap) (a : nat) (section key : string) (v : value)
  : heap :=
  store (List.length h) [(key, v)]
        (store a (setitem section (DictRef (List.length h)) (deref h a)) (h ++ [[]])).

Lemma set_missing (h : heap) (a : nat) (section key : string) (v : value) :
  (a < List.length h)%nat ->
  getitem section (deref h a) = None ->
  set h (DictRef a) section key v = Returns (with_new_section h a section key v).
Proof.
  intros L G. unfold set, with_new_section. rewrite G. cbn [allocate].
  rewrite (deref_app a h _ L).
  rewrite deref_store_same by (rewrite length_snoc; lia).
  rewrite getitem_setitem_same.
  rewrite deref_store_other by lia.
  rewrite deref_new. reflexivity.
Qed.

Lemma with_new_section_length (h : heap) (a : nat) (section key : string) (v : value) :
  List.length (with_new_section h a section key v) = S (List.length h).
Proof. unfold with_new_section. rewrite !store_length. apply length_snoc. Qed.

Lemma with_new_section_outer (h : heap) (a : nat) (section key : string) (v : value) :
  (a < List.length h)%nat ->
  deref (with_new_section h a section key v) a
  = setitem section (DictRef (List.length h)) (deref h a).
Proof.
  intros L. unfold with_new_section.
  rewrite deref_store_other by lia.
  apply deref_store_same. rewrite length_snoc. lia.
Qed.

Lemma with_new_section_inner (h : heap) (a : nat) (section key : string) (v : value) :
  deref (with_new_section h a section key v) (List.length h) = [(key, v)].
Proof.
  unfold with_new_section. apply deref_store_same.
  rewrite store_length, length_snoc. lia.
Qed.

Lemma with_new_section_other (h : heap) (a x : nat) (section key : string) (v : value) :
  (x < List.length h)%nat -> x <> a ->
  deref (with_new_section h a section key v) x = deref h x.
Proof.
  intros L N. unfold with_new_section.
  rewrite deref_store_other by lia.
  rewrite deref_store_other by exact N.
  now apply deref_app.
Qed.

(** X26.  A value that [set] stores is the value [get] returns: on
    settings whose section is missing or is a dictionary of its own, [set]
    succeeds (adding the section when it is missing), [get] then returns
    the value for that section and key, and the other keys of the section
    and the sections that are other dictionaries read as before. *)
Theorem set_then_get :
  forall (h : heap) (a : nat) (section key : string) (v default : value),
    (a < List.length h)%nat ->
    (forall x, getitem section (deref h a) = Some x ->
               exists b, x = DictRef b /\ (b < List.length h)%nat /\ b <> a) ->
    exists h',
      set h (DictRef a) section key v = Returns h'
      /\ get h' (DictRef a) section key default = Returns v
      /\ (forall key', key' <> key ->
            get h' (DictRef a) section key' default
            = get h (DictRef a) section key' default)
      /\ (forall section',
            section' <> section ->
            (forall b', getitem section' (deref h a) = Some (DictRef b') ->
                        (b' < List.length h)%nat /\ b' <> a
                        /\ getitem section (deref h a) <> Some (DictRef b')) ->
            forall key' default',
              get h' (DictRef a) section' key' default'
              = get h (DictRef a) section' key' default').
Proof.
  intros h a sec key v dflt La H.
  destruct (getitem sec (deref h a)) as [x|] eqn:G.
  - destruct (H x eq_refl) as [b [-> [Lb Nb]]].
    rewrite (set_existing h a b sec key v G).
    eexists. split; [reflexivity|].
    assert (Da : deref (store b (setitem key v (deref h b)) h) a = deref h a)
      by (apply deref_store_other; congruence).
    assert (Db : deref (store b (setitem key v (deref h b)) h) b
                 = setitem key v (deref h b))
      by (now apply deref_store_same).
    split; [|split].
    + unfold get. rewrite Da, G, Db, getitem_setitem_same. reflexivity.
    + intros key' N. unfold get. rewrite Da, G, Db.
      now rewrite getitem_setitem_other.
    + intros sec' N F key' dflt'. unfold get. rewrite Da.
      destruct (getitem sec' (deref h a)) as [[s|items|b']|] eqn:G'; try reflexivity.
      destruct (F b' eq_refl) as [Lb' [Nb' Nsec]].
      rewrite deref_store_other; [reflexivity|]. congruence.
  - rewrite (set_missing h a sec key v La G).
    eexists. split; [reflexivity|].
    split; [|split].
    + unfold get. rewrite with_new_section_outer by exact La.
      rewrite getitem_setitem_same, with_new_section_inner. cbn.
      now rewrite String.eqb_refl.
    + intros key' N. unfold get. rewrite with_new_section_outer by exact La.
      rewrite getitem_setitem_same, with_new_section_inner, G. cbn.
      destruct (String.eqb_spec key key'); [congruence | reflexivity].
    + intros sec' N F key' dflt'. unfold get.
      rewrite with_new_section_outer by exact La.
      rewrite getitem_setitem_other by exact N.
      destruct (getitem sec' (deref h a)) as [[s|items|b']|] eqn:G'; try reflexivity.
      destruct (F b' eq_refl) as [Lb' [Nb' _]].
      now rewrite with_new_section_other.
Qed.

Lemma set_then_get_witness :
  exists h',
    set (snd (load_settings Missing module_heap)) (fst (load_settings Missing module_heap))
        "interface" "theme" (Scalar (SString "Dark")) = Returns h'
    /\ get h' (fst (load_settings Missing module_heap)) "interface" "theme" (Scalar SNull)
       = Returns (Scalar (SString "Dark")).
Proof.
  destruct (set_then_get (snd (load_settings Missing module_heap)) 4
                         "interface" "theme" (Scalar (SString "Dark")) (Scalar SNull))
    as [h' [S [G _]]].
  - simpl. lia.
  - intros x E. injection E as <-. exists 1%nat. simpl. repeat split; lia.
  - exists h'. split; assumption.
Defined.

(** X27.  The section dictionaries of [DEFAULT_SETTINGS] are shared with
    every settings object made from the defaults.  After [set] on settings
    loaded without a readable file, [reset_to_defaults] does not bring the
    default back: for a section of the defaults, [get] still returns the
    value that was set, since the class attribute itself now holds it.  For
    a section the defaults do not have, [get] returns its default again. *)
Theorem set_on_defaults_survives_reset :
  forall (h : heap) (file : file_state) (section key : string) (v default : value),
    (DEFAULT_SETTINGS < List.length h)%nat ->
    (forall x, getitem section (deref h DEFAULT_SETTINGS) = Some x ->
               exists b, x = DictRef b /\ (b < List.length h)%nat
                         /\ b <> DEFAULT_SETTINGS) ->
    file = Missing \/ file = Unreadable ->
    exists h',
      set (snd (load_settings file h)) (fst (load_settings file h)) section key v
      = Returns h'
      /\ get (snd (reset_to_defaults h')) (fst (reset_to_defaults h')) section key default
         = Returns (match getitem section (deref h DEFAULT_SETTINGS) with
                    | Some _ => v
                    | None => default
                    end)
      /\ get h' (DictRef DEFAULT_SETTINGS) section key default
         = Returns (match getitem section (deref h DEFAULT_SETTINGS) with
                    | Some _ => v
                    | None => default
                    end).
Proof.
  intros h file sec key v dflt LD H F.
  assert (E : load_settings file h
              = (DictRef (List.length h), h ++ [deref h DEFAULT_SETTINGS]))
    by (destruct F as [->| ->]; reflexivity).
  rewrite E. cbn [fst snd].
  remember (List.length h) as a eqn:Ea.
  remember (h ++ [deref h DEFAULT_SETTINGS]) as h1 eqn:Eh1.
  assert (L1 : List.length h1 = S a) by (subst; apply length_snoc).
  assert (Da : deref h1 a = deref h DEFAULT_SETTINGS) by (subst; apply deref_new).
  assert (Dd : deref h1 DEFAULT_SETTINGS = deref h DEFAULT_SETTINGS)
    by (subst; now apply deref_app).
  assert (R : forall h',
             deref h' DEFAULT_SETTINGS = deref h DEFAULT_SETTINGS ->
             (forall b, getitem sec (deref h DEFAULT_SETTINGS) = Some (DictRef b) ->
                        (b < List.length h')%nat) ->
             get (snd (reset_to_defaults h')) (fst (reset_to_defaults h')) sec key dflt
             = get h' (DictRef DEFAULT_SETTINGS) sec key dflt).
  { intros h' D B. unfold reset_to_defaults, copy, allocate. cbn [fst snd].
    unfold get. rewrite deref_new, D.
    destruct (getitem sec (deref h DEFAULT_SETTINGS)) as [[s|items|b]|] eqn:G;
      try reflexivity.
    rewrite deref_app by (now apply B). reflexivity. }
  destruct (getitem sec (deref h DEFAULT_SETTINGS)) as [x|] eqn:G.
  - destruct (H x eq_refl) as [b [-> [Lb Nb]]].
    assert (G1 : getitem sec (deref h1 a) = Some (DictRef b)) by (now rewrite Da).
    rewrite (set_existing h1 a b sec key v G1).
    eexists. split; [reflexivity|].
    assert (D' : deref (store b (setitem key v (deref h1 b)) h1) DEFAULT_SETTINGS
                 = deref h DEFAULT_SETTINGS).
    { rewrite deref_store_other by congruence. exact Dd. }
    assert (G' : get (store b (setitem key v (deref h1 b)) h1)
                     (DictRef DEFAULT_SETTINGS) sec key dflt = Returns v).
    { unfold get. rewrite D', G, deref_store_same by lia.
      now rewrite getitem_setitem_same. }
    split; [|exact G'].
    rewrite R; [exact G' | exact D' |].
    intros b' Eb. rewrite store_length. injection Eb as <-. lia.
  - assert (G1 : getitem sec (deref h1 a) = None) by (now rewrite Da).
    assert (La : (a < List.length h1)%nat) by lia.
    rewrite (set_missing h1 a sec key v La G1).
    eexists. split; [reflexivity|].
    assert (D' : deref (with_new_section h1 a sec key v) DEFAULT_SETTINGS
                 = deref h DEFAULT_SETTINGS).
    { rewrite with_new_section_other by lia. exact Dd. }
    assert (G' : get (with_new_section h1 a sec key v)
                     (DictRef DEFAULT_SETTINGS) sec key dflt = Returns dflt).
    { unfold get. now rewrite D', G. }
    split; [|exact G'].
    rewrite R; [exact G' | exact D' |]. intros b' Eb. discriminate.
Qed.

Lemma set_on_defaults_survives_reset_witness :
  exists h',
    set (snd (load_settings Missing module_heap)) (fst (load_settings Missing module_heap))
        "interface" "theme" (Scalar (SString "Dark")) = Returns h'
    /\ get (snd (reset_to_defaults h')) (fst (reset_to_defaults h')) "interface" "theme"
           (Scalar SNull)
       = Returns (Scalar (SString "Dark")).
Proof.
  destruct (set_on_defaults_survives_reset module_heap Missing "interface" "theme"
              (Scalar (SString "Dark")) (Scalar SNull))
    as [h' [S [G _]]].
  - unfold DEFAULT_SETTINGS. simpl. lia.
  - intros x E. injection E as <-. exists 1%nat. unfold DEFAULT_SETTINGS. simpl.
    repeat split; lia.
  - now left.
  - exists h'. split; assumption.
Defined.

(** ** Settings read from a file *)

Fixpoint json_members_ind (P : json -> Prop)
    (Hs : forall v, P (JScalar v))
    (Ha : forall items, P (JArray items))
    (Ho : forall members, Forall (fun m => P (snd m)) members -> P (JObject members))
    (j : json) {struct j} : P j :=
  match j with
  | JScalar v => Hs v
  | JArray items => Ha items
  | JObject members =>
      Ho members
         ((fix each (ms : list (string * json)) : Forall (fun m => P (snd m)) ms :=
             match ms with
             | [] => Forall_nil _
             | (k, j') :: rest =>
                 Forall_cons (k, j') (json_members_ind P Hs Ha Ho j') (each rest)
             end) members)
  end.

(** The dictionaries a dictionary holds were made after the heap had [lo]
    objects and before it had [hi]. *)
Definition holds_between (lo hi : nat) (d : pydict) : Prop :=
  forall k c, getitem k d = Some (DictRef c) -> (lo <= c < hi)%nat.

(** What [json.load] does to the heap: it only adds objects, and a
    dictionary it returns is new and holds new dictionaries only. *)
Definition loads_new_objects (j : json) : Prop :=
  forall h,
  exists ext,
    snd (json_load j h) = h ++ ext
    /\ forall a, fst (json_load j h) = DictRef a ->
                 (List.length h <= a < List.length (h ++ ext))%nat
                 /\ holds_between (List.length h) a (deref (h ++ ext) a).

Lemma holds_between_setitem (lo hi : nat) (k : string) (v : value) (d : pydict) :
  holds_between lo hi d ->
  (forall c, v = DictRef c -> (lo <= c < hi)%nat) ->
  holds_between lo hi (setitem k v d).
Proof.
  intros H V k' c G.
  destruct (String.eqb_spec k' k) as [->|N].
  - rewrite getitem_setitem_same in G. injection G as ->. now apply V.
  - rewrite getitem_setitem_other in G by exact N. now apply (H k').
Qed.

Lemma holds_between_weaken (lo lo' hi hi' : nat) (d : pydict) :
  (lo' <= lo)%nat -> (hi <= hi')%nat ->
  holds_between lo hi d -> holds_between lo' hi' d.
Proof. intros A B H k c G. specialize (H k c G). lia. Qed.

Lemma load_members_new (members : list (string * json)) :
  Forall (fun m => loads_new_objects (snd m)) members ->
  forall lo d h,
    (lo <= List.length h)%nat ->
    holds_between lo (List.length h) d ->
    exists ext,
      snd (load_members json_load members d h) = h ++ ext
      /\ holds_between lo (List.length (h ++ ext))
                       (fst (load_members json_load members d h)).
Proof.
  induction 1 as [|[k j] members Hj _ IH]; intros lo d h L B; simpl.
  - exists []. rewrite app_nil_r. split; [reflexivity | exact B].
  - destruct (Hj h) as [e1 [E1 F1]]. cbn [snd] in *.
    destruct (json_load j h) as [v h1] eqn:J. cbn [fst snd] in *. subst h1.
    destruct (IH lo (setitem k v d) (h ++ e1)) as [e2 [E2 F2]].
    + rewrite length_app. lia.
    + apply holds_between_setitem.
      * eapply holds_between_weaken; [| |exact B]; [lia|]. rewrite length_app. lia.
      * intros c ->. destruct (F1 c eq_refl) as [R _]. lia.
    + exists (e1 ++ e2). rewrite app_assoc. split; assumption.
Qed.

Lemma json_load_new (j : json) : loads_new_objects j.
Proof.
  induction j as [v|items|members IH] using json_members_ind; intros h.
  - exists []. rewrite app_nil_r. split; [reflexivity|]. intros a E. discriminate.
  - exists []. rewrite app_nil_r. split; [reflexivity|]. intros a E. discriminate.
  - destruct (load_members_new members IH (List.length h) [] h) as [ext [E F]].
    + lia.
    + intros k c G. discriminate.
    + cbn [json_load].
      destruct (load_members json_load members [] h) as [d h1]. cbn [fst snd] in *.
      subst h1. cbn [allocate fst snd].
      exists (ext ++ [d]). rewrite app_assoc. split; [reflexivity|].
      intros a A. injection A as <-.
      rewrite length_snoc, deref_new. split; [|exact F].
      rewrite length_app. lia.
Qed.

(** The settings dictionary at [a] was made after the heap [h0], like every
    dictionary it holds, and nothing of [h0] has changed. *)
Definition apart_from (h0 : heap) (a : nat) (h : heap) : Prop :=
  (List.length h0 <= a < List.length h)%nat
  /\ (forall x, (x < List.length h0)%nat -> deref h x = deref h0 x)
  /\ (forall k c, getitem k (deref h a) = Some (DictRef c) ->
                  (List.length h0 <= c < List.length h)%nat /\ c <> a).

Lemma set_keeps_apart (h0 h h' : heap) (a : nat) (section key : string) (v : value) :
  apart_from h0 a h ->
  set h (DictRef a) section key v = Returns h' ->
  apart_from h0 a h'.
Proof.
  intros [La [P I]] S.
  destruct (getitem section (deref h a)) as [[s|items|b]|] eqn:G.
  - unfold set in S. rewrite G, G in S. discriminate.
  - unfold set in S. rewrite G, G in S. discriminate.
  - rewrite (set_existing h a b section key v G) in S. injection S as <-.
    destruct (I section b G) as [Lb Nb].
    split; [rewrite store_length; lia|]. split.
    + intros x Lx. rewrite deref_store_other by lia. now apply P.
    + intros k c. rewrite deref_store_other by congruence. rewrite store_length.
      apply I.
  - rewrite (set_missing h a section key v) in S by (lia || exact G).
    injection S as <-.
    split; [rewrite with_new_section_length; lia|]. split.
    + intros x Lx. rewrite with_new_section_other by lia. now apply P.
    + intros k c. rewrite with_new_section_outer by lia.
      rewrite with_new_section_length. intros E.
      destruct (String.eqb_spec k section) as [->|N].
      * rewrite getitem_setitem_same in E. injection E as <-. lia.
      * rewrite getitem_setitem_other in E by exact N.
        destruct (I k c E). lia.
Qed.

Lemma set_each_keeps_apart (h0 : heap) (a : nat)
    (updates : list (string * string * value)) :
  forall h h',
    apart_from h0 a h ->
    set_each h (DictRef a) updates = Returns h' ->
    apart_from h0 a h'.
Proof.
  induction updates as [|[[section key] v] updates IH]; intros h h' A S;
    cbn [set_each] in S.
  - now injection S as <-.
  - destruct (set h (DictRef a) section key v) as [h1|e] eqn:E; [|discriminate].
    apply (IH h1); [|exact S]. eapply set_keeps_apart; eauto.
Qed.

Lemma within_bound (h : heap) (d : pydict) (k : string) (b : nat) :
  within h d = true -> getitem k d = Some (DictRef b) -> (b < List.length h)%nat.
Proof.
  unfold within. induction d as [|[x w] d IH]; simpl; [discriminate|].
  intros W G. apply andb_true_iff in W. destruct W as [W1 W2].
  destruct (String.eqb x k).
  - injection G as ->. now apply Nat.ltb_lt.
  - now apply IH.
Qed.

(** X28.  Settings read from a file share nothing with the defaults:
    whatever is [set] on them afterwards, every dictionary that existed
    before the file was read is unchanged, and after [reset_to_defaults]
    [get] returns what the defaults hold. *)
Theorem file_settings_leave_defaults :
  forall (h : heap) (document : json) (updates : list (string * string * value))
         (h' : heap),
    (DEFAULT_SETTINGS < List.length h)%nat ->
    within h (deref h DEFAULT_SETTINGS) = true ->
    set_each (snd (load_settings (Holds document) h))
             (fst (load_settings (Holds document) h)) updates = Returns h' ->
    (forall x, (x < List.length h)%nat -> deref h' x = deref h x)
    /\ (forall section key default,
          get (snd (reset_to_defaults h')) (fst (reset_to_defaults h')) section key default
          = get h (DictRef DEFAULT_SETTINGS) section key default).
Proof.
  intros h j updates h' LD W S. cbn [load_settings] in S.
  destruct (json_load_new j h) as [ext [E F]].
  assert (P : (List.length h <= List.length h')%nat
              /\ forall x, (x < List.length h)%nat -> deref h' x = deref h x).
  { destruct (fst (json_load j h)) as [s|items|a] eqn:V.
    - destruct updates as [|[[section key] v] updates]; simpl in S; [|discriminate].
      injection S as <-. rewrite E, length_app. split; [lia|].
      intros x Lx. now apply deref_app.
    - destruct updates as [|[[section key] v] updates]; simpl in S; [|discriminate].
      injection S as <-. rewrite E, length_app. split; [lia|].
      intros x Lx. now apply deref_app.
    - destruct (F a eq_refl) as [La Ia].
      assert (A : apart_from h a (snd (json_load j h))).
      { rewrite E. split; [exact La|]. split.
        - intros x Lx. now apply deref_app.
        - intros k c G. specialize (Ia k c G). lia. }
      destruct (set_each_keeps_apart h a updates _ h' A S) as [L' [P' _]].
      split; [lia | exact P']. }
  destruct P as [L P]. split; [exact P|].
  intros section key dflt.
  unfold reset_to_defaults, copy, allocate. cbn [fst snd].
  unfold get. rewrite deref_new, (P _ LD).
  destruct (getitem section (deref h DEFAULT_SETTINGS)) as [[s|items|b]|] eqn:G;
    try reflexivity.
  assert (Lb : (b < List.length h)%nat) by (eapply within_bound; eauto).
  rewrite deref_app by lia. now rewrite (P _ Lb).
Qed.

Lemma file_settings_leave_defaults_witness :
  get (snd (reset_to_defaults
              (with_new_section
                 (snd (load_settings (Holds (JObject [])) module_heap)) 4
                 "interface" "theme" (Scalar (SString "Dark")))))
      (fst (reset_to_defaults
              (with_new_section
                 (snd (load_settings (Holds (JObject [])) module_heap)) 4
                 "interface" "theme" (Scalar (SString "Dark")))))
      "interface" "theme" (Scalar SNull)
  = get module_heap (DictRef DEFAULT_SETTINGS) "interface" "theme" (Scalar SNull).
Proof.
  apply (file_settings_leave_defaults
           module_heap (JObject [])
           [("interface", "theme", Scalar (SString "Dark"))]%string).
  - unfold DEFAULT_SETTINGS. simpl. lia.
  - reflexivity.
  - reflexivity.
Defined.
